(** * FeedPulse: the analytics core of [src/src/index.ts]

    A shallow embedding of the classifier gateway ([analyzeFeedback]), of the
    theme counting and insight computations of [handleGetInsights] and
    [handleGetAIInsights], and of the filtered, paginated listing of
    [handleGetFeedback].

    Modelling conventions.
    - Text is [string] (8-bit characters); case mapping and whitespace are
      those of JavaScript restricted to ASCII.
    - A parsed or clamped JavaScript number is [jsnum]: NaN, a finite value
      held as an exact rational, or an infinity. The ratios, averages and
      percentages of the insight engine are IEEE binary64 doubles
      ([SpecFloat] at precision 53, exponent bound 1024), rounded to nearest
      even as JavaScript does. Counts are integers, exact below 2^53.
    - A JavaScript object used as a map ([Record<string, number>]) is an
      association list of its own properties in insertion order; enumeration
      ([Object.entries], [Object.values]) follows the ECMAScript property
      order: array-index keys first, ascending, then the others in insertion
      order. A key naming a member of [Object.prototype] ([constructor],
      [__proto__], [toString], ...) reads that inherited member when it has
      no own property; the code's reads and updates on such keys are modelled
      as JavaScript performs them.
    - A stored [themes] column is represented by the outcome of [JSON.parse]
      on it ([None] when the parse throws). *)

From Stdlib Require Import ZArith QArith Qround List String Ascii Bool Lia.
From Stdlib Require Import Permutation Sorted SpecFloat.
Import ListNotations.

Open Scope string_scope.
Open Scope Z_scope.
#[local] Set Warnings "-register-all".

(** ** JavaScript numbers *)

Inductive jsnum : Type :=
| NaN
| Fin (q : Q)
| PosInf
| NegInf.

(** [Math.round]: the closest integer, halves rounded towards +infinity. *)
Definition js_round (n : jsnum) : jsnum :=
  match n with
  | Fin q => Fin (inject_Z (Qfloor (q + (1 # 2))))
  | _ => n
  end.

(** Truthiness of a number, as tested by [||]: NaN and zero are falsy. *)
Definition js_truthy_num (n : jsnum) : bool :=
  match n with
  | NaN => false
  | Fin q => negb (Qeq_bool q 0)
  | _ => true
  end.

Definition Qlt_bool (x y : Q) : bool := negb (Qle_bool y x).

(** [a < b] on numbers; every comparison with NaN is false. *)
Definition js_lt (a b : jsnum) : bool :=
  match a, b with
  | NaN, _ | _, NaN => false
  | Fin x, Fin y => Qlt_bool x y
  | NegInf, NegInf => false
  | NegInf, _ => true
  | _, PosInf => match a with PosInf => false | _ => true end
  | _, _ => false
  end.

Definition js_max (a b : jsnum) : jsnum :=
  match a, b with
  | NaN, _ | _, NaN => NaN
  | _, _ => if js_lt a b then b else a
  end.

Definition js_min (a b : jsnum) : jsnum :=
  match a, b with
  | NaN, _ | _, NaN => NaN
  | _, _ => if js_lt b a then b else a
  end.

(** ** IEEE doubles

    The insight engine divides, multiplies and rounds, and there the binary
    rounding of JavaScript numbers shows; these computations are carried out
    on [spec_float], the IEEE 754 binary64 model of the Standard Library
    (round to nearest, ties to even). *)

Definition double : Type := spec_float.

(** The double nearest to an integer. *)
Definition d_of_Z (z : Z) : double := binary_normalize 53 1024 z 0 false.

Definition d_div (x y : double) : double := SFdiv 53 1024 x y.
Definition d_mul (x y : double) : double := SFmul 53 1024 x y.
Definition d_sub (x y : double) : double := SFsub 53 1024 x y.

(** The number literal [0.1]: the double nearest to 1/10. *)
Definition d_lit01 : double := d_div (d_of_Z 1) (d_of_Z 10).

(** The exact value of a finite double. *)
Definition d_value (x : double) : Q :=
  match x with
  | S754_finite s m e =>
      let z := if s then Zneg m else Zpos m in
      if 0 <=? e then inject_Z (z * 2 ^ e) else z # Z.to_pos (2 ^ (- e))
  | _ => 0
  end.

(** [Math.round]: the integer closest to [x], halves towards +infinity; a
    zero result keeps the sign of [x]; NaN, infinities and zeros are
    returned unchanged. *)
Definition d_round (x : double) : double :=
  match x with
  | S754_finite s _ _ =>
      let n := Qfloor (d_value x + (1 # 2)) in
      if n =? 0 then S754_zero s else d_of_Z n
  | _ => x
  end.

(** The double nearest to a rational. *)
Definition q_to_double (q : Q) : double :=
  match Qnum q with
  | Z0 => S754_zero false
  | Zpos m => SFdiv 53 1024 (S754_finite false m 0) (S754_finite false (Qden q) 0)
  | Zneg m => SFdiv 53 1024 (S754_finite true m 0) (S754_finite false (Qden q) 0)
  end.

(** The double a number denotes. *)
Definition num_to_double (n : jsnum) : double :=
  match n with
  | NaN => S754_nan
  | Fin q => q_to_double q
  | PosInf => S754_infinity false
  | NegInf => S754_infinity true
  end.

(** ** Characters and strings *)

Definition ascii_eqb (a b : ascii) : bool := Ascii.eqb a b.

(** WhiteSpace and LineTerminator code points of the ASCII range. *)
Definition is_js_ws (c : ascii) : bool :=
  let n := nat_of_ascii c in
  ((9 <=? n)%nat && (n <=? 13)%nat) || (n =? 32)%nat.

Definition is_upper (c : ascii) : bool :=
  let n := nat_of_ascii c in (65 <=? n)%nat && (n <=? 90)%nat.

Definition char_to_lower (c : ascii) : ascii :=
  if is_upper c then ascii_of_nat (nat_of_ascii c + 32) else c.

(** [String.prototype.toLowerCase]. *)
Definition to_lower (s : string) : string :=
  string_of_list_ascii (map char_to_lower (list_ascii_of_string s)).

Fixpoint drop_ws (cs : list ascii) : list ascii :=
  match cs with
  | [] => []
  | c :: r => if is_js_ws c then drop_ws r else cs
  end.

(** [String.prototype.trim]: leading and trailing white space removed. *)
Definition trim (s : string) : string :=
  string_of_list_ascii (rev (drop_ws (rev (drop_ws (list_ascii_of_string s))))).

(** [Number::toString] of an integer ([String(n)], and [n] in a string
    concatenation). *)
Fixpoint dec_digits (fuel : nat) (n : Z) (acc : string) : string :=
  match fuel with
  | O => acc
  | S f =>
      let acc' := String (ascii_of_nat (48 + Z.to_nat (n mod 10))) acc in
      if n <? 10 then acc' else dec_digits f (n / 10) acc'
  end.

Definition z_to_string (n : Z) : string :=
  let m := Z.abs n in
  let ds := dec_digits (S (Z.to_nat (Z.log2 m))) m "" in
  if n <? 0 then "-" ++ ds else ds.

(** ** JSON values, as [JSON.parse] returns them *)

(** A number carries its value and its JavaScript string form
    ([Number::toString]), which [String(n)] returns. *)
Inductive json : Type :=
| JNull
| JBool (b : bool)
| JNum (v : jsnum) (shown : string)
| JStr (s : string)
| JArr (xs : list json)
| JObj (kvs : list (string * json)).

Fixpoint has_key (k : string) (kvs : list (string * json)) : bool :=
  match kvs with
  | [] => false
  | (k', _) :: r => String.eqb k k' || has_key k r
  end.

(** Property read [v.k] on a parsed value; [None] is [undefined]. A repeated
    key of the JSON text keeps its last value. *)
Definition get_prop (v : json) (k : string) : option json :=
  match v with
  | JObj kvs =>
      fold_left (fun acc kv => if String.eqb (fst kv) k then Some (snd kv) else acc)
        kvs None
  | _ => None
  end.

Fixpoint join_comma (ss : list string) : string :=
  match ss with
  | [] => ""
  | [s] => s
  | s :: r => s ++ "," ++ join_comma r
  end.

(** [String(v)]; [None] when it throws a TypeError (an object whose own
    [toString] property is not callable). Arrays are joined with commas,
    [null] elements printing as the empty string. *)
Fixpoint js_String (v : json) : option string :=
  match v with
  | JNull => Some "null"
  | JBool b => Some (if b then "true" else "false")
  | JNum _ s => Some s
  | JStr s => Some s
  | JArr xs =>
      let fix elems (xs : list json) : option (list string) :=
        match xs with
        | [] => Some []
        | JNull :: r => option_map (cons "") (elems r)
        | x :: r =>
            match js_String x, elems r with
            | Some s, Some ss => Some (s :: ss)
            | _, _ => None
            end
        end in
      option_map join_comma (elems xs)
  | JObj kvs => if has_key "toString" kvs then None else Some "[object Object]"
  end.

(** ** [ToNumber] *)

Definition digit_of (base : Z) (c : ascii) : option Z :=
  let n := Z.of_nat (nat_of_ascii c) in
  let d := if (48 <=? n) && (n <=? 57) then Some (n - 48)
           else if (97 <=? n) && (n <=? 102) then Some (n - 87)
           else if (65 <=? n) && (n <=? 70) then Some (n - 55)
           else None in
  match d with
  | Some v => if v <? base then Some v else None
  | None => None
  end.

Fixpoint digits_value (base : Z) (cs : list ascii) (acc : Z) : option Z :=
  match cs with
  | [] => Some acc
  | c :: r =>
      match digit_of base c with
      | Some d => digits_value base r (acc * base + d)
      | None => None
      end
  end.

Fixpoint span_dec (cs : list ascii) : list ascii * list ascii :=
  match cs with
  | [] => ([], [])
  | c :: r =>
      match digit_of 10 c with
      | Some _ => let '(a, b) := span_dec r in (c :: a, b)
      | None => ([], cs)
      end
  end.

Definition q_pow10 (e : Z) : Q :=
  if 0 <=? e then inject_Z (10 ^ e) else Qinv (inject_Z (10 ^ (- e))).

Definition is_char (c : ascii) (s : string) : bool :=
  existsb (ascii_eqb c) (list_ascii_of_string s).

(** The optional exponent part [(e|E) [+|-] digits] ending a decimal literal. *)
Definition parse_exponent (cs : list ascii) : option Z :=
  match cs with
  | [] => Some 0
  | e :: r =>
      if is_char e "eE" then
        let '(sg, ds) :=
          match r with
          | c :: r' => if ascii_eqb c "+"%char then (1, r')
                       else if ascii_eqb c "-"%char then (-1, r') else (1, r)
          | [] => (1, r)
          end in
        match ds with
        | [] => None
        | _ => option_map (fun v => sg * v) (digits_value 10 ds 0)
        end
      else None
  end.

(** StrUnsignedDecimalLiteral without [Infinity]: [digits [. digits] [exp]]
    or [. digits [exp]]. *)
Definition parse_unsigned_decimal (cs : list ascii) : option Q :=
  let '(ip, r1) := span_dec cs in
  let '(fp, r2) :=
    match r1 with
    | c :: r => if ascii_eqb c "."%char then span_dec r else ([], r1)
    | [] => ([], [])
    end in
  match ip, fp with
  | [], [] => None
  | _, _ =>
      match digits_value 10 (ip ++ fp)%list 0, parse_exponent r2 with
      | Some m, Some e => Some (inject_Z m * q_pow10 (e - Z.of_nat (List.length fp)))%Q
      | _, _ => None
      end
  end.

Definition parse_signed_decimal (cs : list ascii) : jsnum :=
  let '(neg, r) :=
    match cs with
    | c :: r => if ascii_eqb c "+"%char then (false, r)
                else if ascii_eqb c "-"%char then (true, r) else (false, cs)
    | [] => (false, cs)
    end in
  if String.eqb (string_of_list_ascii r) "Infinity" then (if neg then NegInf else PosInf)
  else match parse_unsigned_decimal r with
       | Some q => Fin (if neg then Qopp q else q)
       | None => NaN
       end.

(** StringToNumber: white space trimmed, the empty string is 0, then a
    [0x]/[0o]/[0b] integer or a signed decimal literal; anything else NaN. *)
Definition string_to_number (s : string) : jsnum :=
  let cs := rev (drop_ws (rev (drop_ws (list_ascii_of_string s)))) in
  match cs with
  | [] => Fin 0
  | c0 :: c1 :: r =>
      let base := if is_char c1 "xX" then 16 else if is_char c1 "oO" then 8
                  else if is_char c1 "bB" then 2 else 0 in
      if ascii_eqb c0 "0"%char && negb (base =? 0) then
        match r with
        | [] => NaN
        | _ => match digits_value base r 0 with
               | Some v => Fin (inject_Z v)
               | None => NaN
               end
        end
      else parse_signed_decimal cs
  | _ => parse_signed_decimal cs
  end.

(** [ToNumber(v)] for a property value ([None] is [undefined]); [None] when it
    throws. Arrays and objects go through their string form. *)
Definition to_number (v : option json) : option jsnum :=
  match v with
  | None => Some NaN
  | Some JNull => Some (Fin 0)
  | Some (JBool b) => Some (Fin (if b then 1 else 0)%Q)
  | Some (JNum n _) => Some n
  | Some (JStr s) => Some (string_to_number s)
  | Some w => option_map string_to_number (js_String w)
  end.

Fixpoint map_opt {A B : Type} (f : A -> option B) (l : list A) : option (list B) :=
  match l with
  | [] => Some []
  | x :: r =>
      match f x, map_opt f r with
      | Some y, Some ys => Some (y :: ys)
      | _, _ => None
      end
  end.

(** ** Classifier gateway: [analyzeFeedback] *)

Module Gateway.

Record FeedbackAnalysis : Type := {
  sentiment : string;
  category : string;
  priority : jsnum;
  themes : list string
}.

(** The value of the [catch] branch. *)
Definition default_analysis : FeedbackAnalysis :=
  {| sentiment := "neutral"; category := "complaint"; priority := Fin 3; themes := [] |}.

(** [[...].includes(v) ? v : fallback]. *)
Definition pick (valid : list string) (v : option json) (fallback : string) : string :=
  match v with
  | Some (JStr s) => if existsb (String.eqb s) valid then s else fallback
  | _ => fallback
  end.

(** [Math.min(5, Math.max(1, Math.round(p) || 3))]. *)
Definition sanitize_priority (p : jsnum) : jsnum :=
  let r := js_round p in
  js_min (Fin 5) (js_max (Fin 1) (if js_truthy_num r then r else Fin 3)).

(** [Array.isArray(t) ? t.slice(0, 5).map((t) => String(t).toLowerCase().trim()) : []]. *)
Definition sanitize_themes (v : option json) : option (list string) :=
  match v with
  | Some (JArr xs) =>
      map_opt (fun t => option_map (fun s => trim (to_lower s)) (js_String t)) (firstn 5 xs)
  | _ => Some []
  end.

(** The object literal returned after [JSON.parse]; [None] when building it
    throws. *)
Definition sanitize (analysis : json) : option FeedbackAnalysis :=
  match to_number (get_prop analysis "priority"), sanitize_themes (get_prop analysis "themes") with
  | Some p, Some ts =>
      Some {| sentiment := pick ["positive"; "negative"; "neutral"]
                             (get_prop analysis "sentiment") "neutral";
              category := pick ["bug"; "feature"; "praise"; "complaint"]
                            (get_prop analysis "category") "complaint";
              priority := sanitize_priority p;
              themes := ts |}
  | _, _ => None
  end.

(** The longest prefix ending in a closing brace. *)
Fixpoint upto_last_close (cs : list ascii) : option (list ascii) :=
  match cs with
  | [] => None
  | c :: r =>
      match upto_last_close r with
      | Some p => Some (c :: p)
      | None => if ascii_eqb c "}"%char then Some [c] else None
      end
  end.

(** [text.match(/\{[\s\S]*\}/)]: the leftmost start, the greedy (longest)
    body. *)
Fixpoint json_match_l (cs : list ascii) : option (list ascii) :=
  match cs with
  | [] => None
  | c :: r =>
      if ascii_eqb c "{"%char then
        match upto_last_close r with
        | Some p => Some (c :: p)
        | None => json_match_l r
        end
      else json_match_l r
  end.

Definition json_match (text : string) : option string :=
  option_map string_of_list_ascii (json_match_l (list_ascii_of_string text)).

Section Analyze.

(** [JSON.parse], a builtin: [None] when it throws. *)
Variable json_parse : string -> option json.

(** [analyzeFeedback]: [response] is the text of the model's reply, [None]
    when [ai.run] rejects or the reply has no text. *)
Definition analyzeFeedback (response : option string) : FeedbackAnalysis :=
  match response with
  | None => default_analysis
  | Some text =>
      match json_match text with
      | None => default_analysis
      | Some m =>
          match json_parse m with
          | None => default_analysis
          | Some analysis =>
              match sanitize analysis with
              | Some a => a
              | None => default_analysis
              end
          end
      end
  end.

End Analyze.

End Gateway.

(** ** JavaScript objects used as maps *)

Module JsObj.

(** Own properties in insertion order. *)
Definition t (A : Type) : Type := list (string * A).

(** The own property [k] ([[[GetOwnProperty]]]). *)
Fixpoint get {A : Type} (k : string) (o : t A) : option A :=
  match o with
  | [] => None
  | (k', v) :: r => if String.eqb k k' then Some v else get k r
  end.

(** [o[k] = v]: an existing property keeps its position, a new one is
    appended. *)
Fixpoint set {A : Type} (k : string) (v : A) (o : t A) : t A :=
  match o with
  | [] => [(k, v)]
  | (k', v') :: r => if String.eqb k k' then (k', v) :: r else (k', v') :: set k v r
  end.

Definition is_dec_digit (c : ascii) : bool :=
  match digit_of 10 c with Some _ => true | None => false end.

(** An array index: the canonical decimal form of an integer in
    [0, 2^32 - 2]. *)
Definition is_array_index (k : string) : bool :=
  match list_ascii_of_string k with
  | [] => false
  | c :: r =>
      forallb is_dec_digit (c :: r)
      && (negb (ascii_eqb c "0"%char) || match r with [] => true | _ => false end)
      && match digits_value 10 (c :: r) 0 with
         | Some v => v <=? 4294967294
         | None => false
         end
  end.

Definition index_value (k : string) : Z :=
  match digits_value 10 (list_ascii_of_string k) 0 with Some v => v | None => 0 end.

Fixpoint insert_index {A : Type} (x : string * A) (l : t A) : t A :=
  match l with
  | [] => [x]
  | y :: r => if index_value (fst x) <? index_value (fst y) then x :: l
              else y :: insert_index x r
  end.

Fixpoint sort_index {A : Type} (l : t A) : t A :=
  match l with
  | [] => []
  | x :: r => insert_index x (sort_index r)
  end.

(** [Object.entries(o)]: array-index keys in ascending numeric order, then the
    other keys in insertion order. *)
Definition entries {A : Type} (o : t A) : t A :=
  (sort_index (filter (fun kv => is_array_index (fst kv)) o)
   ++ filter (fun kv => negb (is_array_index (fst kv))) o)%list.

(** The properties an object literal inherits from [Object.prototype]:
    reading [o[k]] for one of them, when [o] has no own property [k], yields
    a function ([Object] for [constructor]) or, for [__proto__],
    [Object.prototype] itself. *)
Definition proto_members : list string :=
  ["constructor"; "__defineGetter__"; "__defineSetter__"; "hasOwnProperty";
   "__lookupGetter__"; "__lookupSetter__"; "isPrototypeOf";
   "propertyIsEnumerable"; "toString"; "valueOf"; "__proto__";
   "toLocaleString"].

Definition inherited (k : string) : bool := existsb (String.eqb k) proto_members.

(** [String(o[k])] for an inherited member: the source text of a built-in
    function, or [[object Object]] for [Object.prototype]. *)
Definition member_text (k : string) : string :=
  if String.eqb k "__proto__" then "[object Object]"
  else "function " ++ (if String.eqb k "constructor" then "Object" else k)
       ++ "() { [native code] }".

End JsObj.

(** A value stored in a [Record<string, number>] count map: the counting code
    only ever stores numbers or, once an inherited member has been read and
    [+ 1] applied to it, strings. *)
Inductive cval : Type :=
| CNum (n : Z)
| CStr (s : string).

(** [ToNumber] of a stored count. *)
Definition cval_num (v : cval) : jsnum :=
  match v with
  | CNum n => Fin (inject_Z n)
  | CStr s => string_to_number s
  end.

(** The double a stored count denotes as an operand of [/] or [*]. *)
Definition cval_double (v : cval) : double := num_to_double (cval_num v).

(** [a + b] on stored counts: numbers add, a string concatenates. *)
Definition cval_add (a b : cval) : cval :=
  match a, b with
  | CNum x, CNum y => CNum (x + y)
  | CNum x, CStr t => CStr (z_to_string x ++ t)
  | CStr s, CNum y => CStr (s ++ z_to_string y)
  | CStr s, CStr t => CStr (s ++ t)
  end.

(** [a - b] on numbers. *)
Definition js_sub (a b : jsnum) : jsnum :=
  match a, b with
  | Fin x, Fin y => Fin (x - y)
  | NaN, _ | _, NaN => NaN
  | PosInf, PosInf | NegInf, NegInf => NaN
  | PosInf, _ | _, NegInf => PosInf
  | NegInf, _ | _, PosInf => NegInf
  end.

(** ** Stored feedback rows *)

Module Store.

Record Feedback : Type := {
  id : Z;
  source : string;
  content : string;
  sentiment : string;
  category : string;
  priority : Z;
  themes : option json;
  created_at : string
}.

End Store.

Import Store.

(** ** Theme index *)

(** The body of the recurring loop
    [themes.forEach((theme) => { const t = theme.toLowerCase().trim(); if (t) ... })]:
    the normalized non-empty themes in order. A non-string element throws,
    which the surrounding [try] catches, ending the row's loop. *)
Fixpoint norm_themes (xs : list json) : list string :=
  match xs with
  | [] => []
  | JStr s :: r =>
      let t := trim (to_lower s) in
      if String.eqb t "" then norm_themes r else t :: norm_themes r
  | _ :: _ => []
  end.

(** [JSON.parse(f.themes)] then [Array.isArray(themes)]: a non-array or an
    unparsable value contributes nothing. *)
Definition row_themes (f : Feedback) : list string :=
  match themes f with
  | Some (JArr xs) => norm_themes xs
  | _ => []
  end.

(** [themeCounts[t] = (themeCounts[t] || 0) + 1]. The read [themeCounts[t]]
    finds an own count, an inherited member of [Object.prototype] (truthy, and
    [+ 1] turns it into a string) or [undefined]; a stored empty string or
    zero is falsy. Assigning a number to [__proto__] is ignored; any other key
    gets an own property. *)
Definition bump (o : JsObj.t cval) (t : string) : JsObj.t cval :=
  let r := match JsObj.get t o with
           | Some (CNum n) => CNum (n + 1)
           | Some (CStr s) => if String.eqb s "" then CNum 1 else CStr (s ++ "1")
           | None => if JsObj.inherited t then CStr (JsObj.member_text t ++ "1")
                     else CNum 1
           end in
  if String.eqb t "__proto__" then o else JsObj.set t r o.

(** The theme counting loop of [handleGetInsights] (over all rows) and of
    [handleGetAIInsights] (over all rows, and over the 10 most recent). *)
Definition count_themes (rows : list Feedback) : JsObj.t cval :=
  fold_left (fun o f => fold_left bump (row_themes f) o) rows [].

(** The comparator [(a, b) => b[1] - a[1]]; [sort] reads a NaN result as
    [+0]. *)
Definition count_cmp (a b : string * cval) : jsnum :=
  js_sub (cval_num (snd b)) (cval_num (snd a)).

Definition cmp_le0 (v : jsnum) : bool :=
  match v with
  | NaN => true
  | Fin q => Qle_bool q 0
  | PosInf => false
  | NegInf => true
  end.

(** [.sort((a, b) => b[1] - a[1])]: [Array.prototype.sort] is stable; for a
    consistent comparator (all counts numbers) the result is the stable sort
    by count, descending, computed here by insertion. With string counts the
    comparator may be inconsistent and the engine's order is
    implementation-defined; the insertion order is one of the possible
    results. *)
Fixpoint insert_count (x : string * cval) (l : list (string * cval))
  : list (string * cval) :=
  match l with
  | [] => [x]
  | y :: r => if cmp_le0 (count_cmp x y) then x :: l else y :: insert_count x r
  end.

Fixpoint sort_counts (l : list (string * cval)) : list (string * cval) :=
  match l with
  | [] => []
  | x :: r => insert_count x (sort_counts r)
  end.

(** [topThemes] of [handleGetInsights]; [rows] is the [SELECT themes FROM
    feedback] scan, in table order. *)
Definition top_themes (rows : list Feedback) : list (string * cval) :=
  firstn 5 (sort_counts (JsObj.entries (count_themes rows))).

(** The same counting on numbers only: the number of occurrences of each key,
    in order of first occurrence. [count_themes] agrees with it when no theme
    names a member of [Object.prototype]. *)
Definition tally_bump (o : JsObj.t Z) (t : string) : JsObj.t Z :=
  JsObj.set t (match JsObj.get t o with Some n => n | None => 0 end + 1) o.

Definition theme_tally (rows : list Feedback) : JsObj.t Z :=
  fold_left (fun o f => fold_left tally_bump (row_themes f) o) rows [].

(** Stable sort by count, descending, on numeric counts. *)
Fixpoint insert_desc (x : string * Z) (l : list (string * Z)) : list (string * Z) :=
  match l with
  | [] => [x]
  | y :: r => if snd y <=? snd x then x :: l else y :: insert_desc x r
  end.

Fixpoint sort_desc (l : list (string * Z)) : list (string * Z) :=
  match l with
  | [] => []
  | x :: r => insert_desc x (sort_desc r)
  end.

Definition top_tally (rows : list Feedback) : list (string * Z) :=
  firstn 5 (sort_desc (JsObj.entries (theme_tally rows))).

(** ** Insight engine: [handleGetAIInsights] *)

Module Insights.

Record UrgentIssue : Type := {
  theme : string;
  avgPriority : double;
  count : Z
}.

Record TrendingTopic : Type := {
  t_theme : string;
  t_count : cval;
  recentMentions : cval
}.

(** [recentPositive] and [recentNegative] are absent ([None]) in the
    empty-state shape. *)
Record SentimentTrend : Type := {
  trend : string;
  description : string;
  recentPositive : option Z;
  recentNegative : option Z
}.

Record DistributionEntry : Type := {
  d_theme : string;
  d_count : cval;
  percentage : double
}.

Record AIInsights : Type := {
  mostUrgentIssue : option UrgentIssue;
  trendingTopic : option TrendingTopic;
  sentimentTrend : SentimentTrend;
  themeDistribution : list DistributionEntry
}.

(** [Math.round(avg * 10) / 10]. *)
Definition round1 (avg : double) : double :=
  d_div (d_round (d_mul avg (d_of_Z 10))) (d_of_Z 10).

(** [negativeThemePriorities]: per theme of a negative row, the running
    [{ total, count }]. [if (!o[t]) o[t] = { total: 0, count: 0 }] creates an
    own entry only when [o[t]] is [undefined]: for a member of
    [Object.prototype] the read is truthy, and the two updates then land on
    that inherited member (a function, or [Object.prototype]), not on an own
    entry of the map. *)
Definition add_priority (p : Z) (o : JsObj.t (Z * Z)) (t : string) : JsObj.t (Z * Z) :=
  match JsObj.get t o with
  | Some (tot, c) => JsObj.set t (tot + p, c + 1) o
  | None => if JsObj.inherited t then o else JsObj.set t (0 + p, 0 + 1) o
  end.

Definition negative_theme_priorities (feedback : list Feedback) : JsObj.t (Z * Z) :=
  fold_left (fun o f =>
               if String.eqb (sentiment f) "negative"
               then fold_left (add_priority (priority f)) (row_themes f) o
               else o)
    feedback [].

(** One step of the [Object.entries(...).forEach] selecting
    [mostUrgentIssue]; the state is [(mostUrgentIssue, highestAvgPriority)]. *)
Definition urgent_step (st : option UrgentIssue * double) (e : string * (Z * Z))
  : option UrgentIssue * double :=
  let '(best, highest) := st in
  let '(th, (tot, c)) := e in
  let avg := d_div (d_of_Z tot) (d_of_Z c) in
  let best_count := match best with Some u => count u | None => 0 end in
  if SFltb highest avg || (SFeqb avg highest && (best_count <? c))
  then (Some {| theme := th; avgPriority := round1 avg; count := c |}, avg)
  else (best, highest).

Definition most_urgent_issue (feedback : list Feedback) : option UrgentIssue :=
  fst (fold_left urgent_step (JsObj.entries (negative_theme_priorities feedback))
         (None, d_of_Z 0)).

(** [a < b] on strings: code unit order. *)
Fixpoint str_ltb (a b : string) : bool :=
  match a, b with
  | _, EmptyString => false
  | EmptyString, String _ _ => true
  | String x a', String y b' =>
      if (nat_of_ascii x <? nat_of_ascii y)%nat then true
      else if ascii_eqb x y then str_ltb a' b' else false
  end.

(** [count > maxRecentCount]: two strings compare as strings, otherwise both
    sides are converted to numbers. *)
Definition cval_gt (a b : cval) : bool :=
  match a, b with
  | CStr s, CStr s' => str_ltb s' s
  | _, _ => js_lt (cval_num b) (cval_num a)
  end.

Definition trending_step (st : option TrendingTopic * cval) (e : string * cval)
  : option TrendingTopic * cval :=
  let '(best, mx) := st in
  let '(th, c) := e in
  if cval_gt c mx then (Some {| t_theme := th; t_count := c; recentMentions := c |}, c)
  else (best, mx).

Definition trending_topic (feedback : list Feedback) : option TrendingTopic :=
  fst (fold_left trending_step (JsObj.entries (count_themes (firstn 10 feedback)))
         (None, CNum 0)).

Definition count_sentiment (s : string) (items : list Feedback) : Z :=
  Z.of_nat (List.length (filter (fun f => String.eqb (sentiment f) s) items)).

(** [calcPositiveRatio]. *)
Definition calc_positive_ratio (items : list Feedback) : double :=
  match items with
  | [] => d_of_Z 0
  | _ => d_div (d_of_Z (count_sentiment "positive" items - count_sentiment "negative" items))
               (d_of_Z (Z.of_nat (List.length items)))
  end.

(** [midpoint || 1]. *)
Definition split_point (n : nat) : nat :=
  match Nat.div n 2 with 0%nat => 1%nat | m => m end.

Definition sentiment_trend (feedback : list Feedback) : SentimentTrend :=
  let k := split_point (List.length feedback) in
  let recentHalf := firstn k feedback in
  let olderHalf := skipn k feedback in
  let diff := d_sub (calc_positive_ratio recentHalf) (calc_positive_ratio olderHalf) in
  let rp := Some (count_sentiment "positive" recentHalf) in
  let rn := Some (count_sentiment "negative" recentHalf) in
  if SFltb d_lit01 diff then
    {| trend := "improving"; description := "Sentiment is getting more positive recently";
       recentPositive := rp; recentNegative := rn |}
  else if SFltb diff (SFopp d_lit01) then
    {| trend := "declining"; description := "More negative feedback in recent entries";
       recentPositive := rp; recentNegative := rn |}
  else
    {| trend := "stable"; description := "Sentiment has remained consistent";
       recentPositive := rp; recentNegative := rn |}.

(** [totalThemeMentions] is [Object.values(allThemeCounts).reduce((a, b) =>
    a + b, 0)]; [percentage] is [Math.round((count / totalThemeMentions) *
    100)]. *)
Definition theme_distribution (feedback : list Feedback) : list DistributionEntry :=
  let allThemeCounts := count_themes feedback in
  let totalThemeMentions :=
    fold_left cval_add (map snd (JsObj.entries allThemeCounts)) (CNum 0) in
  map (fun e => {| d_theme := fst e; d_count := snd e;
                   percentage := d_round (d_mul (d_div (cval_double (snd e))
                                                        (cval_double totalThemeMentions))
                                                 (d_of_Z 100)) |})
    (firstn 5 (sort_counts (JsObj.entries allThemeCounts))).

(** [handleGetAIInsights]; [feedback] is the result of [SELECT ... ORDER BY
    created_at DESC]. *)
Definition handleGetAIInsights (feedback : list Feedback) : AIInsights :=
  match feedback with
  | [] =>
      {| mostUrgentIssue := None; trendingTopic := None;
         sentimentTrend := {| trend := "neutral"; description := "No data yet";
                              recentPositive := None; recentNegative := None |};
         themeDistribution := [] |}
  | _ =>
      {| mostUrgentIssue := most_urgent_issue feedback;
         trendingTopic := trending_topic feedback;
         sentimentTrend := sentiment_trend feedback;
         themeDistribution := theme_distribution feedback |}
  end.

End Insights.

(** ** Query service: [handleGetFeedback] *)

Module Query.

(** [parseInt(s)] (no radix): leading white space, a sign, an optional
    [0x] prefix, then the longest run of digits; NaN when there is none. *)
Fixpoint take_digits (base : Z) (cs : list ascii) : list ascii :=
  match cs with
  | [] => []
  | c :: r => match digit_of base c with Some _ => c :: take_digits base r | None => [] end
  end.

Definition parse_int (s : string) : jsnum :=
  let cs := drop_ws (list_ascii_of_string s) in
  let '(sg, r) :=
    match cs with
    | c :: r => if ascii_eqb c "-"%char then (-1, r)
                else if ascii_eqb c "+"%char then (1, r) else (1, cs)
    | [] => (1, cs)
    end in
  let '(base, r') :=
    match r with
    | c0 :: c1 :: r2 => if ascii_eqb c0 "0"%char && is_char c1 "xX" then (16, r2) else (10, r)
    | _ => (10, r)
    end in
  match take_digits base r' with
  | [] => NaN
  | ds => match digits_value base ds 0 with
          | Some v => Fin (inject_Z (sg * v))
          | None => NaN
          end
  end.

(** The query string; [None] is a missing parameter ([searchParams.get]
    returns [null]). *)
Record Params : Type := {
  q_source : option string;
  q_sentiment : option string;
  q_category : option string;
  q_priority : option string;
  q_dateRange : option string;
  q_page : option string;
  q_limit : option string
}.

(** One [AND ...] of [whereClause] together with its bound parameter. *)
Inductive Cond : Type :=
| CSource (s : string)
| CSentiment (s : string)
| CCategory (s : string)
| CPriority (n : jsnum)
| CCreatedFrom (ts : string).

(** [if (x)] on a parameter: present and non-empty. *)
Definition present (v : option string) : option string :=
  match v with
  | Some s => if String.eqb s "" then None else Some s
  | None => None
  end.

Definition day_ms : Z := 24 * 60 * 60 * 1000.

Definition range_ms (r : string) : option Z :=
  if String.eqb r "24h" then Some day_ms
  else if String.eqb r "7d" then Some (7 * day_ms)
  else if String.eqb r "30d" then Some (30 * day_ms)
  else None.

Section Where.

(** [Date.prototype.toISOString], a builtin, on a time in milliseconds. *)
Variable to_iso : Z -> string.

(** [whereClause] and [params], built once and shared by the count query and
    the data query; [now] is [Date.now()]. *)
Definition build_where (now : Z) (ps : Params) : list Cond :=
  match present (q_source ps) with Some s => [CSource s] | None => [] end
  ++ match present (q_sentiment ps) with Some s => [CSentiment s] | None => [] end
  ++ match present (q_category ps) with Some s => [CCategory s] | None => [] end
  ++ match present (q_priority ps) with Some s => [CPriority (parse_int s)] | None => [] end
  ++ match present (q_dateRange ps) with
     | Some r => match range_ms r with
                 | Some d => [CCreatedFrom (to_iso (now - d))]
                 | None => []
                 end
     | None => []
     end.

End Where.

(** SQLite's comparison of TEXT values (BINARY collation). *)
Fixpoint str_leb (a b : string) : bool :=
  match a, b with
  | EmptyString, _ => true
  | String _ _, EmptyString => false
  | String x a', String y b' =>
      if (nat_of_ascii x <? nat_of_ascii y)%nat then true
      else if ascii_eqb x y then str_leb a' b' else false
  end.

Definition eval_cond (f : Feedback) (c : Cond) : bool :=
  match c with
  | CSource s => String.eqb (source f) s
  | CSentiment s => String.eqb (sentiment f) s
  | CCategory s => String.eqb (category f) s
  | CPriority (Fin q) => Qeq_bool (inject_Z (priority f)) q
  | CPriority _ => false
  | CCreatedFrom ts => str_leb ts (created_at f)
  end.

(** [WHERE 1=1 AND ...]. *)
Definition eval_where (w : list Cond) (f : Feedback) : bool :=
  forallb (eval_cond f) w.

(** [ORDER BY created_at DESC], ties in table order. *)
Fixpoint insert_created (x : Feedback) (l : list Feedback) : list Feedback :=
  match l with
  | [] => [x]
  | y :: r => if str_leb (created_at y) (created_at x) then x :: l else y :: insert_created x r
  end.

Fixpoint order_desc (l : list Feedback) : list Feedback :=
  match l with
  | [] => []
  | x :: r => insert_created x (order_desc r)
  end.

(** [SELECT COUNT( * ) as total FROM feedback] + whereClause. *)
Definition count_query (db : list Feedback) (w : list Cond) : Z :=
  Z.of_nat (List.length (filter (eval_where w) db)).

(** [SELECT * FROM feedback] + whereClause +
    [ORDER BY created_at DESC LIMIT ? OFFSET ?]. *)
Definition data_query (db : list Feedback) (w : list Cond) (limit offset : Z)
  : list Feedback :=
  firstn (Z.to_nat limit) (skipn (Z.to_nat offset) (order_desc (filter (eval_where w) db))).

Record Pagination : Type := {
  page : Z;
  limit : Z;
  total : Z;
  totalPages : Z;
  hasNext : bool;
  hasPrev : bool
}.

(** [Math.ceil(total / limit)] for a positive [limit]. *)
Definition ceil_div (a b : Z) : Z := (a + b - 1) / b.

(** The handler from the two queries on, for an integer [page] and [limit]. *)
Definition list_feedback (db : list Feedback) (w : list Cond) (page limit : Z)
  : list Feedback * Pagination :=
  let offset := (page - 1) * limit in
  let total := count_query db w in
  let tp := ceil_div total limit in
  (data_query db w limit offset,
   {| page := page; limit := limit; total := total; totalPages := tp;
      hasNext := page <? tp; hasPrev := 1 <? page |}).

(** [page || '1'] and [limit || '10']: a missing or empty parameter takes
    the default. *)
Definition or_default (v : option string) (d : string) : string :=
  match present v with Some s => s | None => d end.

(** [Math.max(1, parseInt(...))]. *)
Definition effective_page (ps : Params) : jsnum :=
  js_max (Fin 1) (parse_int (or_default (q_page ps) "1")).

(** [Math.min(100, Math.max(1, parseInt(...)))]. *)
Definition effective_limit (ps : Params) : jsnum :=
  js_min (Fin 100) (js_max (Fin 1) (parse_int (or_default (q_limit ps) "10"))).

(** [(page - 1) * limit]. *)
Definition js_offset (page limit : jsnum) : jsnum :=
  match page, limit with
  | Fin p, Fin l => Fin ((p - 1) * l)%Q
  | _, _ => NaN
  end.

Definition as_int (n : jsnum) : option Z :=
  match n with
  | Fin q => if Qeq_bool q (inject_Z (Qfloor q)) then Some (Qfloor q) else None
  | _ => None
  end.

(** [handleGetFeedback]; [None] is the 500 answer of the [catch], reached
    when LIMIT or OFFSET is bound to a value that is not an integer (SQLite
    refuses it with a datatype mismatch). *)
Definition handleGetFeedback (to_iso : Z -> string) (now : Z) (db : list Feedback)
  (ps : Params) : option (list Feedback * Pagination) :=
  let page := effective_page ps in
  let limit := effective_limit ps in
  match as_int page, as_int limit, as_int (js_offset page limit) with
  | Some p, Some l, Some _ => Some (list_feedback db (build_where to_iso now ps) p l)
  | _, _, _ => None
  end.

End Query.

(** ** Dashboard script (the [<script>] of [getDashboardHTML]) *)

Module Dashboard.

(** [if (x) url += ...]: an empty form value adds no query parameter. *)
Definition nonempty (v : string) : option string :=
  if String.eqb v "" then None else Some v.

(** [getDateRangeDisplayText]. *)
Definition date_range_label (value : string) : string :=
  if String.eqb value "24h" then "Last 24 hours"
  else if String.eqb value "7d" then "Last 7 days"
  else if String.eqb value "30d" then "Last 30 days"
  else "All time".

(** The query of [exportCSV]: [/api/feedback?limit=1000] followed by the
    non-empty filters (plain tokens from the filter controls). *)
Definition export_params (sentiment source dateRange category priority : string)
  : Query.Params :=
  {| Query.q_source := nonempty source;
     Query.q_sentiment := nonempty sentiment;
     Query.q_category := nonempty category;
     Query.q_priority := nonempty priority;
     Query.q_dateRange := nonempty dateRange;
     Query.q_page := None;
     Query.q_limit := Some "1000" |}.

(** The query of [filterByPriority]:
    [/api/feedback?priority=4&page=1&limit=10], then the date range. *)
Definition priority_filter_params (dateRange : string) : Query.Params :=
  {| Query.q_source := None;
     Query.q_sentiment := None;
     Query.q_category := None;
     Query.q_priority := Some "4";
     Query.q_dateRange := nonempty dateRange;
     Query.q_page := Some "1";
     Query.q_limit := Some "10" |}.

End Dashboard.

(** ** Intake: [handlePostFeedback] *)

Module Post.

Inductive PostResult : Type :=
| PostBadRequest (error : string)
| PostFailed
| PostCreated (source content : string) (analysis : Gateway.FeedbackAnalysis).

Definition validSources : list string := ["twitter"; "discord"; "github"; "support"].

(** [`source must be one of: ${validSources.join(', ')}`]. *)
Definition source_error : string := "source must be one of: twitter, discord, github, support".

(** [handlePostFeedback] up to the insert. [body] is the outcome of
    [request.json()] ([None] when it rejects); reading a property of a
    [null] body throws. [response] is the model's reply handed to
    [analyzeFeedback]. [PostCreated] carries the values bound to the
    [INSERT]; [PostFailed] is the 500 answer of the [catch]. *)
Definition handlePostFeedback (json_parse : string -> option json) (response : option string)
  (body : option json) : PostResult :=
  match body with
  | None | Some JNull => PostFailed
  | Some b =>
      match get_prop b "content" with
      | Some (JStr c) =>
          if String.eqb c "" then PostBadRequest "content is required"
          else
            match get_prop b "source" with
            | Some (JStr s) =>
                if existsb (String.eqb s) validSources
                then PostCreated s c (Gateway.analyzeFeedback json_parse response)
                else PostBadRequest source_error
            | _ => PostBadRequest source_error
            end
      | _ => PostBadRequest "content is required"
      end
  end.

End Post.

(** ** Aggregate insights: [handleGetInsights] *)

Module Overview.

(** [SELECT k, COUNT( * ) as count FROM feedback GROUP BY k]: one row per
    distinct value with its number of rows (the theorems take the rows in
    any order). *)
Definition group_count (key : Feedback -> string) (db : list Feedback) : JsObj.t Z :=
  fold_left tally_bump (map key db) [].

(** [if (r.sentiment in sentimentCounts) sentimentCounts[r.sentiment] = r.count]. *)
Definition sentiment_counts (grp : list (string * Z)) : JsObj.t Z :=
  fold_left (fun o r => match JsObj.get (fst r) o with
                        | Some _ => JsObj.set (fst r) (snd r) o
                        | None => o
                        end)
    grp [("positive", 0); ("negative", 0); ("neutral", 0)].

(** [categories[r.category] = r.count]. *)
Definition category_counts (grp : list (string * Z)) : JsObj.t Z :=
  fold_left (fun o r => JsObj.set (fst r) (snd r) o) grp [].

(** [ORDER BY priority DESC, created_at DESC]: [x] is placed before [y]
    when [y] does not rank strictly higher; ties keep table order. *)
Definition prio_before (x y : Feedback) : bool :=
  (priority y <? priority x)
  || ((priority y =? priority x) && Query.str_leb (created_at y) (created_at x)).

Fixpoint insert_prio (x : Feedback) (l : list Feedback) : list Feedback :=
  match l with
  | [] => [x]
  | y :: r => if prio_before x y then x :: l else y :: insert_prio x r
  end.

Fixpoint order_prio (l : list Feedback) : list Feedback :=
  match l with
  | [] => []
  | x :: r => insert_prio x (order_prio r)
  end.

(** [SELECT * FROM feedback WHERE priority >= 4 ORDER BY priority DESC,
    created_at DESC LIMIT 5]. *)
Definition high_priority (db : list Feedback) : list Feedback :=
  firstn 5 (order_prio (filter (fun f => 4 <=? priority f) db)).

Record InsightsResponse : Type := {
  total : Z;
  sentiment : JsObj.t Z;
  categories : JsObj.t Z;
  topThemes : list (string * cval);
  highPriority : list Feedback
}.

(** [handleGetInsights]; [sgrp] and [cgrp] are the rows of the two
    [GROUP BY] queries. *)
Definition handleGetInsights (db : list Feedback) (sgrp cgrp : list (string * Z))
  : InsightsResponse :=
  {| total := Z.of_nat (List.length db);
     sentiment := sentiment_counts sgrp;
     categories := category_counts cgrp;
     topThemes := top_themes db;
     highPriority := high_priority db |}.

(** [loadInsights]: [categories.sort((a, b) => b[1] - a[1])[0][0]] over
    [Object.entries(insights.categories)], when there is a category. *)
Definition top_category (cats : JsObj.t Z) : option string :=
  match sort_desc (JsObj.entries cats) with
  | (k, _) :: _ => Some k
  | [] => None
  end.

End Overview.

(** ** Theme groups: [handleGetThemes] *)

Module Themes.

Record Example : Type := {
  ex_id : Z;
  ex_content : string;
  ex_sentiment : string;
  ex_source : string
}.

Record Group : Type := {
  g_count : Z;
  g_feedback : list Example
}.

Record ThemeEntry : Type := {
  te_theme : string;
  te_count : Z;
  te_feedback : list Example
}.

Definition example_of (f : Feedback) : Example :=
  {| ex_id := id f; ex_content := content f; ex_sentiment := sentiment f; ex_source := source f |}.

(** [if (!themeGroups[t]) themeGroups[t] = { count: 0, feedback: [] };
    themeGroups[t].count++; themeGroups[t].feedback.push(...)] for a key
    with an own entry or with none at all. *)
Definition add_example (ex : Example) (o : JsObj.t Group) (t : string) : JsObj.t Group :=
  let g := match JsObj.get t o with
           | Some g => g
           | None => {| g_count := 0; g_feedback := [] |}
           end in
  JsObj.set t {| g_count := g_count g + 1; g_feedback := g_feedback g ++ [ex] |} o.

(** [themes.forEach(...)] of one row, inside the row's [try]. For a member of
    [Object.prototype] without an own entry, [themeGroups[t]] is truthy and no
    entry is created; [.feedback] of the inherited member is [undefined], so
    [push] throws and the [catch] ends the row: its later themes are not
    counted. *)
Fixpoint add_examples (ex : Example) (ts : list string) (o : JsObj.t Group)
  : JsObj.t Group :=
  match ts with
  | [] => o
  | t :: r =>
      match JsObj.get t o with
      | Some _ => add_examples ex r (add_example ex o t)
      | None => if JsObj.inherited t then o else add_examples ex r (add_example ex o t)
      end
  end.

Definition theme_groups (rows : list Feedback) : JsObj.t Group :=
  fold_left (fun o f => add_examples (example_of f) (row_themes f) o) rows [].

(** [.sort((a, b) => b[1].count - a[1].count)], stable. *)
Fixpoint insert_group (x : string * Group) (l : list (string * Group)) : list (string * Group) :=
  match l with
  | [] => [x]
  | y :: r => if g_count (snd y) <=? g_count (snd x) then x :: l else y :: insert_group x r
  end.

Fixpoint sort_groups (l : list (string * Group)) : list (string * Group) :=
  match l with
  | [] => []
  | x :: r => insert_group x (sort_groups r)
  end.

(** [handleGetThemes]: every theme with its count and its first three
    examples. *)
Definition handleGetThemes (rows : list Feedback) : list ThemeEntry :=
  map (fun kv => {| te_theme := fst kv; te_count := g_count (snd kv);
                    te_feedback := firstn 3 (g_feedback (snd kv)) |})
    (sort_groups (JsObj.entries (theme_groups rows))).

End Themes.

(** ** Router: the [fetch] handler *)

Module Router.

Inductive Route : Type :=
| Preflight
| RPostFeedback
| RGetFeedback
| RGetById (id : string)
| RPatchById (id : string)
| RGetInsights
| RGetThemes
| RGetAIInsights
| RSeed
| RDashboard
| RNotFound.

Fixpoint strip_prefix (p s : list ascii) : option (list ascii) :=
  match p, s with
  | [], _ => Some s
  | c :: p', d :: s' => if ascii_eqb c d then strip_prefix p' s' else None
  | _ :: _, [] => None
  end.

(** [s.startsWith(p)]. *)
Definition starts_with (p s : string) : bool :=
  match strip_prefix (list_ascii_of_string p) (list_ascii_of_string s) with
  | Some _ => true
  | None => false
  end.

(** [path.match(/^\/api\/feedback\/(\d+)$/)], the captured group. *)
Definition feedback_id_match (path : string) : option string :=
  match strip_prefix (list_ascii_of_string "/api/feedback/") (list_ascii_of_string path) with
  | Some (c :: r) =>
      if forallb JsObj.is_dec_digit (c :: r) then Some (string_of_list_ascii (c :: r))
      else None
  | _ => None
  end.

(** The handler [fetch] dispatches a request to, from its method and
    [url.pathname], in the order of the tests of the source. *)
Definition route (method path : string) : Route :=
  if String.eqb method "OPTIONS" then Preflight
  else if String.eqb path "/api/feedback" && String.eqb method "POST" then RPostFeedback
  else if String.eqb path "/api/feedback" && String.eqb method "GET" then RGetFeedback
  else
    let rest :=
      if String.eqb path "/api/insights" && String.eqb method "GET" then RGetInsights
      else if String.eqb path "/api/themes" && String.eqb method "GET" then RGetThemes
      else if String.eqb path "/api/ai-insights" && String.eqb method "GET" then RGetAIInsights
      else if String.eqb path "/api/seed" && String.eqb method "POST" then RSeed
      else if String.eqb path "/" || negb (starts_with "/api" path) then RDashboard
      else RNotFound in
    match feedback_id_match path with
    | Some id =>
        if String.eqb method "GET" then RGetById id
        else if String.eqb method "PATCH" then RPatchById id
        else rest
    | None => rest
    end.

End Router.

(** ** Single items: [handleGetFeedbackById] and [handlePatchFeedback] *)

Module Detail.

(** A row of the [feedback] table with the two columns the listing does not
    read ([addressed INTEGER DEFAULT 0], [addressed_at TEXT DEFAULT NULL]). *)
Record StoredRow : Type := {
  row : Feedback;
  addressed : Z;
  addressed_at : option string
}.

(** [WHERE id = ?] bound to [parseInt(id)]; a NaN binding matches no row. *)
Definition id_matches (n : jsnum) (r : StoredRow) : bool :=
  match n with
  | Fin q => Qeq_bool (inject_Z (Store.id (row r))) q
  | _ => false
  end.

Inductive ByIdResult : Type :=
| ByIdOk (r : StoredRow)
| ByIdNotFound
| ByIdFailed.

(** The answer to the row [.first()] returned: none is the 404 answer; the
    response spreads the row with [themes] replaced by [JSON.parse(themes)],
    which throws (the 500 answer) on a column that does not parse. *)
Definition by_id_response (found : option StoredRow) : ByIdResult :=
  match found with
  | None => ByIdNotFound
  | Some r =>
      match themes (row r) with
      | Some _ => ByIdOk r
      | None => ByIdFailed
      end
  end.

(** [SELECT * FROM feedback WHERE id = ?] with [.first()]. *)
Definition handleGetFeedbackById (id : string) (db : list StoredRow) : ByIdResult :=
  by_id_response (find (id_matches (Query.parse_int id)) db).

Inductive PatchResult : Type :=
| PatchOk (r : StoredRow)
| PatchNotFound
| PatchBadRequest
| PatchFailed.

(** [handlePatchFeedback]: the answer and the table afterwards. [body] is
    the outcome of [request.json()] ([None] when it rejects; reading a
    property of [null] throws, the 500 answer [PatchFailed]); [now_iso] is
    [new Date().toISOString()]. *)
Definition handlePatchFeedback (id : string) (body : option json) (now_iso : string)
  (db : list StoredRow) : PatchResult * list StoredRow :=
  match body with
  | None | Some JNull => (PatchFailed, db)
  | Some b =>
      match get_prop b "addressed" with
      | Some (JBool v) =>
          let n := Query.parse_int id in
          let db' :=
            map (fun r => if id_matches n r
                          then {| row := row r;
                                  addressed := if v then 1 else 0;
                                  addressed_at := if v then Some now_iso else None |}
                          else r) db in
          match find (id_matches n) db' with
          | Some r =>
              match themes (row r) with
              | Some _ => (PatchOk r, db')
              | None => (PatchFailed, db')
              end
          | None => (PatchNotFound, db')
          end
      | _ => (PatchBadRequest, db)
      end
  end.

End Detail.

(** ** Dashboard script: pagination, relative times and the CSV export *)

Module Client.

(** One entry of [#page-numbers]: a page button (with the active style or
    not) or the [...] separator. *)
Inductive PageItem : Type :=
| PageButton (i : Z) (active : bool)
| Ellipsis.

Definition maxVisiblePages : Z := 5.

(** [for (let i = s; i <= e; i++)]. *)
Definition z_range (s e : Z) : list Z :=
  map (fun k => s + Z.of_nat k) (seq 0 (Z.to_nat (e - s + 1))).

(** [startPage] and [endPage] of [renderPagination]. *)
Definition page_window (page tp : Z) : Z * Z :=
  let startPage := Z.max 1 (page - maxVisiblePages / 2) in
  let endPage := Z.min tp (startPage + maxVisiblePages - 1) in
  if endPage - startPage <? maxVisiblePages - 1
  then (Z.max 1 (endPage - maxVisiblePages + 1), endPage)
  else (startPage, endPage).

(** The content of [#page-numbers]; the first and last page buttons never
    carry the active style. *)
Definition page_items (page tp : Z) : list PageItem :=
  let '(s, e) := page_window page tp in
  ((if 1 <? s then PageButton 1 false :: (if 2 <? s then [Ellipsis] else []) else [])
   ++ map (fun i => PageButton i (i =? page)) (z_range s e)
   ++ (if e <? tp
       then (if e <? tp - 1 then [Ellipsis] else []) ++ [PageButton tp false]
       else []))%list.

Record RenderedPager : Type := {
  info_start : Z;
  info_end : Z;
  info_total : Z;
  prev_disabled : bool;
  next_disabled : bool;
  items : list PageItem
}.

(** [renderPagination(pagination)]; [None] hides the container. *)
Definition renderPagination (pg : Query.Pagination) : option RenderedPager :=
  if Query.total pg =? 0 then None
  else Some {| info_start := (Query.page pg - 1) * Query.limit pg + 1;
               info_end := Z.min (Query.page pg * Query.limit pg) (Query.total pg);
               info_total := Query.total pg;
               prev_disabled := negb (Query.hasPrev pg);
               next_disabled := negb (Query.hasNext pg);
               items := page_items (Query.page pg) (Query.totalPages pg) |}.

(** [getRelativeTime] for a valid date [diffMs] milliseconds before now;
    [locale_date] is [date.toLocaleDateString()]. *)
Definition getRelativeTime (locale_date : string) (diffMs : Z) : string :=
  let diffSecs := diffMs / 1000 in
  let diffMins := diffSecs / 60 in
  let diffHours := diffMins / 60 in
  let diffDays := diffHours / 24 in
  let diffWeeks := diffDays / 7 in
  let diffMonths := diffDays / 30 in
  if diffSecs <? 60 then "Just now"
  else if diffMins <? 60 then
    z_to_string diffMins ++ " minute" ++ (if diffMins =? 1 then "" else "s") ++ " ago"
  else if diffHours <? 24 then
    z_to_string diffHours ++ " hour" ++ (if diffHours =? 1 then "" else "s") ++ " ago"
  else if diffDays =? 1 then "Yesterday"
  else if diffDays <? 7 then z_to_string diffDays ++ " days ago"
  else if diffWeeks =? 1 then "1 week ago"
  else if diffWeeks <? 4 then z_to_string diffWeeks ++ " weeks ago"
  else if diffMonths =? 1 then "1 month ago"
  else if diffMonths <? 12 then z_to_string diffMonths ++ " months ago"
  else locale_date.

(** The double quote character. *)
Definition dq : ascii := ascii_of_nat 34.

(** [.replace] with the global pattern of one double quote and the
    replacement of two: every double quote doubled. *)
Fixpoint escape_quotes (cs : list ascii) : list ascii :=
  match cs with
  | [] => []
  | c :: r => if ascii_eqb c dq then dq :: dq :: escape_quotes r else c :: escape_quotes r
  end.

(** The [Content] cell of an exported row: the content between double
    quotes, its own double quotes doubled. *)
Definition csv_content (content : string) : string :=
  string_of_list_ascii (dq :: escape_quotes (list_ascii_of_string content) ++ [dq]).

(** [toggleAddressed]: the request it sends for the item of the modal,
    [PATCH /api/feedback/${id}] with the body [{ addressed: !addressed }]
    as the server's [request.json()] reads it. *)
Definition toggle_request (f : Detail.StoredRow) : string * string * json :=
  ("PATCH", "/api/feedback/" ++ z_to_string (Store.id (Detail.row f)),
   JObj [("addressed", JBool (Detail.addressed f =? 0))]).

End Client.

(** * Notions of the specification *)

(** The sentiment trend in the words of the specification, with exact
    rational ratios: [positiveRatio = (countPositive - countNegative) /
    size], [diff > 0.1] gives [improving], [diff < -0.1] gives [declining]. *)
Definition spec_ratio (items : list Feedback) : Q :=
  match items with
  | [] => 0%Q
  | _ => (inject_Z (Insights.count_sentiment "positive" items
                    - Insights.count_sentiment "negative" items)
          / inject_Z (Z.of_nat (List.length items)))%Q
  end.

Definition spec_trend (feedback : list Feedback) : string :=
  let k := Insights.split_point (List.length feedback) in
  let diff := (spec_ratio (firstn k feedback) - spec_ratio (skipn k feedback))%Q in
  if Qlt_bool (1 # 10) diff then "improving"
  else if Qlt_bool diff (- (1 # 10)) then "declining"
  else "stable".

(** Twenty rows, newest first: four positive and six neutral, then three
    positive and seven neutral. *)
Definition trend_rows : list Feedback :=
  map (fun i => {| id := 21 - i; source := "github"; content := "example";
                   sentiment := if (i <=? 4) || ((11 <=? i) && (i <=? 13))
                                then "positive" else "neutral";
                   category := "feature"; priority := 2; themes := Some (JArr []);
                   created_at := "2024-01-01 00:00:00" |})
    (map Z.of_nat (seq 1 20)).

(** A text containing a brace-delimited span: a [{] followed, later in the
    text, by a [}]. *)
Definition has_brace_span (text : string) : Prop :=
  exists pre mid post,
    list_ascii_of_string text = (pre ++ ["{"%char] ++ mid ++ ["}"%char] ++ post)%list.

(** How many times a theme occurs in a list of normalized themes. *)
Definition mentions (t : string) (l : list string) : Z :=
  Z.of_nat (List.length (filter (String.eqb t) l)).

(** Every normalized theme of every record, in scan order. *)
Definition all_mentions (rows : list Feedback) : list string := flat_map row_themes rows.

(** The occurrences [(theme, priority)] of the themes of the negative
    records, in scan order. *)
Definition neg_occurrences (feedback : list Feedback) : list (string * Z) :=
  flat_map (fun f => if String.eqb (sentiment f) "negative"
                     then map (fun t => (t, priority f)) (row_themes f) else [])
    feedback.

(** Entry [a] comes no later than [b] in a list sorted by count descending. *)
Definition count_ge (a b : string * Z) : Prop := snd b <= snd a.

Definition sum_counts (o : list (string * Z)) : Z := fold_right (fun kv acc => snd kv + acc) 0 o.

(** A stored row with the given sentiment, priority and themes, for the
    concrete scenarios below. *)
Definition example_row (i : Z) (s : string) (p : Z) (ts : list string) : Feedback :=
  {| id := i; source := "github"; content := "example"; sentiment := s; category := "bug";
     priority := p; themes := Some (JArr (map JStr ts)); created_at := "2024-01-01 00:00:00" |}.

(** Forty rows: twenty-three with the theme [a], then seventeen with [b]. *)
Definition dist_rows : list Feedback :=
  map (fun i => example_row i "neutral" 3 [if i <=? 23 then "a" else "b"])
    (map Z.of_nat (seq 1 40)).

(** What the selection of [trendingTopic] has established after scanning
    the entries [P] (numeric counts): nothing yet, or a scanned theme whose
    count is [maxRecentCount] and bounds every scanned count. *)
Definition trend_inv (st : option Insights.TrendingTopic * cval) (P : list (string * Z)) : Prop :=
  match fst st with
  | None => P = [] /\ snd st = CNum 0
  | Some x =>
      exists n, Insights.t_count x = CNum n
      /\ In (Insights.t_theme x, n) P
      /\ snd st = CNum n
      /\ Insights.recentMentions x = CNum n
      /\ forall k c, In (k, c) P -> c <= n
  end.

(** A numeric count as a stored count. *)
Definition tag (kv : string * Z) : string * cval := (fst kv, CNum (snd kv)).

(** No theme of the rows names a member of [Object.prototype]. *)
Definition proto_free (rows : list Feedback) : bool :=
  forallb (fun t => negb (JsObj.inherited t)) (all_mentions rows).

(** A row is listed no later than another by [ORDER BY created_at DESC]. *)
Definition newer_eq (a b : Feedback) : Prop :=
  Query.str_leb (created_at b) (created_at a) = true.

(** A row of the insights ranks no lower than another under
    [ORDER BY priority DESC, created_at DESC]. *)
Definition ranks_ge (a b : Feedback) : Prop :=
  priority b < priority a
  \/ (priority b = priority a /\ Query.str_leb (created_at b) (created_at a) = true).

(** The examples a theme collects: one per occurrence of the theme, in scan
    order. *)
Definition occ_examples (t : string) (rows : list Feedback) : list Themes.Example :=
  flat_map (fun f => map (fun _ => Themes.example_of f) (filter (String.eqb t) (row_themes f))) rows.

(** Three stored rows, two of them bugs, for the concrete scenarios below. *)
Definition category_rows : list Feedback :=
  [{| id := 1; source := "github"; content := "x"; sentiment := "neutral"; category := "bug";
      priority := 3; themes := None; created_at := "2024-01-01" |};
   {| id := 2; source := "github"; content := "y"; sentiment := "neutral"; category := "feature";
      priority := 3; themes := None; created_at := "2024-01-02" |};
   {| id := 3; source := "github"; content := "z"; sentiment := "neutral"; category := "bug";
      priority := 3; themes := None; created_at := "2024-01-03" |}].

(** The schema's intent for the two review columns: a row is marked
    addressed exactly when it carries the time it was marked. *)
Definition addressed_consistent (r : Detail.StoredRow) : Prop :=
  (Detail.addressed r = 1 /\ Detail.addressed_at r <> None)
  \/ (Detail.addressed r = 0 /\ Detail.addressed_at r = None).

(** [category_rows] stored with the themes column [[]], not yet addressed. *)
Definition detail_rows : list Detail.StoredRow :=
  map (fun f => {| Detail.row := {| id := id f; source := source f; content := content f;
                                    sentiment := sentiment f; category := category f;
                                    priority := priority f; themes := Some (JArr []);
                                    created_at := created_at f |};
                   Detail.addressed := 0; Detail.addressed_at := None |})
    category_rows.

(** The second row of [detail_rows]. *)
Definition row_two : Detail.StoredRow :=
  {| Detail.row := {| id := 2; source := "github"; content := "y"; sentiment := "neutral";
                      category := "feature"; priority := 3; themes := Some (JArr []);
                      created_at := "2024-01-02" |};
     Detail.addressed := 0; Detail.addressed_at := None |}.

(** A page entry shown with the active style. *)
Definition item_active (it : Client.PageItem) : bool :=
  match it with Client.PageButton _ a => a | Client.Ellipsis => false end.

(** The entries of a page bar, read left to right after page [prev]: each
    button is the next page, and a [...] stands for at least one hidden page
    before the button that follows it. *)
Fixpoint marked_from (prev : Z) (l : list Client.PageItem) : bool :=
  match l with
  | [] => true
  | Client.PageButton b _ :: r => (b =? prev + 1) && marked_from b r
  | Client.Ellipsis :: Client.PageButton b _ :: r => (prev + 1 <? b) && marked_from b r
  | Client.Ellipsis :: _ => false
  end.

(** A CSV reader (RFC 4180) on the text after the opening double quote of
    a quoted field: the field's value and the text after its closing
    quote; a doubled quote stands for one. *)
Fixpoint read_quoted (cs : list ascii) : option (list ascii * list ascii) :=
  match cs with
  | [] => None
  | c :: r =>
      if ascii_eqb c Client.dq then
        match r with
        | c2 :: r2 =>
            if ascii_eqb c2 Client.dq
            then option_map (fun vr => (Client.dq :: fst vr, snd vr)) (read_quoted r2)
            else Some ([], r)
        | [] => Some ([], [])
        end
      else option_map (fun vr => (c :: fst vr, snd vr)) (read_quoted r)
  end.

Definition read_field (cs : list ascii) : option (list ascii * list ascii) :=
  match cs with
  | c :: r => if ascii_eqb c Client.dq then read_quoted r else None
  | [] => None
  end.

(** A theme group as its name and count. *)
Definition group_proj (kv : string * Themes.Group) : string * Z :=
  (fst kv, Themes.g_count (snd kv)).

(** The examples collected for theme [t]. *)
Definition group_examples (o : JsObj.t Themes.Group) (t : string) : list Themes.Example :=
  match JsObj.get t o with Some g => Themes.g_feedback g | None => [] end.

(** The value the last row with key [k] assigns, [d] when there is none. *)
Definition last_value (k : string) (grp : list (string * Z)) (d : Z) : Z :=
  fold_left (fun acc r => if String.eqb (fst r) k then snd r else acc) grp d.

(** * Properties *)

(** ** Strings: [trim] and [to_lower] *)

Lemma drop_ws_suffix (l : list ascii) : exists p, l = (p ++ drop_ws l)%list.
Proof.
  induction l as [|c r IH]; simpl.
  - exists []; reflexivity.
  - destruct (is_js_ws c).
    + destruct IH as [p Hp]. exists (c :: p). simpl. rewrite <- Hp. reflexivity.
    + exists []. reflexivity.
Qed.

Lemma drop_ws_in (l : list ascii) (x : ascii) : In x (drop_ws l) -> In x l.
Proof.
  destruct (drop_ws_suffix l) as [p Hp]. intro H. rewrite Hp. apply in_or_app. right; exact H.
Qed.

Lemma drop_ws_idem (l : list ascii) : drop_ws (drop_ws l) = drop_ws l.
Proof.
  induction l as [|c r IH]; simpl; [reflexivity|].
  destruct (is_js_ws c) eqn:E; [exact IH|]. simpl. rewrite E. reflexivity.
Qed.

Lemma drop_ws_snoc (x : list ascii) (c : ascii) :
  is_js_ws c = false -> exists y, drop_ws (x ++ [c])%list = (y ++ [c])%list.
Proof.
  intro Hc. induction x as [|a r IH]; simpl.
  - rewrite Hc. exists []. reflexivity.
  - destruct (is_js_ws a).
    + exact IH.
    + exists (a :: r). reflexivity.
Qed.

(** The reversed right-trim of a left-trimmed list is left-trimmed. *)
Lemma drop_ws_rev_trimmed (l : list ascii) :
  drop_ws l = l -> drop_ws (rev (drop_ws (rev l))) = rev (drop_ws (rev l)).
Proof.
  destruct l as [|c r]; [reflexivity|].
  simpl. destruct (is_js_ws c) eqn:Ec.
  - intro H. exfalso.
    assert (Hlen : List.length (drop_ws r) = List.length (c :: r)) by (rewrite H; reflexivity).
    destruct (drop_ws_suffix r) as [p Hp].
    assert (List.length r = (List.length p + List.length (drop_ws r))%nat)
      by (rewrite Hp at 1; apply length_app).
    simpl in Hlen. lia.
  - intros _. destruct (drop_ws_snoc (rev r) c Ec) as [y Hy]. rewrite Hy.
    rewrite rev_app_distr. simpl. rewrite Ec. reflexivity.
Qed.

Lemma trim_idem (s : string) : trim (trim s) = trim s.
Proof.
  unfold trim. rewrite list_ascii_of_string_of_list_ascii.
  set (M := drop_ws (list_ascii_of_string s)).
  assert (HM : drop_ws M = M) by apply drop_ws_idem.
  set (N := drop_ws (rev M)).
  assert (HN : drop_ws N = N) by apply drop_ws_idem.
  pose proof (drop_ws_rev_trimmed M HM) as HR. fold N in HR.
  rewrite HR, rev_involutive, HN. reflexivity.
Qed.

Lemma char_to_lower_idem (c : ascii) : char_to_lower (char_to_lower c) = char_to_lower c.
Proof. destruct c as [[] [] [] [] [] [] [] []]; reflexivity. Qed.

Lemma trim_in (s : string) (x : ascii) :
  In x (list_ascii_of_string (trim s)) -> In x (list_ascii_of_string s).
Proof.
  unfold trim. rewrite list_ascii_of_string_of_list_ascii.
  intro H. apply in_rev in H. apply drop_ws_in in H. apply in_rev in H.
  apply drop_ws_in in H. exact H.
Qed.

Lemma to_lower_fix (s : string) :
  (forall x, In x (list_ascii_of_string s) -> char_to_lower x = x) -> to_lower s = s.
Proof.
  intro H. unfold to_lower. rewrite (map_ext_in _ (fun x => x) _ H), map_id.
  apply string_of_list_ascii_of_string.
Qed.

Lemma in_to_lower (s : string) (x : ascii) :
  In x (list_ascii_of_string (to_lower s)) -> char_to_lower x = x.
Proof.
  unfold to_lower. rewrite list_ascii_of_string_of_list_ascii.
  intro H. apply in_map_iff in H. destruct H as [y [<- _]]. apply char_to_lower_idem.
Qed.

(** A normalized theme is trimmed and lowercase. *)
Lemma normalized_theme (s : string) :
  trim (trim (to_lower s)) = trim (to_lower s) /\
  to_lower (trim (to_lower s)) = trim (to_lower s).
Proof.
  split; [apply trim_idem|].
  apply to_lower_fix. intros x Hx. apply trim_in in Hx. exact (in_to_lower _ _ Hx).
Qed.

(** ** Gateway *)

Lemma map_opt_length {A B : Type} (f : A -> option B) (l : list A) (l' : list B) :
  map_opt f l = Some l' -> List.length l' = List.length l.
Proof.
  revert l'. induction l as [|x r IH]; intros l' H; simpl in H.
  - inversion H; reflexivity.
  - destruct (f x), (map_opt f r) eqn:E; inversion H; subst. simpl. f_equal. apply IH; reflexivity.
Qed.

Lemma map_opt_forall {A B : Type} (f : A -> option B) (P : B -> Prop) (l : list A) (l' : list B) :
  (forall x y, f x = Some y -> P y) -> map_opt f l = Some l' -> Forall P l'.
Proof.
  intro HP. revert l'. induction l as [|x r IH]; intros l' H; simpl in H.
  - inversion H; constructor.
  - destruct (f x) eqn:Ef, (map_opt f r) eqn:E; inversion H; subst.
    constructor; [exact (HP _ _ Ef)| apply IH; reflexivity].
Qed.

Lemma sanitize_themes_spec (v : option json) (ts : list string) :
  Gateway.sanitize_themes v = Some ts ->
  (List.length ts <= 5)%nat /\ Forall (fun t => trim t = t /\ to_lower t = t) ts.
Proof.
  unfold Gateway.sanitize_themes. intro H.
  destruct v as [[| | | |xs|]|]; try (inversion H; subst; split; [simpl; lia|constructor]).
  split.
  - rewrite (map_opt_length _ _ _ H), length_firstn. lia.
  - refine (map_opt_forall _ _ _ _ _ H). intros x y Hxy.
    destruct (js_String x); inversion Hxy; subst. apply normalized_theme.
Qed.

Lemma upto_last_close_shape (r p : list ascii) :
  Gateway.upto_last_close r = Some p ->
  exists mid post, p = (mid ++ ["}"%char])%list /\ r = (p ++ post)%list.
Proof.
  revert p. induction r as [|c r IH]; intros p H; simpl in H; [discriminate|].
  destruct (Gateway.upto_last_close r) as [p'|] eqn:E.
  - inversion H; subst. destruct (IH p' eq_refl) as [mid [post [-> ->]]].
    exists (c :: mid), post. split; reflexivity.
  - destruct (ascii_eqb c "}"%char) eqn:Ec; inversion H; subst.
    apply Ascii.eqb_eq in Ec. subst. exists [], r. split; reflexivity.
Qed.

Lemma json_match_l_span (cs m : list ascii) :
  Gateway.json_match_l cs = Some m ->
  exists pre mid post, cs = (pre ++ ["{"%char] ++ mid ++ ["}"%char] ++ post)%list.
Proof.
  revert m. induction cs as [|c r IH]; intros m H; simpl in H; [discriminate|].
  destruct (ascii_eqb c "{"%char) eqn:Ec.
  - destruct (Gateway.upto_last_close r) as [p|] eqn:Eu.
    + apply Ascii.eqb_eq in Ec. subst.
      destruct (upto_last_close_shape r p Eu) as [mid [post [Hp Hr]]].
      exists [], mid, post. simpl. rewrite Hr, Hp, <- app_assoc. reflexivity.
    + destruct (IH m H) as [pre [mid [post Hr]]]. exists (c :: pre), mid, post.
      rewrite Hr. reflexivity.
  - destruct (IH m H) as [pre [mid [post Hr]]]. exists (c :: pre), mid, post.
    rewrite Hr. reflexivity.
Qed.

Lemma json_match_none (text : string) :
  ~ has_brace_span text -> Gateway.json_match text = None.
Proof.
  intro H. unfold Gateway.json_match.
  destruct (Gateway.json_match_l (list_ascii_of_string text)) as [m|] eqn:E; [|reflexivity].
  exfalso. apply H. exact (json_match_l_span _ _ E).
Qed.

(** C5: when the model call fails, when its reply holds no [{...}] span, or
    when [JSON.parse] of the span fails, [analyzeFeedback] raises nothing and
    returns exactly [{sentiment: neutral, category: complaint, priority: 3,
    themes: []}]. *)
Theorem analyzeFeedback_fallback (json_parse : string -> option json) (response : option string)
  (Hfail : response = None
           \/ (exists text, response = Some text /\ ~ has_brace_span text)
           \/ (exists text m, response = Some text /\ Gateway.json_match text = Some m
                              /\ json_parse m = None)) :
  Gateway.analyzeFeedback json_parse response
  = {| Gateway.sentiment := "neutral"; Gateway.category := "complaint";
       Gateway.priority := Fin 3; Gateway.themes := [] |}.
Proof.
  destruct Hfail as [-> | [[text [-> Hno]] | [text [m [-> [Hm Hp]]]]]].
  - reflexivity.
  - simpl. rewrite (json_match_none text Hno). reflexivity.
  - simpl. rewrite Hm, Hp. reflexivity.
Qed.

Lemma analyzeFeedback_fallback_witness :
  Gateway.json_match "Sure: {bad json}" = Some "{bad json}"
  /\ Gateway.analyzeFeedback (fun _ => None) (Some "Sure: {bad json}")
     = {| Gateway.sentiment := "neutral"; Gateway.category := "complaint";
          Gateway.priority := Fin 3; Gateway.themes := [] |}.
Proof.
  split; [reflexivity|].
  apply analyzeFeedback_fallback. right; right.
  exists "Sure: {bad json}", "{bad json}". split; [reflexivity|]. split; reflexivity.
Defined.

(** C6 (the defect): a parsed priority of [0] is numeric, rounding and
    clamping it into [1,5] gives [1], but [Math.round(0) || 3] treats the
    rounded zero as missing and the sanitized priority is [3]. *)
Theorem sanitize_priority_zero :
  option_map Gateway.priority (Gateway.sanitize (JObj [("priority", JNum (Fin 0) "0")]))
  = Some (Fin 3)
  /\ js_min (Fin 5) (js_max (Fin 1) (js_round (Fin 0))) = Fin 1.
Proof. split; reflexivity. Qed.

(** C9, as the code has it: every analysis returned by [analyzeFeedback] has
    at most 5 themes, each of them trimmed and lowercase (possibly empty). *)
Theorem analyzeFeedback_themes (json_parse : string -> option json) (response : option string) :
  let a := Gateway.analyzeFeedback json_parse response in
  (List.length (Gateway.themes a) <= 5)%nat
  /\ Forall (fun t => trim t = t /\ to_lower t = t) (Gateway.themes a).
Proof.
  cbv zeta. unfold Gateway.analyzeFeedback.
  assert (Hd : (List.length (Gateway.themes Gateway.default_analysis) <= 5)%nat
               /\ Forall (fun t => trim t = t /\ to_lower t = t)
                    (Gateway.themes Gateway.default_analysis))
    by (split; [simpl; lia|constructor]).
  destruct response as [text|]; [|exact Hd].
  destruct (Gateway.json_match text) as [m|]; [|exact Hd].
  destruct (json_parse m) as [analysis|]; [|exact Hd].
  destruct (Gateway.sanitize analysis) as [a|] eqn:E; [|exact Hd].
  unfold Gateway.sanitize in E.
  destruct (to_number (get_prop analysis "priority")); [|discriminate].
  destruct (Gateway.sanitize_themes (get_prop analysis "themes")) as [ts|] eqn:Et; [|discriminate].
  inversion E; subst. simpl. exact (sanitize_themes_spec _ _ Et).
Qed.

(** C9, the claim as stated fails: a blank theme in the reply is kept as the
    empty string. *)
Lemma analyzeFeedback_blank_theme :
  option_map Gateway.themes (Gateway.sanitize (JObj [("themes", JArr [JStr "  "])])) = Some [""].
Proof. reflexivity. Qed.

(** ** Sentiment trend *)

Lemma Qlt_bool_iff (x y : Q) : Qlt_bool x y = true <-> (x < y)%Q.
Proof.
  unfold Qlt_bool. rewrite negb_true_iff. split.
  - intro H. apply Qnot_le_lt. intro Hle. apply Qle_bool_iff in Hle. congruence.
  - intro H. destruct (Qle_bool y x) eqn:E; [|reflexivity].
    apply Qle_bool_iff in E. exfalso. apply (Qlt_not_le _ _ H E).
Qed.

Lemma split_point_spec (n : nat) :
  (1 <= n)%nat -> Insights.split_point n = if (n =? 1)%nat then 1%nat else Nat.div n 2.
Proof.
  intro Hn. unfold Insights.split_point.
  destruct (Nat.eqb_spec n 1) as [->|Hne]; [reflexivity|].
  assert (Hpos : (0 < Nat.div n 2)%nat) by (apply Nat.div_str_pos; lia).
  destruct (Nat.div n 2); [lia|reflexivity].
Qed.

Lemma handleGetAIInsights_nonempty (feedback : list Feedback) :
  feedback <> [] ->
  Insights.handleGetAIInsights feedback
  = {| Insights.mostUrgentIssue := Insights.most_urgent_issue feedback;
       Insights.trendingTopic := Insights.trending_topic feedback;
       Insights.sentimentTrend := Insights.sentiment_trend feedback;
       Insights.themeDistribution := Insights.theme_distribution feedback |}.
Proof. destruct feedback; [contradiction|reflexivity]. Qed.

(** A number below [-0.1] is not above [0.1]. *)
Lemma below_neg_lit01 (x : double) :
  SFltb x (SFopp d_lit01) = true -> SFltb d_lit01 x = false.
Proof.
  replace d_lit01 with (S754_finite false 7205759403792794 (-56))
    by (vm_compute; reflexivity).
  destruct x as [[]|[]| |[] m e]; unfold SFltb, SFcompare, SFopp; try reflexivity; try discriminate.
Qed.

(** Claim C1. For a non-empty record set (newest first), split after [k]
    records ([k] is half the size, rounded down, or 1 for a single record),
    with [ratio] the number of positive minus negative records over the size
    (0 for an empty half), computed in IEEE doubles as JavaScript does: the
    trend is [improving] when the difference of the ratios exceeds the double
    [0.1], [declining] when it is below [-0.1], [stable] otherwise, and
    [recentPositive], [recentNegative] count the first half only. Four
    records [positive, positive, negative, negative] give [improving]. *)
Theorem sentiment_trend_halves (feedback : list Feedback) (Hne : feedback <> []) :
  let n := List.length feedback in
  let k := if (n =? 1)%nat then 1%nat else Nat.div n 2 in
  let ratio (items : list Feedback) : double :=
    match items with
    | [] => d_of_Z 0
    | _ => d_div (d_of_Z (Insights.count_sentiment "positive" items
                          - Insights.count_sentiment "negative" items))
                 (d_of_Z (Z.of_nat (List.length items)))
    end in
  let diff := d_sub (ratio (firstn k feedback)) (ratio (skipn k feedback)) in
  let st := Insights.sentimentTrend (Insights.handleGetAIInsights feedback) in
  (Insights.trend st = "improving" <-> SFltb d_lit01 diff = true)
  /\ (Insights.trend st = "declining" <-> SFltb diff (SFopp d_lit01) = true)
  /\ (Insights.trend st = "stable"
      <-> SFltb d_lit01 diff = false /\ SFltb diff (SFopp d_lit01) = false)
  /\ Insights.recentPositive st = Some (Insights.count_sentiment "positive" (firstn k feedback))
  /\ Insights.recentNegative st = Some (Insights.count_sentiment "negative" (firstn k feedback))
  /\ (forall a b c d : Feedback,
        sentiment a = "positive" -> sentiment b = "positive" ->
        sentiment c = "negative" -> sentiment d = "negative" ->
        Insights.trend (Insights.sentimentTrend (Insights.handleGetAIInsights [a; b; c; d]))
        = "improving").
Proof.
  intros n k ratio diff st.
  assert (Hratio : forall items, ratio items = Insights.calc_positive_ratio items)
    by (intros [|]; reflexivity).
  assert (Hn : (1 <= n)%nat) by (unfold n; destruct feedback; [contradiction|simpl; lia]).
  assert (Hk : Insights.split_point n = k) by (apply split_point_spec; exact Hn).
  assert (Hst : st = Insights.sentiment_trend feedback)
    by (unfold st; rewrite (handleGetAIInsights_nonempty _ Hne); reflexivity).
  set (d := d_sub (Insights.calc_positive_ratio (firstn k feedback))
                  (Insights.calc_positive_ratio (skipn k feedback))).
  assert (Hdiff : diff = d) by (unfold diff, d; rewrite !Hratio; reflexivity).
  rewrite Hdiff, Hst. unfold Insights.sentiment_trend. fold n. rewrite Hk. cbv zeta. fold d.
  pose proof (below_neg_lit01 d) as Hx.
  destruct (SFltb d_lit01 d) eqn:E1, (SFltb d (SFopp d_lit01)) eqn:E2;
    cbn [Insights.trend Insights.recentPositive Insights.recentNegative];
    try (specialize (Hx eq_refl); discriminate Hx).
  all: refine (conj _ (conj _ (conj _ (conj eq_refl (conj eq_refl _))))).
  all: try (split; intro H; solve [reflexivity | discriminate H | tauto]).
  all: try (split; [intro H; solve [discriminate H | tauto]
                   |intros [H1 H2]; solve [reflexivity | discriminate H1 | discriminate H2]]).
  all: intros a b c e Ha Hb Hc He;
    destruct a, b, c, e; cbn [sentiment] in *; subst; vm_compute; reflexivity.
Qed.

Lemma sentiment_trend_halves_witness :
  Insights.trend (Insights.sentimentTrend (Insights.handleGetAIInsights
    [{| id := 1; source := "github"; content := "how do I export?"; sentiment := "neutral";
        category := "feature"; priority := 1; themes := Some (JArr []);
        created_at := "2024-01-02 00:00:00" |}]))
  = "stable".
Proof.
  pose proof (sentiment_trend_halves
    [{| id := 1; source := "github"; content := "how do I export?"; sentiment := "neutral";
        category := "feature"; priority := 1; themes := Some (JArr []);
        created_at := "2024-01-02 00:00:00" |}] ltac:(intro Hx; discriminate Hx)) as H.
  cbv zeta in H. destruct H as [_ [_ [Hs _]]]. apply Hs. split; vm_compute; reflexivity.
Defined.

(** Claim C1, the threshold at exactly [0.1]. Twenty records, the ten most
    recent with four positive ones, the ten older with three: the ratios are
    exactly 0.4 and 0.3, whose difference is not above 0.1, yet in doubles
    [0.4 - 0.3] is [0.10000000000000003] and the trend is [improving]. *)
Theorem sentiment_trend_rounding :
  spec_trend trend_rows = "stable"
  /\ Insights.trend (Insights.sentimentTrend (Insights.handleGetAIInsights trend_rows))
     = "improving".
Proof. split; vm_compute; reflexivity. Qed.

(** ** JavaScript objects *)

Section ObjFacts.

Context {A : Type}.

Lemma get_set (t k : string) (v : A) (o : JsObj.t A) :
  JsObj.get t (JsObj.set k v o) = if String.eqb t k then Some v else JsObj.get t o.
Proof.
  induction o as [|[k' v'] r IH]; simpl.
  - reflexivity.
  - destruct (String.eqb_spec k k') as [->|Hne]; simpl.
    + destruct (String.eqb t k'); reflexivity.
    + rewrite IH. destruct (String.eqb_spec t k') as [->|Ht]; [|reflexivity].
      destruct (String.eqb_spec k' k) as [->|]; [contradiction|reflexivity].
Qed.

Lemma get_In (t : string) (v : A) (o : JsObj.t A) : JsObj.get t o = Some v -> In (t, v) o.
Proof.
  induction o as [|[k' v'] r IH]; simpl; [discriminate|].
  destruct (String.eqb_spec t k') as [->|_]; intro H.
  - inversion H; subst. left; reflexivity.
  - right; exact (IH H).
Qed.

Lemma In_get (t : string) (v : A) (o : JsObj.t A) :
  NoDup (map fst o) -> In (t, v) o -> JsObj.get t o = Some v.
Proof.
  induction o as [|[k' v'] r IH]; simpl; [contradiction|].
  intros Hnd [H|H]; inversion Hnd as [|? ? Hnot Hnd']; subst.
  - inversion H; subst. rewrite String.eqb_refl. reflexivity.
  - destruct (String.eqb_spec t k') as [->|_].
    + exfalso. apply Hnot. apply (in_map fst) in H. exact H.
    + exact (IH Hnd' H).
Qed.

Lemma In_keys_set (x k : string) (v : A) (o : JsObj.t A) :
  In x (map fst (JsObj.set k v o)) -> In x (map fst o) \/ x = k.
Proof.
  induction o as [|[k' v'] r IH]; simpl.
  - intros [H|[]]. right; symmetry; exact H.
  - destruct (String.eqb k k'); simpl; intros [H|H]; auto.
    destruct (IH H); auto.
Qed.

Lemma set_nodup (k : string) (v : A) (o : JsObj.t A) :
  NoDup (map fst o) -> NoDup (map fst (JsObj.set k v o)).
Proof.
  induction o as [|[k' v'] r IH]; simpl; intro Hnd.
  - constructor; [intros []|constructor].
  - inversion Hnd as [|? ? Hnot Hnd']; subst.
    destruct (String.eqb_spec k k') as [->|Hne]; simpl.
    + constructor; assumption.
    + constructor; [|exact (IH Hnd')].
      intro Hin. destruct (In_keys_set _ _ _ _ Hin) as [H|H]; [exact (Hnot H)|].
      apply Hne; symmetry; exact H.
Qed.

Lemma insert_index_perm (x : string * A) (l : JsObj.t A) :
  Permutation (JsObj.insert_index x l) (x :: l).
Proof.
  induction l as [|y r IH]; simpl; [reflexivity|].
  destruct (_ <? _); [reflexivity|].
  etransitivity; [apply perm_skip; exact IH|]. apply perm_swap.
Qed.

Lemma sort_index_perm (l : JsObj.t A) : Permutation (JsObj.sort_index l) l.
Proof.
  induction l as [|x r IH]; simpl; [reflexivity|].
  etransitivity; [apply insert_index_perm|]. apply perm_skip; exact IH.
Qed.

Lemma filter_partition_perm {B : Type} (f : B -> bool) (l : list B) :
  Permutation (filter f l ++ filter (fun x => negb (f x)) l)%list l.
Proof.
  induction l as [|x r IH]; simpl; [reflexivity|].
  destruct (f x); simpl.
  - apply perm_skip; exact IH.
  - symmetry. apply Permutation_cons_app. symmetry. exact IH.
Qed.

(** [Object.entries] lists the own properties, reordered. *)
Lemma entries_perm (o : JsObj.t A) : Permutation (JsObj.entries o) o.
Proof.
  unfold JsObj.entries.
  etransitivity; [|apply (filter_partition_perm (fun kv => JsObj.is_array_index (fst kv)))].
  apply Permutation_app_tail. apply sort_index_perm.
Qed.

Lemma In_entries (t : string) (v : A) (o : JsObj.t A) :
  NoDup (map fst o) -> In (t, v) (JsObj.entries o) <-> JsObj.get t o = Some v.
Proof.
  intro Hnd. split.
  - intro H. apply In_get; [exact Hnd|]. exact (Permutation_in _ (entries_perm o) H).
  - intro H. apply (Permutation_in _ (Permutation_sym (entries_perm o))). exact (get_In _ _ _ H).
Qed.

End ObjFacts.

Section EntriesMap.

Context {A B : Type} (f : A -> B).

Let g (kv : string * A) : string * B := (fst kv, f (snd kv)).

Lemma map_set_comm (k : string) (v : A) (o : JsObj.t A) :
  map g (JsObj.set k v o) = JsObj.set k (f v) (map g o).
Proof.
  induction o as [|[k' v'] r IH]; simpl; [reflexivity|].
  destruct (String.eqb k k'); simpl; [reflexivity|]. rewrite IH. reflexivity.
Qed.

Lemma get_map_comm (k : string) (o : JsObj.t A) :
  JsObj.get k (map g o) = option_map f (JsObj.get k o).
Proof.
  induction o as [|[k' v'] r IH]; simpl; [reflexivity|].
  destruct (String.eqb k k'); [reflexivity|exact IH].
Qed.

Lemma filter_map_comm (p : string -> bool) (l : JsObj.t A) :
  map g (filter (fun kv => p (fst kv)) l) = filter (fun kv => p (fst kv)) (map g l).
Proof.
  induction l as [|x r IH]; simpl; [reflexivity|].
  destruct (p (fst x)); simpl; rewrite IH; reflexivity.
Qed.

Lemma insert_index_map (x : string * A) (l : JsObj.t A) :
  map g (JsObj.insert_index x l) = JsObj.insert_index (g x) (map g l).
Proof.
  induction l as [|y r IH]; simpl; [reflexivity|].
  destruct (_ <? _); simpl; [reflexivity|]. rewrite IH. reflexivity.
Qed.

Lemma sort_index_map (l : JsObj.t A) :
  map g (JsObj.sort_index l) = JsObj.sort_index (map g l).
Proof.
  induction l as [|x r IH]; simpl; [reflexivity|]. rewrite insert_index_map, IH. reflexivity.
Qed.

(** [Object.entries] only looks at the keys. *)
Lemma entries_map (o : JsObj.t A) :
  map g (JsObj.entries o) = JsObj.entries (map g o).
Proof.
  unfold JsObj.entries. rewrite map_app, sort_index_map.
  rewrite (filter_map_comm JsObj.is_array_index).
  rewrite (filter_map_comm (fun k => negb (JsObj.is_array_index k))). reflexivity.
Qed.

End EntriesMap.

(** ** Theme index *)

Lemma mentions_nonneg (t : string) (l : list string) : 0 <= mentions t l.
Proof. unfold mentions. lia. Qed.

Lemma mentions_cons (t x : string) (l : list string) :
  mentions t (x :: l) = (if String.eqb t x then 1 else 0) + mentions t l.
Proof. unfold mentions. cbn [filter]. destruct (String.eqb t x); cbn [List.length]; lia. Qed.

Lemma fold_bump_get (l : list string) (o : JsObj.t Z) (t : string) :
  JsObj.get t (fold_left tally_bump l o) =
  match JsObj.get t o with
  | Some n => Some (n + mentions t l)
  | None => if mentions t l =? 0 then None else Some (mentions t l)
  end.
Proof.
  revert o. induction l as [|x r IH]; intro o; simpl.
  - destruct (JsObj.get t o); [rewrite Z.add_0_r|]; reflexivity.
  - rewrite IH. unfold tally_bump. rewrite get_set, mentions_cons.
    pose proof (mentions_nonneg t r).
    destruct (String.eqb_spec t x) as [->|Hne].
    + destruct (JsObj.get x o).
      * f_equal; lia.
      * replace (1 + mentions x r =? 0) with false by lia. f_equal; lia.
    + rewrite !Z.add_0_l. destruct (JsObj.get t o); reflexivity.
Qed.

Lemma count_themes_fold (rows : list Feedback) :
  theme_tally rows = fold_left tally_bump (all_mentions rows) [].
Proof.
  unfold theme_tally, all_mentions. generalize (@nil (string * Z)).
  induction rows as [|f r IH]; intro o; simpl; [reflexivity|].
  rewrite fold_left_app. apply IH.
Qed.

Lemma count_themes_get (rows : list Feedback) (t : string) :
  JsObj.get t (theme_tally rows) =
  if mentions t (all_mentions rows) =? 0 then None else Some (mentions t (all_mentions rows)).
Proof. rewrite count_themes_fold, fold_bump_get. reflexivity. Qed.

Lemma fold_bump_nodup (l : list string) (o : JsObj.t Z) :
  NoDup (map fst o) -> NoDup (map fst (fold_left tally_bump l o)).
Proof.
  revert o. induction l as [|x r IH]; intros o H; simpl; [exact H|].
  apply IH. apply set_nodup. exact H.
Qed.

Lemma count_themes_nodup (rows : list Feedback) : NoDup (map fst (theme_tally rows)).
Proof. rewrite count_themes_fold. apply fold_bump_nodup. constructor. Qed.

Lemma sum_bump (o : JsObj.t Z) (t : string) : sum_counts (tally_bump o t) = sum_counts o + 1.
Proof.
  unfold tally_bump. induction o as [|[k v] r IH]; [reflexivity|].
  cbn [JsObj.get JsObj.set].
  destruct (String.eqb_spec t k) as [->|Hne].
  - unfold sum_counts. cbn [fold_right snd]. lia.
  - unfold sum_counts in *. cbn [fold_right snd]. rewrite IH. lia.
Qed.

Lemma sum_fold_bump (l : list string) (o : JsObj.t Z) :
  sum_counts (fold_left tally_bump l o) = sum_counts o + Z.of_nat (List.length l).
Proof.
  revert o. induction l as [|x r IH]; intro o; simpl; [lia|].
  rewrite IH, sum_bump. lia.
Qed.

Lemma sum_counts_perm (l l' : list (string * Z)) :
  Permutation l l' -> sum_counts l = sum_counts l'.
Proof. induction 1; simpl; lia. Qed.

Lemma fold_left_add (l : list Z) (a : Z) :
  fold_left Z.add l a = a + fold_right Z.add 0 l.
Proof. revert a. induction l as [|x r IH]; intro a; simpl; [lia|]. rewrite IH. lia. Qed.

Lemma fold_right_add_snd (l : list (string * Z)) :
  fold_right Z.add 0 (map snd l) = sum_counts l.
Proof. induction l as [|x r IH]; simpl; [reflexivity|]. rewrite IH. reflexivity. Qed.

(** [totalThemeMentions] is the number of theme occurrences over all rows. *)
Lemma total_theme_mentions (rows : list Feedback) :
  fold_left Z.add (map snd (JsObj.entries (theme_tally rows))) 0
  = Z.of_nat (List.length (all_mentions rows)).
Proof.
  rewrite fold_left_add, fold_right_add_snd, (sum_counts_perm _ _ (entries_perm _)).
  rewrite count_themes_fold, sum_fold_bump. reflexivity.
Qed.

(** ** Stable sort by count *)

Lemma insert_desc_perm (x : string * Z) (l : list (string * Z)) :
  Permutation (insert_desc x l) (x :: l).
Proof.
  induction l as [|y r IH]; simpl; [reflexivity|].
  destruct (snd y <=? snd x); [reflexivity|].
  etransitivity; [apply perm_skip; exact IH|]. apply perm_swap.
Qed.

Lemma sort_desc_perm (l : list (string * Z)) : Permutation (sort_desc l) l.
Proof.
  induction l as [|x r IH]; simpl; [reflexivity|].
  etransitivity; [apply insert_desc_perm|]. apply perm_skip; exact IH.
Qed.

Lemma insert_desc_sorted (x : string * Z) (l : list (string * Z)) :
  StronglySorted count_ge l -> StronglySorted count_ge (insert_desc x l).
Proof.
  induction l as [|y r IH]; simpl; intro H.
  - repeat constructor.
  - inversion H as [|? ? Hr Hy]; subst.
    destruct (snd y <=? snd x) eqn:E.
    + apply Z.leb_le in E. constructor; [exact H|]. constructor; [exact E|].
      eapply Forall_impl; [|exact Hy]. unfold count_ge. intros z Hz. lia.
    + apply Z.leb_gt in E. constructor; [exact (IH Hr)|].
      apply Forall_forall. intros z Hz.
      apply (Permutation_in _ (insert_desc_perm x r)) in Hz. destruct Hz as [<-|Hz].
      * unfold count_ge. lia.
      * exact (proj1 (Forall_forall _ _) Hy z Hz).
Qed.

Lemma sort_desc_sorted (l : list (string * Z)) : StronglySorted count_ge (sort_desc l).
Proof.
  induction l as [|x r IH]; simpl; [constructor|]. apply insert_desc_sorted. exact IH.
Qed.

Lemma sorted_app_left {B : Type} (R : B -> B -> Prop) (l1 l2 : list B) :
  StronglySorted R (l1 ++ l2)%list -> StronglySorted R l1.
Proof.
  induction l1 as [|x r IH]; simpl; intro H; [constructor|].
  inversion H as [|? ? Hr Hx]; subst. constructor; [exact (IH Hr)|].
  apply Forall_forall. intros z Hz. apply (proj1 (Forall_forall _ _) Hx). apply in_or_app; left; exact Hz.
Qed.

Lemma sorted_app_rel {B : Type} (R : B -> B -> Prop) (l1 l2 : list B) (x y : B) :
  StronglySorted R (l1 ++ l2)%list -> In x l1 -> In y l2 -> R x y.
Proof.
  induction l1 as [|z r IH]; simpl; intros H Hx Hy; [contradiction|].
  inversion H as [|? ? Hr Hz]; subst. destruct Hx as [<-|Hx].
  - apply (proj1 (Forall_forall _ _) Hz). apply in_or_app; right; exact Hy.
  - exact (IH Hr Hx Hy).
Qed.

Lemma sorted_map {B C : Type} (R : B -> B -> Prop) (R' : C -> C -> Prop) (f : B -> C) (l : list B) :
  (forall x y, R x y -> R' (f x) (f y)) -> StronglySorted R l -> StronglySorted R' (map f l).
Proof.
  intros HR. induction 1 as [|x r Hr IH Hx]; simpl; constructor; [exact IH|].
  apply Forall_map. eapply Forall_impl; [|exact Hx]. intros y Hy. apply HR; exact Hy.
Qed.

Lemma firstn_in {B : Type} (n : nat) (x : B) (l : list B) : In x (firstn n l) -> In x l.
Proof. intro H. rewrite <- (firstn_skipn n l). apply in_or_app; left; exact H. Qed.

Lemma proto_ne (t : string) : JsObj.inherited t = false -> String.eqb t "__proto__" = false.
Proof.
  intro H. destruct (String.eqb_spec t "__proto__") as [->|_]; [discriminate H|reflexivity].
Qed.

Lemma get_bump_other (o : JsObj.t cval) (x t : string) :
  String.eqb t x = false -> JsObj.get t (bump o x) = JsObj.get t o.
Proof.
  intro H. unfold bump. destruct (String.eqb x "__proto__"); [reflexivity|].
  rewrite get_set, H. reflexivity.
Qed.

Lemma get_bump_self (o : JsObj.t cval) (t : string) :
  JsObj.inherited t = false ->
  JsObj.get t (bump o t)
  = Some match JsObj.get t o with
         | Some (CNum n) => CNum (n + 1)
         | Some (CStr s) => if String.eqb s "" then CNum 1 else CStr (s ++ "1")
         | None => CNum 1
         end.
Proof.
  intro H. unfold bump. rewrite (proto_ne t H), get_set, String.eqb_refl.
  destruct (JsObj.get t o) as [[]|]; [reflexivity|reflexivity|rewrite H; reflexivity].
Qed.

(** The count of a key that is not inherited is the number of its
    occurrences. *)
Lemma fold_cbump_get (l : list string) (o : JsObj.t cval) (t : string) :
  JsObj.inherited t = false -> (forall s, JsObj.get t o <> Some (CStr s)) ->
  JsObj.get t (fold_left bump l o) =
  match JsObj.get t o with
  | Some (CNum n) => Some (CNum (n + mentions t l))
  | Some (CStr s) => Some (CStr s)
  | None => if mentions t l =? 0 then None else Some (CNum (mentions t l))
  end.
Proof.
  intro Ht. revert o. induction l as [|x r IH]; intros o Ho; simpl.
  - destruct (JsObj.get t o) as [[]|]; [rewrite Z.add_0_r| |]; reflexivity.
  - rewrite mentions_cons. pose proof (mentions_nonneg t r).
    destruct (String.eqb_spec t x) as [->|Hne].
    + rewrite IH by (rewrite get_bump_self by exact Ht;
                     destruct (JsObj.get x o) as [[]|]; intros s' E; try discriminate E;
                     exact (Ho _ eq_refl)).
      rewrite get_bump_self by exact Ht.
      destruct (JsObj.get x o) as [[n|s']|] eqn:E.
      * f_equal; f_equal; lia.
      * exfalso. exact (Ho _ eq_refl).
      * replace (1 + mentions x r =? 0) with false by lia. f_equal; f_equal; lia.
    + assert (Hg : JsObj.get t (bump o x) = JsObj.get t o)
        by (apply get_bump_other; apply String.eqb_neq; exact Hne).
      rewrite IH by (rewrite Hg; exact Ho). rewrite Hg, Z.add_0_l. reflexivity.
Qed.

Lemma count_themes_cfold (rows : list Feedback) :
  count_themes rows = fold_left bump (all_mentions rows) [].
Proof.
  unfold count_themes, all_mentions. generalize (@nil (string * cval)).
  induction rows as [|f r IH]; intro o; simpl; [reflexivity|].
  rewrite fold_left_app. apply IH.
Qed.

Lemma count_themes_cget (rows : list Feedback) (t : string) :
  JsObj.inherited t = false ->
  JsObj.get t (count_themes rows) =
  if mentions t (all_mentions rows) =? 0 then None
  else Some (CNum (mentions t (all_mentions rows))).
Proof.
  intro Ht. rewrite count_themes_cfold, fold_cbump_get by (try exact Ht; intros s E; discriminate E).
  reflexivity.
Qed.

Lemma fold_cbump_nodup (l : list string) (o : JsObj.t cval) :
  NoDup (map fst o) -> NoDup (map fst (fold_left bump l o)).
Proof.
  revert o. induction l as [|x r IH]; intros o H; simpl; [exact H|].
  apply IH. unfold bump. destruct (String.eqb x "__proto__"); [exact H|].
  apply set_nodup. exact H.
Qed.

Lemma count_themes_cnodup (rows : list Feedback) : NoDup (map fst (count_themes rows)).
Proof. rewrite count_themes_cfold. apply fold_cbump_nodup. constructor. Qed.

Lemma insert_count_perm (x : string * cval) (l : list (string * cval)) :
  Permutation (insert_count x l) (x :: l).
Proof.
  induction l as [|y r IH]; simpl; [reflexivity|].
  destruct (cmp_le0 _); [reflexivity|].
  etransitivity; [apply perm_skip; exact IH|]. apply perm_swap.
Qed.

Lemma sort_counts_perm (l : list (string * cval)) : Permutation (sort_counts l) l.
Proof.
  induction l as [|x r IH]; simpl; [reflexivity|].
  etransitivity; [apply insert_count_perm|]. apply perm_skip; exact IH.
Qed.

(** Without inherited keys the counts are the numeric tallies. *)
Lemma bump_tag (o : JsObj.t Z) (t : string) :
  JsObj.inherited t = false -> bump (map tag o) t = map tag (tally_bump o t).
Proof.
  intro Ht. unfold bump, tally_bump. rewrite (proto_ne t Ht).
  rewrite (get_map_comm CNum), (map_set_comm CNum).
  destruct (JsObj.get t o); cbn [option_map]; [reflexivity|rewrite Ht; reflexivity].
Qed.

Lemma fold_bump_tag (l : list string) (o : JsObj.t Z) :
  forallb (fun t => negb (JsObj.inherited t)) l = true ->
  fold_left bump l (map tag o) = map tag (fold_left tally_bump l o).
Proof.
  revert o. induction l as [|x r IH]; intros o H; simpl; [reflexivity|].
  cbn [forallb] in H. apply andb_true_iff in H as [Hx Hr].
  rewrite bump_tag by (apply negb_true_iff; exact Hx). apply IH. exact Hr.
Qed.

Lemma count_themes_tag (rows : list Feedback) :
  proto_free rows = true -> count_themes rows = map tag (theme_tally rows).
Proof.
  unfold proto_free. intro H.
  rewrite count_themes_cfold, count_themes_fold.
  change (@nil (string * cval)) with (map tag []). apply fold_bump_tag. exact H.
Qed.

Lemma cmp_tag (x y : string * Z) : cmp_le0 (count_cmp (tag x) (tag y)) = (snd y <=? snd x).
Proof.
  destruct x as [k a], y as [k' b].
  unfold count_cmp, cmp_le0, tag, js_sub, cval_num, Qle_bool. cbn.
  destruct (Z.leb_spec b a); apply Z.leb_le || apply Z.leb_gt; lia.
Qed.

Lemma sort_counts_tag (l : list (string * Z)) : sort_counts (map tag l) = map tag (sort_desc l).
Proof.
  assert (Hi : forall x m, insert_count (tag x) (map tag m) = map tag (insert_desc x m)).
  { intros x m. induction m as [|y r IH]; cbn [map insert_count insert_desc]; [reflexivity|].
    rewrite cmp_tag. destruct (snd y <=? snd x); [reflexivity|]. rewrite IH. reflexivity. }
  induction l as [|x r IH]; cbn [map sort_counts sort_desc]; [reflexivity|].
  rewrite IH. apply Hi.
Qed.

Lemma entries_tag (o : JsObj.t Z) : JsObj.entries (map tag o) = map tag (JsObj.entries o).
Proof. symmetry. exact (entries_map CNum o). Qed.

Lemma top_themes_tag (rows : list Feedback) :
  proto_free rows = true -> top_themes rows = map tag (top_tally rows).
Proof.
  intro H. unfold top_themes, top_tally.
  rewrite count_themes_tag by exact H. rewrite entries_tag, sort_counts_tag, firstn_map.
  reflexivity.
Qed.

(** C10, as the code has it: the theme index counts every occurrence, so a
    record listing a theme [k] times adds [k] to its count; no layer removes
    duplicates. This holds for every theme that is not the name of a member
    of [Object.prototype] (for those, the count is not a number of
    occurrences). *)
Theorem count_themes_every_occurrence (rows : list Feedback) :
  (forall t, JsObj.inherited t = false ->
     JsObj.get t (count_themes rows)
     = if mentions t (all_mentions rows) =? 0 then None
       else Some (CNum (mentions t (all_mentions rows))))
  /\ (forall t c, In (t, c) (top_themes rows) -> JsObj.inherited t = false ->
        c = CNum (mentions t (all_mentions rows))).
Proof.
  split; [intros t Ht; apply count_themes_cget; exact Ht|].
  intros t c H Ht. unfold top_themes in H.
  apply firstn_in in H.
  apply (Permutation_in _ (sort_counts_perm _)) in H.
  apply (In_entries _ _ _ (count_themes_cnodup rows)) in H.
  rewrite count_themes_cget in H by exact Ht.
  destruct (mentions t (all_mentions rows) =? 0); inversion H; reflexivity.
Qed.

(** C10, the claim as stated fails: one record listing the theme [a] twice
    counts twice. *)
Lemma count_themes_duplicate_in_record :
  top_themes [example_row 1 "neutral" 3 ["a"; "a"]] = [("a", CNum 2)].
Proof. reflexivity. Qed.

(** C3 (the defect): [ui] is encountered before [404], both are counted
    once, yet [topThemes] lists [404] first: [Object.entries] enumerates
    array-index keys before the others, so ties do not follow the order of
    first encounter. *)
Theorem top_themes_index_key_first :
  all_mentions [example_row 1 "neutral" 3 ["ui"; "404"]] = ["ui"; "404"]
  /\ top_themes [example_row 1 "neutral" 3 ["ui"; "404"]] = [("404", CNum 1); ("ui", CNum 1)].
Proof. split; reflexivity. Qed.

(** C7 (the defect): percentages are computed in doubles. Of forty records,
    twenty-three have the theme [a] and seventeen [b]: [round(100 * 23 /
    40)] is [round(57.5) = 58], but [(23 / 40) * 100] is
    [57.49999999999999] in doubles and [a] gets 57. A theme named after a
    member of [Object.prototype] makes the total a string, and every
    percentage NaN. *)
Theorem theme_distribution_rounding :
  mentions "a" (all_mentions dist_rows) = 23
  /\ mentions "b" (all_mentions dist_rows) = 17
  /\ Qfloor (inject_Z 100 * (23 # 40) + (1 # 2)) = 58
  /\ map (fun e => (Insights.d_theme e, Insights.d_count e, Insights.percentage e))
        (Insights.themeDistribution (Insights.handleGetAIInsights dist_rows))
     = [("a", CNum 23, d_of_Z 57); ("b", CNum 17, d_of_Z 43)]
  /\ map (fun e => (Insights.d_theme e, Insights.d_count e, Insights.percentage e))
        (Insights.themeDistribution
           (Insights.handleGetAIInsights [example_row 1 "neutral" 3 ["constructor"; "a"]]))
     = [("constructor", CStr "function Object() { [native code] }1", S754_nan);
        ("a", CNum 1, S754_nan)].
Proof. repeat split; vm_compute; reflexivity. Qed.

(** C2 (the defect): the themes [constructor] and [__proto__] of negative
    records never get an entry in [negativeThemePriorities] (the read finds
    the inherited member, and the updates go to it), so although negative
    records carry themes, there is no most urgent issue. *)
Theorem most_urgent_issue_inherited :
  neg_occurrences [example_row 1 "negative" 5 ["constructor"]; example_row 2 "negative" 4 ["__proto__"]]
  = [("constructor", 5); ("__proto__", 4)]
  /\ Insights.mostUrgentIssue
       (Insights.handleGetAIInsights
          [example_row 1 "negative" 5 ["constructor"]; example_row 2 "negative" 4 ["__proto__"]])
     = None.
Proof. split; vm_compute; reflexivity. Qed.


(** The entries of the theme index, by count, are exactly the themes that
    occur, each with its number of occurrences. *)
Lemma sorted_entries_counts (rows : list Feedback) (t : string) (c : Z) :
  In (t, c) (sort_desc (JsObj.entries (theme_tally rows)))
  <-> c = mentions t (all_mentions rows) /\ 0 < c.
Proof.
  split.
  - intro H. apply (Permutation_in _ (sort_desc_perm _)) in H.
    apply (In_entries _ _ _ (count_themes_nodup rows)) in H.
    rewrite count_themes_get in H.
    pose proof (mentions_nonneg t (all_mentions rows)) as Hn.
    destruct (mentions t (all_mentions rows) =? 0) eqn:E; inversion H; subst.
    apply Z.eqb_neq in E. split; [reflexivity|lia].
  - intros [-> Hc]. apply (Permutation_in _ (Permutation_sym (sort_desc_perm _))).
    apply (In_entries _ _ _ (count_themes_nodup rows)).
    rewrite count_themes_get. destruct (Z.eqb_spec (mentions t (all_mentions rows)) 0); [lia|reflexivity].
Qed.

(** C8 (the defect): a [page] parameter that is not a number makes
    [parseInt] return NaN, and [Math.max(1, NaN)] is NaN, so the effective
    page is not at least 1; the offset is NaN as well and the data query
    fails, answering 500. *)
Theorem effective_page_nan (to_iso : Z -> string) (now : Z) (db : list Feedback) :
  let ps := {| Query.q_source := None; Query.q_sentiment := None; Query.q_category := None;
               Query.q_priority := None; Query.q_dateRange := None;
               Query.q_page := Some "abc"; Query.q_limit := None |} in
  Query.effective_page ps = NaN
  /\ Query.js_offset (Query.effective_page ps) (Query.effective_limit ps) = NaN
  /\ Query.handleGetFeedback to_iso now db ps = None.
Proof. intro ps. split; [reflexivity|split; reflexivity]. Qed.

(** ** Pagination *)

Lemma firstn_add_split {B : Type} (a b : nat) (l : list B) :
  firstn (a + b) l = (firstn a l ++ firstn b (skipn a l))%list.
Proof.
  revert l. induction a as [|a IH]; intro l; [reflexivity|].
  destruct l as [|x r]; simpl; [rewrite firstn_nil; reflexivity|]. rewrite IH. reflexivity.
Qed.

(** Pages [s .. s+m-1] of size [L], one after the other. *)
Lemma chunks_concat {B : Type} (L m s : nat) (l : list B) :
  List.concat (map (fun i => firstn L (skipn (i * L) l)) (seq s m))
  = firstn (m * L) (skipn (s * L) l).
Proof.
  revert s. induction m as [|m IH]; intro s; [reflexivity|].
  cbn [seq map List.concat]. rewrite IH.
  replace (S m * L)%nat with (L + m * L)%nat by lia.
  rewrite firstn_add_split, skipn_skipn.
  replace (L + s * L)%nat with (S s * L)%nat by lia. reflexivity.
Qed.

Lemma insert_created_length (x : Feedback) (l : list Feedback) :
  List.length (Query.insert_created x l) = S (List.length l).
Proof.
  induction l as [|y r IH]; simpl; [reflexivity|].
  destruct (Query.str_leb (created_at y) (created_at x)); simpl; [reflexivity|]. rewrite IH. reflexivity.
Qed.

Lemma order_desc_length (l : list Feedback) :
  List.length (Query.order_desc l) = List.length l.
Proof.
  induction l as [|x r IH]; simpl; [reflexivity|]. rewrite insert_created_length, IH. reflexivity.
Qed.

(** [Math.ceil(n / L)] pages of [L] rows hold [n] rows, and all pages but
    the last are full. *)
Lemma ceil_div_bounds (n : Z) (L : positive) :
  0 <= n ->
  0 <= Query.ceil_div n (Zpos L)
  /\ n <= Query.ceil_div n (Zpos L) * Zpos L
  /\ (Query.ceil_div n (Zpos L) - 1) * Zpos L < n + (if n =? 0 then 1 else 0).
Proof.
  intro Hn. unfold Query.ceil_div.
  pose proof (Z.div_mod (n + Zpos L - 1) (Zpos L) ltac:(lia)) as Hdm.
  pose proof (Z.mod_pos_bound (n + Zpos L - 1) (Zpos L) ltac:(lia)) as Hb.
  set (q := (n + Zpos L - 1) / Zpos L) in *.
  set (r := (n + Zpos L - 1) mod Zpos L) in *.
  assert (Hq : 0 <= q) by (apply Z.div_pos; lia).
  destruct (Z.eqb_spec n 0); nia.
Qed.

(** C4: the count query and the data query filter with the same [WHERE]
    clause, so [total] is the size of the filtered set; for any positive
    [limit], pages [1 .. totalPages] (each of at most [limit] rows, all
    but the last exactly [limit]) concatenate to the whole filtered set
    ordered by [created_at] descending, each row once. *)
Theorem pages_reconstruct (to_iso : Z -> string) (now : Z) (db : list Feedback)
  (ps : Query.Params) (L : positive) :
  let w := Query.build_where to_iso now ps in
  let rows := Query.order_desc (filter (Query.eval_where w) db) in
  let pg p := fst (Query.list_feedback db w p (Zpos L)) in
  let tp := Query.totalPages (snd (Query.list_feedback db w 1 (Zpos L))) in
  Query.total (snd (Query.list_feedback db w 1 (Zpos L))) = Z.of_nat (List.length rows)
  /\ List.concat (map pg (map Z.of_nat (seq 1 (Z.to_nat tp)))) = rows
  /\ (forall p, (List.length (pg p) <= Pos.to_nat L)%nat)
  /\ (forall p, 1 <= p < tp -> List.length (pg p) = Pos.to_nat L).
Proof.
  intros w rows pg tp.
  assert (Hlen : Query.count_query db w = Z.of_nat (List.length rows))
    by (unfold rows, Query.count_query; rewrite order_desc_length; reflexivity).
  assert (Htp : tp = Query.ceil_div (Z.of_nat (List.length rows)) (Zpos L))
    by (unfold tp; cbn [Query.list_feedback snd Query.totalPages]; rewrite Hlen; reflexivity).
  assert (Hpg : forall p, pg p = firstn (Pos.to_nat L) (skipn (Z.to_nat ((p - 1) * Zpos L)) rows))
    by reflexivity.
  destruct (ceil_div_bounds (Z.of_nat (List.length rows)) L ltac:(lia)) as [Hq0 [Hq1 Hq2]].
  rewrite <- Htp in Hq0, Hq1, Hq2.
  split; [cbn [Query.list_feedback snd Query.total]; exact Hlen|].
  split; [|split].
  - rewrite <- seq_shift, !map_map.
    rewrite (map_ext _ (fun i => firstn (Pos.to_nat L) (skipn (i * Pos.to_nat L) rows))).
    + rewrite chunks_concat. simpl. apply firstn_all2.
      apply Nat2Z.inj_le. rewrite Nat2Z.inj_mul, Z2Nat.id, positive_nat_Z by exact Hq0. exact Hq1.
    + intro i. rewrite Hpg. f_equal. f_equal.
      replace (Z.of_nat (S i) - 1) with (Z.of_nat i) by lia.
      rewrite Z2Nat.inj_mul by lia. rewrite Nat2Z.id. reflexivity.
  - intro p. rewrite Hpg, length_firstn. lia.
  - intros p Hp. rewrite Hpg, length_firstn, length_skipn.
    assert (Hp' : (p - 1) * Zpos L + Zpos L <= Z.of_nat (List.length rows)).
    { assert (Zpos L * p <= Zpos L * (tp - 1)) by (apply Z.mul_le_mono_nonneg_l; lia).
      destruct (Z.of_nat (List.length rows) =? 0); nia. }
    assert (Hz : Z.of_nat (Z.to_nat ((p - 1) * Zpos L)) = (p - 1) * Zpos L)
      by (apply Z2Nat.id; nia).
    lia.
Qed.

(** ** Trending topic *)

Lemma entries_counts (rows : list Feedback) (t : string) (c : Z) :
  In (t, c) (JsObj.entries (theme_tally rows))
  <-> c = mentions t (all_mentions rows) /\ 0 < c.
Proof.
  rewrite (In_entries _ _ _ (count_themes_nodup rows)), count_themes_get.
  pose proof (mentions_nonneg t (all_mentions rows)) as Hn.
  destruct (Z.eqb_spec (mentions t (all_mentions rows)) 0) as [E|E]; split.
  - discriminate.
  - intros [-> Hc]; lia.
  - intro H; injection H as <-; split; [reflexivity|lia].
  - intros [-> _]; reflexivity.
Qed.

Lemma Qlt_bool_inject_Z (a b : Z) : Qlt_bool (inject_Z a) (inject_Z b) = (a <? b).
Proof.
  unfold Qlt_bool, Qle_bool. cbn. rewrite !Z.mul_1_r.
  destruct (Z.leb_spec b a), (Z.ltb_spec a b); reflexivity || lia.
Qed.

Lemma trending_step_inv (st : option Insights.TrendingTopic * cval) (P : list (string * Z))
  (e : string * Z) :
  0 < snd e -> trend_inv st P -> trend_inv (Insights.trending_step st (tag e)) (P ++ [e]).
Proof.
  destruct st as [best mx], e as [th c]. cbn [snd]. intros Hc Hinv.
  assert (Hmx : exists m, mx = CNum m /\ forall k c', In (k, c') P -> c' <= m).
  { unfold trend_inv in Hinv; cbn [fst snd] in Hinv. destruct best as [x|].
    - destruct Hinv as (n & _ & _ & Hmx & _ & Hall). exists n. split; [exact Hmx|exact Hall].
    - destruct Hinv as [-> ->]. exists 0. split; [reflexivity|]. intros k c' []. }
  destruct Hmx as (m & -> & HmP).
  unfold Insights.trending_step, tag. cbn [fst snd Insights.cval_gt cval_num js_lt].
  rewrite Qlt_bool_inject_Z. destruct (Z.ltb_spec m c) as [Hlt|Hge].
  - unfold trend_inv; cbn [fst snd Insights.t_theme Insights.t_count Insights.recentMentions].
    exists c. split; [reflexivity|].
    split; [apply in_or_app; right; left; reflexivity|].
    split; [reflexivity|]. split; [reflexivity|].
    intros k c' Hk. apply in_app_or in Hk as [Hk|[Hk|[]]].
    + specialize (HmP _ _ Hk). lia.
    + injection Hk as _ <-. lia.
  - unfold trend_inv in *; cbn [fst snd] in *. destruct best as [x|].
    + destruct Hinv as (n & Hn & Hin & Hmx & Hrm & Hall). exists n.
      split; [exact Hn|]. split; [apply in_or_app; left; exact Hin|].
      split; [exact Hmx|]. split; [exact Hrm|].
      injection Hmx as <-.
      intros k c' Hk. apply in_app_or in Hk as [Hk|[Hk|[]]].
      * exact (Hall _ _ Hk).
      * injection Hk as _ <-. lia.
    + destruct Hinv as [_ E]. injection E as ->. lia.
Qed.

Lemma trending_fold_inv (L P : list (string * Z)) (st : option Insights.TrendingTopic * cval) :
  (forall e, In e L -> 0 < snd e) -> trend_inv st P ->
  trend_inv (fold_left Insights.trending_step (map tag L) st) (P ++ L).
Proof.
  revert P st. induction L as [|e r IH]; intros P st HL Hinv; cbn [map fold_left].
  - rewrite app_nil_r. exact Hinv.
  - replace (P ++ e :: r)%list with ((P ++ [e]) ++ r)%list by (rewrite <- app_assoc; reflexivity).
    apply IH; [intros x Hx; apply HL; right; exact Hx|].
    apply trending_step_inv; [apply HL; left; reflexivity|exact Hinv].
Qed.

(** The trending topic of [handleGetAIInsights] is a theme occurring most
    often among the themes of the 10 most recent records, with that number
    of occurrences as both [count] and [recentMentions]; there is none
    exactly when those records have no theme. This holds when no theme of
    those records names a member of [Object.prototype]. *)
Theorem trending_topic_spec (feedback : list Feedback)
  (Hpf : proto_free (firstn 10 feedback) = true) :
  let recent := all_mentions (firstn 10 feedback) in
  match Insights.trendingTopic (Insights.handleGetAIInsights feedback) with
  | None => recent = []
  | Some x =>
      Insights.t_count x = CNum (mentions (Insights.t_theme x) recent)
      /\ 0 < mentions (Insights.t_theme x) recent
      /\ Insights.recentMentions x = Insights.t_count x
      /\ forall t, mentions t recent <= mentions (Insights.t_theme x) recent
  end.
Proof.
  intro recent. destruct feedback as [|f0 r0]; [reflexivity|].
  rewrite handleGetAIInsights_nonempty by discriminate.
  cbn [Insights.trendingTopic]. unfold Insights.trending_topic.
  rewrite count_themes_tag, entries_tag by exact Hpf.
  set (E := JsObj.entries (theme_tally (firstn 10 (f0 :: r0)))).
  assert (HE : forall t c, In (t, c) E <-> c = mentions t recent /\ 0 < c)
    by (intros t c; apply entries_counts).
  assert (Hinv : trend_inv (fold_left Insights.trending_step (map tag E) (None, CNum 0)) ([] ++ E)).
  { apply trending_fold_inv; [|split; reflexivity].
    intros [t c] He. apply HE in He. exact (proj2 He). }
  cbn [app] in Hinv. unfold trend_inv in Hinv.
  destruct (fold_left Insights.trending_step (map tag E) (None, CNum 0)) as [[x|] mx];
    cbn [fst snd] in *.
  - destruct Hinv as (n & Hn & Hin & _ & Hrm & Hall).
    apply HE in Hin as [Hc Hpos]. rewrite <- Hc.
    split; [exact Hn|]. split; [exact Hpos|]. split; [rewrite Hrm, Hn; reflexivity|].
    intro t. destruct (Z.eqb_spec (mentions t recent) 0) as [Z0|Z0]; [lia|].
    apply (Hall t). apply HE. split; [reflexivity|]. pose proof (mentions_nonneg t recent). lia.
  - destruct Hinv as [HE0 _]. destruct recent as [|t l] eqn:Er; [reflexivity|].
    exfalso. assert (Hm : 0 < mentions t (t :: l)).
    { rewrite mentions_cons, String.eqb_refl. pose proof (mentions_nonneg t l). lia. }
    assert (Hin : In (t, mentions t (t :: l)) E) by (apply HE; split; [reflexivity|exact Hm]).
    rewrite HE0 in Hin. destruct Hin.
Qed.

(** ** Top themes *)

Lemma NoDup_firstn {B : Type} (n : nat) (l : list B) : NoDup l -> NoDup (firstn n l).
Proof. intro H. rewrite <- (firstn_skipn n l) in H. exact (NoDup_app_remove_r _ _ H). Qed.

Lemma top_tally_props (rows : list Feedback) :
  let tt := top_tally rows in
  let all := all_mentions rows in
  (List.length tt <= 5)%nat
  /\ NoDup (map fst tt)
  /\ (List.length tt = 5%nat \/ forall t, 0 < mentions t all -> In t (map fst tt))
  /\ (forall t c, In (t, c) tt -> c = mentions t all /\ 0 < c)
  /\ StronglySorted count_ge tt
  /\ (forall t t' c, 0 < mentions t all -> ~ In t (map fst tt) -> In (t', c) tt ->
        mentions t all <= c).
Proof.
  intros tt all. unfold tt, top_tally.
  set (S := sort_desc (JsObj.entries (theme_tally rows))).
  assert (HS : forall t c, In (t, c) S <-> c = mentions t all /\ 0 < c)
    by (intros t c; apply sorted_entries_counts).
  assert (Hsort : StronglySorted count_ge S) by apply sort_desc_sorted.
  split; [rewrite length_firstn; lia|].
  split.
  { rewrite <- firstn_map. apply NoDup_firstn.
    apply (Permutation_NoDup (l := map fst (theme_tally rows))); [|apply count_themes_nodup].
    apply Permutation_map. apply Permutation_sym. unfold S.
    etransitivity; [apply sort_desc_perm|apply entries_perm]. }
  split.
  { destruct (Nat.le_gt_cases (List.length S) 5) as [Hle|Hgt].
    - right. intros t Ht. rewrite firstn_all2 by exact Hle.
      apply in_map_iff. exists (t, mentions t all). split; [reflexivity|].
      apply HS. split; [reflexivity|exact Ht].
    - left. rewrite length_firstn. lia. }
  split; [intros t c H; apply firstn_in, HS in H; exact H|].
  split; [apply (sorted_app_left _ _ (skipn 5 S)); rewrite firstn_skipn; exact Hsort|].
  intros t t' c Ht Hnot He.
  assert (Hin : In (t, mentions t all) S) by (apply HS; split; [reflexivity|exact Ht]).
  rewrite <- (firstn_skipn 5 S) in Hin, Hsort. apply in_app_or in Hin as [Hin|Hin].
  - exfalso. apply Hnot. apply in_map_iff. exists (t, mentions t all). auto.
  - exact (sorted_app_rel _ _ _ _ _ Hsort He Hin).
Qed.

Lemma sorted_map_in {B C : Type} (R : B -> B -> Prop) (R' : C -> C -> Prop) (f : B -> C)
  (l : list B) :
  (forall x y, In x l -> In y l -> R x y -> R' (f x) (f y)) ->
  StronglySorted R l -> StronglySorted R' (map f l).
Proof.
  intros HR H. induction H as [|x r Hr IH Hx]; simpl; constructor.
  - apply IH. intros a b Ha Hb. apply HR; right; assumption.
  - apply Forall_map. apply Forall_forall. intros y Hy. apply HR; [left; reflexivity|right; exact Hy|].
    exact (proj1 (Forall_forall _ _) Hx y Hy).
Qed.

(** [topThemes] of [handleGetInsights], when no theme names a member of
    [Object.prototype]: at most 5 distinct themes, all the themes that occur
    when fewer than 5 do, each with its number of occurrences over all
    records, by count descending; a theme left out occurs no more often
    than any listed one. *)
Theorem top_themes_spec (rows : list Feedback) (Hpf : proto_free rows = true) :
  let tt := top_themes rows in
  let all := all_mentions rows in
  (List.length tt <= 5)%nat
  /\ NoDup (map fst tt)
  /\ (List.length tt = 5%nat \/ forall t, 0 < mentions t all -> In t (map fst tt))
  /\ (forall t c, In (t, c) tt -> c = CNum (mentions t all) /\ 0 < mentions t all)
  /\ StronglySorted (fun a b => mentions (fst b) all <= mentions (fst a) all) tt
  /\ (forall t t' c, 0 < mentions t all -> ~ In t (map fst tt) -> In (t', c) tt ->
        mentions t all <= mentions t' all).
Proof.
  intros tt all. unfold tt. rewrite (top_themes_tag rows Hpf).
  destruct (top_tally_props rows) as (H1 & H2 & H3 & H4 & H5 & H6).
  fold all in H3, H4, H6.
  assert (Hfst : map fst (map tag (top_tally rows)) = map fst (top_tally rows))
    by (rewrite map_map; reflexivity).
  assert (Hin : forall t c, In (t, c) (map tag (top_tally rows)) ->
                exists n, c = CNum n /\ In (t, n) (top_tally rows)).
  { intros t c H. apply in_map_iff in H as [[t0 n] [E H]]. injection E as <- <-.
    exists n. split; [reflexivity|exact H]. }
  split; [rewrite length_map; exact H1|].
  split; [rewrite Hfst; exact H2|].
  split; [rewrite length_map, Hfst; exact H3|].
  split.
  { intros t c H. apply Hin in H as (n & -> & H). apply H4 in H as [-> Hp].
    split; [reflexivity|exact Hp]. }
  split.
  { apply (sorted_map_in count_ge); [|exact H5].
    intros [a na] [b nb] Ha Hb Hab. unfold count_ge in Hab. cbn [fst snd tag] in *.
    apply H4 in Ha as [-> _]. apply H4 in Hb as [-> _]. exact Hab. }
  intros t t' c Ht Hnot H. rewrite Hfst in Hnot. apply Hin in H as (n & -> & H).
  pose proof (H6 t t' n Ht Hnot H) as Hle. apply H4 in H as [-> _]. exact Hle.
Qed.

(** ** Listing: [handleGetFeedback] on success *)

Lemma str_leb_total (a b : string) : Query.str_leb a b = true \/ Query.str_leb b a = true.
Proof.
  revert b. induction a as [|x a IH]; intros [|y b]; simpl; auto.
  unfold ascii_eqb.
  destruct (Nat.ltb_spec (nat_of_ascii x) (nat_of_ascii y)) as [H1|H1]; [auto|].
  destruct (Nat.ltb_spec (nat_of_ascii y) (nat_of_ascii x)) as [H2|H2]; [auto|].
  assert (x = y) as <-.
  { rewrite <- (ascii_nat_embedding x), <- (ascii_nat_embedding y). f_equal. lia. }
  rewrite Ascii.eqb_refl. apply IH.
Qed.

Lemma str_leb_cons (x y : ascii) (a b : string) :
  Query.str_leb (String x a) (String y b) = true
  <-> (nat_of_ascii x < nat_of_ascii y)%nat \/ (x = y /\ Query.str_leb a b = true).
Proof.
  simpl. unfold ascii_eqb.
  destruct (Nat.ltb_spec (nat_of_ascii x) (nat_of_ascii y)) as [L|L].
  - split; [intros _; left; exact L|reflexivity].
  - destruct (Ascii.eqb_spec x y) as [<-|Hne].
    + split; [intro H; right; split; [reflexivity|exact H]|]. intros [H|[_ H]]; [lia|exact H].
    + split; [discriminate|]. intros [H|[H _]]; [lia|contradiction].
Qed.

Lemma str_leb_trans (a b c : string) :
  Query.str_leb a b = true -> Query.str_leb b c = true -> Query.str_leb a c = true.
Proof.
  revert b c. induction a as [|x a IH]; intros [|y b] [|z c]; try reflexivity; try discriminate.
  rewrite !str_leb_cons. intros [H1|[<- H1]] [H2|[<- H2]].
  - left; lia.
  - left; exact H1.
  - left; exact H2.
  - right. split; [reflexivity|exact (IH _ _ H1 H2)].
Qed.

Lemma insert_created_perm (x : Feedback) (l : list Feedback) :
  Permutation (Query.insert_created x l) (x :: l).
Proof.
  induction l as [|y r IH]; simpl; [reflexivity|].
  destruct (Query.str_leb (created_at y) (created_at x)); [reflexivity|].
  etransitivity; [apply perm_skip; exact IH|]. apply perm_swap.
Qed.

Lemma order_desc_perm (l : list Feedback) : Permutation (Query.order_desc l) l.
Proof.
  induction l as [|x r IH]; simpl; [reflexivity|].
  etransitivity; [apply insert_created_perm|]. apply perm_skip; exact IH.
Qed.

Lemma insert_created_sorted (x : Feedback) (l : list Feedback) :
  StronglySorted newer_eq l -> StronglySorted newer_eq (Query.insert_created x l).
Proof.
  induction l as [|y r IH]; simpl; intro H.
  - repeat constructor.
  - inversion H as [|? ? Hr Hy]; subst.
    destruct (Query.str_leb (created_at y) (created_at x)) eqn:E.
    + constructor; [exact H|]. constructor; [exact E|].
      eapply Forall_impl; [|exact Hy]. unfold newer_eq. intros z Hz. exact (str_leb_trans _ _ _ Hz E).
    + constructor; [exact (IH Hr)|].
      apply Forall_forall. intros z Hz.
      apply (Permutation_in _ (insert_created_perm x r)) in Hz. destruct Hz as [<-|Hz].
      * unfold newer_eq. destruct (str_leb_total (created_at y) (created_at x)) as [E'|E'];
          [rewrite E in E'; discriminate|exact E'].
      * exact (proj1 (Forall_forall _ _) Hy z Hz).
Qed.

Lemma order_desc_sorted (l : list Feedback) : StronglySorted newer_eq (Query.order_desc l).
Proof.
  induction l as [|x r IH]; simpl; [constructor|]. apply insert_created_sorted. exact IH.
Qed.

Lemma sorted_skipn {B : Type} (R : B -> B -> Prop) (n : nat) (l : list B) :
  StronglySorted R l -> StronglySorted R (skipn n l).
Proof.
  revert l. induction n as [|n IH]; intros l H; [exact H|].
  destruct l as [|x r]; [constructor|]. inversion H; subst. apply IH. assumption.
Qed.

Lemma skipn_in {B : Type} (n : nat) (x : B) (l : list B) : In x (skipn n l) -> In x l.
Proof. intro H. rewrite <- (firstn_skipn n l). apply in_or_app; right; exact H. Qed.

Lemma Qlt_bool_Z (a b : Z) : Qlt_bool (inject_Z a) (inject_Z b) = (a <? b).
Proof.
  destruct (Qlt_bool (inject_Z a) (inject_Z b)) eqn:E; symmetry.
  - apply Qlt_bool_iff in E. rewrite <- Zlt_Qlt in E. apply Z.ltb_lt. exact E.
  - apply Z.ltb_ge. destruct (Z.lt_ge_cases a b) as [H|H]; [|exact H].
    rewrite Zlt_Qlt in H. apply Qlt_bool_iff in H. congruence.
Qed.

Lemma Qeq_bool_Z (a b : Z) : Qeq_bool (inject_Z a) (inject_Z b) = (a =? b).
Proof.
  destruct (Z.eqb_spec a b) as [->|Hne]; [apply Qeq_bool_refl|].
  apply not_true_iff_false. intro E. apply (proj1 (Qeq_bool_iff _ _)) in E.
  apply (proj1 (inject_Z_injective a b)) in E. contradiction.
Qed.

Lemma js_max_int (a b : Z) : js_max (Fin (inject_Z a)) (Fin (inject_Z b)) = Fin (inject_Z (Z.max a b)).
Proof.
  unfold js_max, js_lt. rewrite Qlt_bool_Z. destruct (Z.ltb_spec a b); f_equal; f_equal; lia.
Qed.

Lemma js_min_int (a b : Z) : js_min (Fin (inject_Z a)) (Fin (inject_Z b)) = Fin (inject_Z (Z.min a b)).
Proof.
  unfold js_min, js_lt. rewrite Qlt_bool_Z. destruct (Z.ltb_spec b a); f_equal; f_equal; lia.
Qed.

Lemma as_int_Z (m : Z) : Query.as_int (Fin (inject_Z m)) = Some m.
Proof. unfold Query.as_int. rewrite Qfloor_Z, Qeq_bool_refl. reflexivity. Qed.

Lemma parse_int_cases (s : string) : Query.parse_int s = NaN \/ exists k, Query.parse_int s = Fin (inject_Z k).
Proof.
  unfold Query.parse_int.
  repeat match goal with |- context [match ?X with pair _ _ => _ end] => destruct X end.
  destruct (Query.take_digits _ _); [left; reflexivity|].
  destruct (digits_value _ _ _); [right; eexists; reflexivity|left; reflexivity].
Qed.

Lemma effective_page_cases (ps : Query.Params) :
  Query.effective_page ps = NaN
  \/ exists p, Query.effective_page ps = Fin (inject_Z p) /\ 1 <= p.
Proof.
  unfold Query.effective_page.
  destruct (parse_int_cases (Query.or_default (Query.q_page ps) "1")) as [->|[k ->]]; [left; reflexivity|].
  right. exists (Z.max 1 k). split; [|lia]. apply (js_max_int 1 k).
Qed.

Lemma effective_limit_cases (ps : Query.Params) :
  Query.effective_limit ps = NaN
  \/ exists l, Query.effective_limit ps = Fin (inject_Z l) /\ 1 <= l <= 100.
Proof.
  unfold Query.effective_limit.
  destruct (parse_int_cases (Query.or_default (Query.q_limit ps) "10")) as [->|[k ->]]; [left; reflexivity|].
  right. exists (Z.min 100 (Z.max 1 k)). split; [|lia].
  change (Fin 1) with (Fin (inject_Z 1)). rewrite js_max_int. apply (js_min_int 100).
Qed.

Lemma handleGetFeedback_some (to_iso : Z -> string) (now : Z) (db : list Feedback)
  (ps : Query.Params) (rows : list Feedback) (pg : Query.Pagination) :
  Query.handleGetFeedback to_iso now db ps = Some (rows, pg) ->
  exists p l, Query.effective_page ps = Fin (inject_Z p) /\ 1 <= p
    /\ Query.effective_limit ps = Fin (inject_Z l) /\ 1 <= l <= 100
    /\ Query.list_feedback db (Query.build_where to_iso now ps) p l = (rows, pg).
Proof.
  unfold Query.handleGetFeedback. cbv zeta. intro H.
  destruct (effective_page_cases ps) as [Ep|[p [Ep Hp]]]; rewrite Ep in H; [discriminate|].
  destruct (effective_limit_cases ps) as [El|[l [El Hl]]]; rewrite El in H;
    rewrite as_int_Z in H; [discriminate|].
  rewrite as_int_Z in H.
  destruct (Query.as_int (Query.js_offset _ _)); [|discriminate].
  exists p, l. split; [exact Ep|]. split; [exact Hp|]. split; [exact El|]. split; [exact Hl|].
  congruence.
Qed.

(** A successful listing answers a page at least 1 and a limit in
    [1 .. 100], at most [limit] rows, each matching the [source],
    [sentiment] and [category] filters that are present, newest first. *)
Theorem listing_success (to_iso : Z -> string) (now : Z) (db : list Feedback)
  (ps : Query.Params) (rows : list Feedback) (pg : Query.Pagination)
  (H : Query.handleGetFeedback to_iso now db ps = Some (rows, pg)) :
  1 <= Query.page pg
  /\ 1 <= Query.limit pg <= 100
  /\ (List.length rows <= Z.to_nat (Query.limit pg))%nat
  /\ (forall f, In f rows ->
        (forall s, Query.present (Query.q_source ps) = Some s -> source f = s)
        /\ (forall s, Query.present (Query.q_sentiment ps) = Some s -> sentiment f = s)
        /\ (forall s, Query.present (Query.q_category ps) = Some s -> category f = s))
  /\ StronglySorted newer_eq rows.
Proof.
  destruct (handleGetFeedback_some _ _ _ _ _ _ H) as (p & l & _ & Hp & _ & Hl & Hlf).
  unfold Query.list_feedback in Hlf. cbv zeta in Hlf. injection Hlf as Hrows Hpg. subst rows pg.
  cbn [Query.page Query.limit].
  set (w := Query.build_where to_iso now ps) in *.
  unfold Query.data_query.
  split; [exact Hp|]. split; [exact Hl|]. split; [rewrite length_firstn; lia|]. split.
  - intros f Hf. apply firstn_in, skipn_in in Hf.
    apply (Permutation_in _ (order_desc_perm _)), filter_In in Hf as [_ Hw].
    unfold Query.eval_where in Hw. rewrite forallb_forall in Hw.
    split; [|split]; intros s Hs.
    + assert (Hc : In (Query.CSource s) w)
        by (unfold w, Query.build_where; rewrite Hs; apply in_or_app; left; left; reflexivity).
      apply Hw in Hc. apply String.eqb_eq. exact Hc.
    + assert (Hc : In (Query.CSentiment s) w)
        by (unfold w, Query.build_where; rewrite Hs; apply in_or_app; right;
            apply in_or_app; left; left; reflexivity).
      apply Hw in Hc. apply String.eqb_eq. exact Hc.
    + assert (Hc : In (Query.CCategory s) w)
        by (unfold w, Query.build_where; rewrite Hs; apply in_or_app; right;
            apply in_or_app; right; apply in_or_app; left; left; reflexivity).
      apply Hw in Hc. apply String.eqb_eq. exact Hc.
  - apply (sorted_app_left _ _ (skipn (Z.to_nat l) (skipn (Z.to_nat ((p - 1) * l))
      (Query.order_desc (filter (Query.eval_where w) db))))).
    rewrite firstn_skipn. apply sorted_skipn. apply order_desc_sorted.
Qed.

Lemma listing_success_witness :
  exists rows pg,
    Query.handleGetFeedback (fun _ => "") 0 [example_row 1 "negative" 4 ["ui"]]
      {| Query.q_source := Some "github"; Query.q_sentiment := None; Query.q_category := None;
         Query.q_priority := None; Query.q_dateRange := None;
         Query.q_page := None; Query.q_limit := None |} = Some (rows, pg)
    /\ 1 <= Query.page pg.
Proof.
  exists [example_row 1 "negative" 4 ["ui"]],
    {| Query.page := 1; Query.limit := 10; Query.total := 1; Query.totalPages := 1;
       Query.hasNext := false; Query.hasPrev := false |}.
  assert (H : Query.handleGetFeedback (fun _ => "") 0 [example_row 1 "negative" 4 ["ui"]]
      {| Query.q_source := Some "github"; Query.q_sentiment := None; Query.q_category := None;
         Query.q_priority := None; Query.q_dateRange := None;
         Query.q_page := None; Query.q_limit := None |}
      = Some ([example_row 1 "negative" 4 ["ui"]],
              {| Query.page := 1; Query.limit := 10; Query.total := 1; Query.totalPages := 1;
                 Query.hasNext := false; Query.hasPrev := false |}))
    by (vm_compute; reflexivity).
  split; [exact H|].
  exact (proj1 (listing_success _ _ _ _ _ _ H)).
Defined.

(** ** Dashboard *)

Lemma str_leb_common_prefix (d a b : string) :
  Query.str_leb (d ++ a) (d ++ b) = Query.str_leb a b.
Proof.
  induction d as [|x d IH]; [reflexivity|]. cbn [append Query.str_leb].
  rewrite Nat.ltb_irrefl. unfold ascii_eqb. rewrite Ascii.eqb_refl. exact IH.
Qed.

(** The date window of the listing compares text: [created_at] as SQLite's
    [datetime('now')] writes it, [YYYY-MM-DD HH:MM:SS], against the threshold
    [toISOString] gives, [YYYY-MM-DDTHH:MM:SS.sssZ]. A row stamped on the
    day of the threshold fails [created_at >= ?] whatever its time, since a
    space sorts before [T]: with [dateRange=24h] at 06:00, a row written at
    18:00 the day before, twelve hours earlier, is not listed. *)
Theorem date_range_same_day_excluded (to_iso : Z -> string) (now : Z) (ps : Query.Params)
  (v d r t : string) (f : Feedback)
  (Hv : Query.q_dateRange ps = Some v)
  (Hms : exists ms, Query.range_ms v = Some ms /\ to_iso (now - ms) = (d ++ "T" ++ r)%string)
  (Hc : created_at f = (d ++ " " ++ t)%string) :
  Query.eval_where (Query.build_where to_iso now ps) f = false.
Proof.
  destruct Hms as (ms & Hr & Hi).
  assert (Hin : In (Query.CCreatedFrom (to_iso (now - ms))) (Query.build_where to_iso now ps)).
  { unfold Query.build_where. rewrite Hv.
    assert (Hp : Query.present (Some v) = Some v).
    { unfold Query.present. destruct (String.eqb_spec v "") as [->|]; [discriminate Hr|reflexivity]. }
    rewrite Hp, Hr. repeat (apply in_or_app; right). left. reflexivity. }
  destruct (Query.eval_where (Query.build_where to_iso now ps) f) eqn:E; [|reflexivity].
  unfold Query.eval_where in E. rewrite forallb_forall in E.
  specialize (E _ Hin). cbn [Query.eval_cond] in E.
  rewrite Hi, Hc, str_leb_common_prefix in E. discriminate E.
Qed.

(** The CSV export asks for [limit=1000], but the listing caps the limit at
    100: the export holds the first 100 matching rows, newest first, while
    [total] counts all of them. *)
Theorem export_capped (to_iso : Z -> string) (now : Z) (db : list Feedback)
  (sentiment source dateRange category priority : string) :
  let ps := Dashboard.export_params sentiment source dateRange category priority in
  let all := Query.order_desc (filter (Query.eval_where (Query.build_where to_iso now ps)) db) in
  exists pg,
    Query.handleGetFeedback to_iso now db ps = Some (firstn 100 all, pg)
    /\ Query.page pg = 1 /\ Query.limit pg = 100
    /\ Query.total pg = Z.of_nat (List.length all).
Proof.
  cbv zeta.
  set (ps := Dashboard.export_params sentiment source dateRange category priority).
  unfold Query.handleGetFeedback. cbv zeta.
  replace (Query.effective_page ps) with (Fin 1) by reflexivity.
  replace (Query.effective_limit ps) with (Fin 100) by reflexivity.
  replace (Query.as_int (Query.js_offset (Fin 1) (Fin 100))) with (Some 0) by reflexivity.
  replace (Query.as_int (Fin 1)) with (Some 1) by reflexivity.
  replace (Query.as_int (Fin 100)) with (Some 100) by reflexivity.
  eexists. split; [reflexivity|]. split; [reflexivity|]. split; [reflexivity|].
  cbn [Query.total]. unfold Query.count_query. rewrite order_desc_length. reflexivity.
Qed.

(** The [High Priority] filter of the dashboard asks for [priority=4]: the
    listing matches the priority exactly, so every row shown has priority
    4 (rows of priority 5 never appear), and without a date range [total]
    is the number of priority-4 rows. *)
Theorem priority_filter_exact (to_iso : Z -> string) (now : Z) (db : list Feedback)
  (dateRange : string) :
  exists rows pg,
    Query.handleGetFeedback to_iso now db (Dashboard.priority_filter_params dateRange)
      = Some (rows, pg)
    /\ (forall f, In f rows -> priority f = 4)
    /\ (dateRange = "" ->
        Query.total pg = Z.of_nat (List.length (filter (fun f => priority f =? 4) db))).
Proof.
  set (ps := Dashboard.priority_filter_params dateRange).
  unfold Query.handleGetFeedback. cbv zeta.
  replace (Query.effective_page ps) with (Fin 1) by reflexivity.
  replace (Query.effective_limit ps) with (Fin 10) by reflexivity.
  replace (Query.as_int (Query.js_offset (Fin 1) (Fin 10))) with (Some 0) by reflexivity.
  replace (Query.as_int (Fin 1)) with (Some 1) by reflexivity.
  replace (Query.as_int (Fin 10)) with (Some 10) by reflexivity.
  set (w := Query.build_where to_iso now ps).
  assert (Hp4 : forall f, Query.eval_cond f (Query.CPriority (Query.parse_int "4")) = (priority f =? 4)).
  { intro f. change (Query.parse_int "4") with (Fin (inject_Z 4)). apply Qeq_bool_Z. }
  eexists. eexists. split; [reflexivity|]. split.
  - intros f Hf. unfold Query.list_feedback, Query.data_query in Hf. cbn [fst] in Hf.
    apply firstn_in, skipn_in in Hf.
    apply (Permutation_in _ (order_desc_perm _)), filter_In in Hf as [_ Hw].
    unfold Query.eval_where in Hw. rewrite forallb_forall in Hw.
    assert (Hc : In (Query.CPriority (Query.parse_int "4")) w)
      by (unfold w, ps, Query.build_where; cbn -[Query.parse_int]; left; reflexivity).
    apply Hw in Hc. rewrite Hp4 in Hc. apply Z.eqb_eq. exact Hc.
  - intro E. subst dateRange. cbn [Query.list_feedback snd Query.total]. unfold Query.count_query.
    replace w with [Query.CPriority (Query.parse_int "4")] by reflexivity.
    do 2 f_equal. apply filter_ext. intro f. unfold Query.eval_where. cbn [forallb]. rewrite Hp4. apply andb_true_r.
Qed.

(** ** Classifier gateway: the stored values *)

Lemma sanitize_priority_range (p : jsnum) :
  exists n, Gateway.sanitize_priority p = Fin (inject_Z n) /\ 1 <= n <= 5.
Proof.
  destruct p as [|q| |].
  - exists 3. split; [reflexivity|lia].
  - unfold Gateway.sanitize_priority, js_round. cbv zeta.
    set (k := Qfloor (q + (1 # 2))).
    change (js_truthy_num (Fin (inject_Z k))) with (negb (Qeq_bool (inject_Z k) (inject_Z 0))).
    rewrite Qeq_bool_Z. destruct (Z.eqb_spec k 0) as [_|Hk]; cbn [negb].
    + exists 3. split; [reflexivity|lia].
    + exists (Z.min 5 (Z.max 1 k)). split; [|lia].
      change (Fin 1) with (Fin (inject_Z 1)). rewrite js_max_int.
      change (Fin 5) with (Fin (inject_Z 5)). apply js_min_int.
  - exists 5. split; [reflexivity|lia].
  - exists 1. split; [reflexivity|lia].
Qed.

Lemma pick_In (valid : list string) (v : option json) (fallback : string) :
  In fallback valid -> In (Gateway.pick valid v fallback) valid.
Proof.
  intro H. unfold Gateway.pick. destruct v as [[| | |s| |]|]; try exact H.
  destruct (existsb (String.eqb s) valid) eqn:E; [|exact H].
  apply existsb_exists in E as [x [Hx Hs]]. apply String.eqb_eq in Hs. subst x. exact Hx.
Qed.

(** Whatever the model replies, the analysis has a sentiment among
    [positive], [negative], [neutral], a category among [bug], [feature],
    [praise], [complaint], and an integer priority in [1 .. 5]: the values
    bound to the [INSERT] meet the table's [CHECK] constraints. *)
Theorem analyzeFeedback_check (json_parse : string -> option json) (response : option string) :
  let a := Gateway.analyzeFeedback json_parse response in
  In (Gateway.sentiment a) ["positive"; "negative"; "neutral"]
  /\ In (Gateway.category a) ["bug"; "feature"; "praise"; "complaint"]
  /\ exists n, Gateway.priority a = Fin (inject_Z n) /\ 1 <= n <= 5.
Proof.
  cbv zeta. unfold Gateway.analyzeFeedback.
  assert (Hd : In (Gateway.sentiment Gateway.default_analysis) ["positive"; "negative"; "neutral"]
     /\ In (Gateway.category Gateway.default_analysis) ["bug"; "feature"; "praise"; "complaint"]
     /\ exists n, Gateway.priority Gateway.default_analysis = Fin (inject_Z n) /\ 1 <= n <= 5).
  { split; [simpl; auto|]. split; [simpl; auto|]. exists 3. split; [reflexivity|lia]. }
  destruct response as [text|]; [|exact Hd].
  destruct (Gateway.json_match text) as [m|]; [|exact Hd].
  destruct (json_parse m) as [analysis|]; [|exact Hd].
  destruct (Gateway.sanitize analysis) as [a|] eqn:E; [|exact Hd].
  unfold Gateway.sanitize in E.
  destruct (to_number (get_prop analysis "priority")) as [p|]; [|discriminate].
  destruct (Gateway.sanitize_themes (get_prop analysis "themes")) as [ts|]; [|discriminate].
  injection E as <-. cbn [Gateway.sentiment Gateway.category Gateway.priority].
  split; [apply pick_In; simpl; auto|]. split; [apply pick_In; simpl; auto|].
  apply sanitize_priority_range.
Qed.

(** ** Intake *)

Lemma json_null_dec (b : json) : b = JNull \/ b <> JNull.
Proof. destruct b; [left; reflexivity|right; discriminate..]. Qed.

Lemma post_nonnull (json_parse : string -> option json) (response : option string) (b : json) :
  b <> JNull ->
  Post.handlePostFeedback json_parse response (Some b)
  = match get_prop b "content" with
    | Some (JStr c) =>
        if String.eqb c "" then Post.PostBadRequest "content is required"
        else
          match get_prop b "source" with
          | Some (JStr s) =>
              if existsb (String.eqb s) Post.validSources
              then Post.PostCreated s c (Gateway.analyzeFeedback json_parse response)
              else Post.PostBadRequest Post.source_error
          | _ => Post.PostBadRequest Post.source_error
          end
    | _ => Post.PostBadRequest "content is required"
    end.
Proof. intro H. destruct b; [contradiction|reflexivity..]. Qed.

(** [handlePostFeedback] fails (500) exactly on a body that is not JSON or
    is [null]; it stores a record exactly when the body's [content] is a
    non-empty string and its [source] one of the four sources, with the
    analysis of the model's reply; otherwise it answers 400, complaining
    about [content] first. *)
Theorem post_feedback_outcome (json_parse : string -> option json) (response : option string)
  (body : option json) :
  match Post.handlePostFeedback json_parse response body with
  | Post.PostFailed => body = None \/ body = Some JNull
  | Post.PostBadRequest e =>
      exists b, body = Some b /\ b <> JNull
      /\ ((e = "content is required"
           /\ forall c, get_prop b "content" = Some (JStr c) -> c = "")
          \/ (e = Post.source_error
              /\ (exists c, get_prop b "content" = Some (JStr c) /\ c <> "")
              /\ forall s, get_prop b "source" = Some (JStr s) -> ~ In s Post.validSources))
  | Post.PostCreated s c a =>
      exists b, body = Some b
      /\ get_prop b "content" = Some (JStr c) /\ c <> ""
      /\ get_prop b "source" = Some (JStr s) /\ In s Post.validSources
      /\ a = Gateway.analyzeFeedback json_parse response
  end.
Proof.
  destruct body as [b|]; [|left; reflexivity].
  destruct (json_null_dec b) as [->|Hb]; [right; reflexivity|].
  rewrite (post_nonnull _ _ _ Hb).
  destruct (get_prop b "content") as [[| | |c| |]|] eqn:Ec; cbn iota beta;
    try (exists b; split; [reflexivity|]; split; [exact Hb|]; left;
         split; [reflexivity|]; intros c' Hc'; rewrite Ec in Hc'; discriminate Hc').
  destruct (String.eqb_spec c "") as [->|Hc].
  { exists b. split; [reflexivity|]. split; [exact Hb|]. left.
    split; [reflexivity|]. intros c' Hc'. congruence. }
  destruct (get_prop b "source") as [[| | |s| |]|] eqn:Es; cbn iota beta;
    try (exists b; split; [reflexivity|]; split; [exact Hb|]; right;
         split; [reflexivity|]; split; [exists c; split; [exact Ec|exact Hc]|];
         intros s' Hs'; rewrite Es in Hs'; discriminate Hs').
  destruct (existsb (String.eqb s) Post.validSources) eqn:Ev.
  - exists b. split; [reflexivity|]. split; [exact Ec|]. split; [exact Hc|].
    split; [exact Es|]. split; [|reflexivity].
    apply existsb_exists in Ev as [x [Hx Hs]]. apply String.eqb_eq in Hs. subst x. exact Hx.
  - exists b. split; [reflexivity|]. split; [exact Hb|]. right.
    split; [reflexivity|]. split; [exists c; split; [exact Ec|exact Hc]|].
    intros s' Hs' Hin. assert (s' = s) as -> by congruence.
    assert (existsb (String.eqb s) Post.validSources = true)
      by (apply existsb_exists; exists s; split; [exact Hin|apply String.eqb_refl]).
    congruence.
Qed.

(** ** Theme groups *)

Lemma fold_add_example_proj (ex : Themes.Example) (l : list string) (o : JsObj.t Themes.Group) :
  map group_proj (fold_left (Themes.add_example ex) l o) = fold_left tally_bump l (map group_proj o).
Proof.
  revert o. induction l as [|x r IH]; intro o; simpl; [reflexivity|].
  rewrite IH. f_equal. unfold Themes.add_example, tally_bump.
  rewrite (map_set_comm Themes.g_count). rewrite (get_map_comm Themes.g_count).
  destruct (JsObj.get x o); reflexivity.
Qed.

Lemma add_examples_fold (ex : Themes.Example) (ts : list string) (o : JsObj.t Themes.Group) :
  forallb (fun t => negb (JsObj.inherited t)) ts = true ->
  Themes.add_examples ex ts o = fold_left (Themes.add_example ex) ts o.
Proof.
  revert o. induction ts as [|t r IH]; intros o H; [reflexivity|].
  cbn [forallb] in H. apply andb_true_iff in H as [Ht Hr]. apply negb_true_iff in Ht.
  cbn [Themes.add_examples fold_left]. rewrite Ht.
  destruct (JsObj.get t o); apply IH; exact Hr.
Qed.

(** Without inherited keys every row runs to its end. *)
Lemma theme_groups_fold (rows : list Feedback) :
  proto_free rows = true ->
  Themes.theme_groups rows
  = fold_left (fun o f => fold_left (Themes.add_example (Themes.example_of f)) (row_themes f) o)
      rows [].
Proof.
  unfold proto_free, Themes.theme_groups, all_mentions. generalize (@nil (string * Themes.Group)).
  induction rows as [|f r IH]; intros o H; [reflexivity|].
  cbn [flat_map] in H. rewrite forallb_app in H. apply andb_true_iff in H as [Hf Hr].
  cbn [fold_left]. rewrite add_examples_fold by exact Hf. apply IH. exact Hr.
Qed.

Lemma theme_groups_proj (rows : list Feedback) :
  proto_free rows = true -> map group_proj (Themes.theme_groups rows) = theme_tally rows.
Proof.
  intro Hpf. rewrite (theme_groups_fold rows Hpf). unfold theme_tally. clear Hpf.
  change (@nil (string * Z)) with (map group_proj []).
  generalize (@nil (string * Themes.Group)).
  induction rows as [|f r IH]; intro o; simpl; [reflexivity|].
  rewrite <- (fold_add_example_proj (Themes.example_of f)). apply IH.
Qed.

Lemma insert_group_proj (x : string * Themes.Group) (l : list (string * Themes.Group)) :
  map group_proj (Themes.insert_group x l) = insert_desc (group_proj x) (map group_proj l).
Proof.
  induction l as [|y r IH]; simpl; [reflexivity|].
  destruct (_ <=? _); simpl; [reflexivity|]. rewrite IH. reflexivity.
Qed.

Lemma sort_groups_proj (l : list (string * Themes.Group)) :
  map group_proj (Themes.sort_groups l) = sort_desc (map group_proj l).
Proof.
  induction l as [|x r IH]; simpl; [reflexivity|]. rewrite insert_group_proj, IH. reflexivity.
Qed.

Lemma insert_group_perm (x : string * Themes.Group) (l : list (string * Themes.Group)) :
  Permutation (Themes.insert_group x l) (x :: l).
Proof.
  induction l as [|y r IH]; simpl; [reflexivity|].
  destruct (_ <=? _); [reflexivity|].
  etransitivity; [apply perm_skip; exact IH|]. apply perm_swap.
Qed.

Lemma sort_groups_perm (l : list (string * Themes.Group)) : Permutation (Themes.sort_groups l) l.
Proof.
  induction l as [|x r IH]; simpl; [reflexivity|].
  etransitivity; [apply insert_group_perm|]. apply perm_skip; exact IH.
Qed.

(** [/api/themes] lists the themes in the order and with the counts of
    the sorted theme index, so its first five entries are exactly the
    [topThemes] of [/api/insights]; it lists every theme that occurs, each
    with its number of occurrences. This holds when no theme names a member
    of [Object.prototype]. *)
Theorem themes_match_index (rows : list Feedback) (Hpf : proto_free rows = true) :
  let th := Themes.handleGetThemes rows in
  map (fun e => (Themes.te_theme e, CNum (Themes.te_count e))) th
    = sort_counts (JsObj.entries (count_themes rows))
  /\ map (fun e => (Themes.te_theme e, CNum (Themes.te_count e))) (firstn 5 th) = top_themes rows
  /\ (forall e, In e th ->
        Themes.te_count e = mentions (Themes.te_theme e) (all_mentions rows)
        /\ 0 < Themes.te_count e)
  /\ (forall t, 0 < mentions t (all_mentions rows) -> In t (map Themes.te_theme th)).
Proof.
  intro th.
  assert (H1 : map (fun e => (Themes.te_theme e, Themes.te_count e)) th
               = sort_desc (JsObj.entries (theme_tally rows))).
  { unfold th, Themes.handleGetThemes. rewrite map_map.
    change (map (fun x => (fst x, Themes.g_count (snd x))) ?l) with (map group_proj l).
    rewrite sort_groups_proj. unfold group_proj at 1.
    rewrite (entries_map Themes.g_count). fold group_proj.
    rewrite (theme_groups_proj rows Hpf). reflexivity. }
  assert (H2 : map (fun e => (Themes.te_theme e, CNum (Themes.te_count e))) th
               = map tag (sort_desc (JsObj.entries (theme_tally rows)))).
  { rewrite <- H1, map_map. reflexivity. }
  split; [rewrite H2, count_themes_tag, entries_tag, sort_counts_tag by exact Hpf; reflexivity|].
  split.
  { rewrite (top_themes_tag rows Hpf). unfold top_tally.
    rewrite <- firstn_map, H2, firstn_map. reflexivity. }
  split.
  - intros e He. apply (in_map (fun e => (Themes.te_theme e, Themes.te_count e))) in He.
    rewrite H1 in He. apply sorted_entries_counts in He. exact He.
  - intros t Ht.
    assert (Hin : In (t, mentions t (all_mentions rows)) (sort_desc (JsObj.entries (theme_tally rows))))
      by (apply sorted_entries_counts; split; [reflexivity|exact Ht]).
    rewrite <- H1 in Hin. apply in_map_iff in Hin as [e [He Hin]].
    apply in_map_iff. exists e. split; [|exact Hin]. injection He as He _. exact He.
Qed.

Lemma fold_add_example_examples (ex : Themes.Example) (l : list string) (o : JsObj.t Themes.Group)
  (t : string) :
  group_examples (fold_left (Themes.add_example ex) l o) t
  = (group_examples o t ++ map (fun _ => ex) (filter (String.eqb t) l))%list.
Proof.
  revert o. induction l as [|x r IH]; intro o; simpl; [rewrite app_nil_r; reflexivity|].
  rewrite IH. unfold group_examples at 1. unfold Themes.add_example. rewrite get_set.
  destruct (String.eqb_spec t x) as [->|Hne]; cbn [Themes.g_feedback map].
  - unfold group_examples. destruct (JsObj.get x o); cbn [Themes.g_feedback];
      rewrite <- app_assoc; reflexivity.
  - reflexivity.
Qed.

Lemma theme_groups_examples (rows : list Feedback) (t : string) :
  proto_free rows = true ->
  group_examples (Themes.theme_groups rows) t = occ_examples t rows.
Proof.
  intro Hpf. rewrite (theme_groups_fold rows Hpf). unfold occ_examples. clear Hpf.
  change (flat_map _ rows) with ((group_examples [] t ++ flat_map (fun f =>
    map (fun _ => Themes.example_of f) (filter (String.eqb t) (row_themes f))) rows)%list).
  generalize (@nil (string * Themes.Group)).
  induction rows as [|f r IH]; intro o; simpl; [rewrite app_nil_r; reflexivity|].
  rewrite IH, fold_add_example_examples, app_assoc. reflexivity.
Qed.

Lemma theme_groups_nodup (rows : list Feedback) :
  proto_free rows = true -> NoDup (map fst (Themes.theme_groups rows)).
Proof.
  intro Hpf.
  replace (map fst (Themes.theme_groups rows)) with (map fst (map group_proj (Themes.theme_groups rows)))
    by (rewrite map_map; reflexivity).
  rewrite (theme_groups_proj rows Hpf). apply count_themes_nodup.
Qed.

(** Each theme of [/api/themes] carries the first three of its
    occurrences in scan order, when no theme names a member of
    [Object.prototype]: a record listing the theme twice is one of its
    examples twice. *)
Theorem themes_examples (rows : list Feedback) (Hpf : proto_free rows = true) :
  (forall e, In e (Themes.handleGetThemes rows) ->
     Themes.te_feedback e = firstn 3 (occ_examples (Themes.te_theme e) rows))
  /\ map Themes.te_feedback (Themes.handleGetThemes [example_row 7 "neutral" 3 ["a"; "a"]])
     = [[Themes.example_of (example_row 7 "neutral" 3 ["a"; "a"]);
         Themes.example_of (example_row 7 "neutral" 3 ["a"; "a"])]].
Proof.
  split; [|reflexivity].
  intros e He. unfold Themes.handleGetThemes in He.
  apply in_map_iff in He as [[t g] [<- Hin]]. cbn [Themes.te_feedback Themes.te_theme fst snd].
  apply (Permutation_in _ (sort_groups_perm _)) in Hin.
  apply (In_entries _ _ _ (theme_groups_nodup rows Hpf)) in Hin.
  rewrite <- (theme_groups_examples rows t Hpf). unfold group_examples. rewrite Hin. reflexivity.
Qed.

(** ** Aggregate insights *)

Lemma prio_before_ranks (x y : Feedback) :
  Overview.prio_before x y = true -> ranks_ge x y.
Proof.
  unfold Overview.prio_before, ranks_ge. intro H.
  apply orb_true_iff in H as [H|H]; [left; apply Z.ltb_lt; exact H|].
  apply andb_true_iff in H as [H1 H2]. right. split; [apply Z.eqb_eq; exact H1|exact H2].
Qed.

Lemma prio_after_ranks (x y : Feedback) :
  Overview.prio_before x y = false -> ranks_ge y x.
Proof.
  unfold Overview.prio_before, ranks_ge. intro H.
  apply orb_false_iff in H as [H1 H2]. apply Z.ltb_ge in H1.
  destruct (Z.eqb_spec (priority y) (priority x)) as [E|E]; [|left; lia].
  cbn [andb] in H2. right. split; [lia|].
  destruct (str_leb_total (created_at y) (created_at x)) as [E'|E']; [congruence|exact E'].
Qed.

Lemma ranks_ge_trans (a b c : Feedback) : ranks_ge a b -> ranks_ge b c -> ranks_ge a c.
Proof.
  unfold ranks_ge. intros [H1|[H1 H1']] [H2|[H2 H2']]; try (left; lia).
  right. split; [lia|]. exact (str_leb_trans _ _ _ H2' H1').
Qed.

Lemma insert_prio_perm (x : Feedback) (l : list Feedback) :
  Permutation (Overview.insert_prio x l) (x :: l).
Proof.
  induction l as [|y r IH]; simpl; [reflexivity|].
  destruct (Overview.prio_before x y); [reflexivity|].
  etransitivity; [apply perm_skip; exact IH|]. apply perm_swap.
Qed.

Lemma order_prio_perm (l : list Feedback) : Permutation (Overview.order_prio l) l.
Proof.
  induction l as [|x r IH]; simpl; [reflexivity|].
  etransitivity; [apply insert_prio_perm|]. apply perm_skip; exact IH.
Qed.

Lemma insert_prio_sorted (x : Feedback) (l : list Feedback) :
  StronglySorted ranks_ge l -> StronglySorted ranks_ge (Overview.insert_prio x l).
Proof.
  induction l as [|y r IH]; simpl; intro H.
  - repeat constructor.
  - inversion H as [|? ? Hr Hy]; subst.
    destruct (Overview.prio_before x y) eqn:E.
    + apply prio_before_ranks in E. constructor; [exact H|]. constructor; [exact E|].
      eapply Forall_impl; [|exact Hy]. intros z Hz. exact (ranks_ge_trans _ _ _ E Hz).
    + apply prio_after_ranks in E. constructor; [exact (IH Hr)|].
      apply Forall_forall. intros z Hz.
      apply (Permutation_in _ (insert_prio_perm x r)) in Hz. destruct Hz as [<-|Hz].
      * exact E.
      * exact (proj1 (Forall_forall _ _) Hy z Hz).
Qed.

Lemma order_prio_sorted (l : list Feedback) : StronglySorted ranks_ge (Overview.order_prio l).
Proof.
  induction l as [|x r IH]; simpl; [constructor|]. apply insert_prio_sorted. exact IH.
Qed.

(** [highPriority] of [/api/insights]: at most 5 rows of priority 4 or 5,
    by priority then [created_at], both descending; all such rows when
    there are fewer than 5, and a row of priority 4 or 5 left out ranks no
    higher than any listed one. *)
Theorem high_priority_spec (db : list Feedback) :
  let hp := Overview.high_priority db in
  (List.length hp <= 5)%nat
  /\ (forall f, In f hp -> In f db /\ 4 <= priority f)
  /\ StronglySorted ranks_ge hp
  /\ (List.length hp = 5%nat \/ forall f, In f db -> 4 <= priority f -> In f hp)
  /\ (forall f g, In f hp -> In g db -> 4 <= priority g -> ~ In g hp -> ranks_ge f g).
Proof.
  intro hp. unfold hp, Overview.high_priority.
  set (S := Overview.order_prio (filter (fun f => 4 <=? priority f) db)).
  assert (HS : forall f, In f S <-> In f db /\ 4 <= priority f).
  { intro f. unfold S. split.
    - intro H. apply (Permutation_in _ (order_prio_perm _)), filter_In in H as [H1 H2].
      split; [exact H1|lia].
    - intros [H1 H2]. apply (Permutation_in _ (Permutation_sym (order_prio_perm _))).
      apply filter_In. split; [exact H1|lia]. }
  assert (Hsort : StronglySorted ranks_ge S) by apply order_prio_sorted.
  split; [rewrite length_firstn; lia|].
  split; [intros f H; apply HS, firstn_in with (n := 5%nat); exact H|].
  split; [apply (sorted_app_left _ _ (skipn 5 S)); rewrite firstn_skipn; exact Hsort|].
  split.
  { destruct (Nat.le_gt_cases (List.length S) 5) as [Hle|Hgt].
    - right. intros f Hf Hp. rewrite firstn_all2 by exact Hle. apply HS. split; assumption.
    - left. rewrite length_firstn. lia. }
  intros f g Hf Hg Hpg Hnot.
  assert (Hin : In g S) by (apply HS; split; assumption).
  rewrite <- (firstn_skipn 5 S) in Hin, Hsort. apply in_app_or in Hin as [Hin|Hin].
  - contradiction.
  - exact (sorted_app_rel _ _ _ _ _ Hsort Hf Hin).
Qed.

Lemma fold_bump_counts (l : list string) (k : string) (c : Z) :
  In (k, c) (fold_left tally_bump l []) <-> c = mentions k l /\ 0 < c.
Proof.
  assert (Hnd : NoDup (map fst (fold_left tally_bump l []))) by (apply fold_bump_nodup; constructor).
  pose proof (fold_bump_get l [] k) as Hg. cbn [JsObj.get] in Hg.
  pose proof (mentions_nonneg k l) as Hnn.
  split.
  - intro H. apply (In_get _ _ _ Hnd) in H. rewrite Hg in H.
    destruct (Z.eqb_spec (mentions k l) 0); [discriminate|]. injection H as <-. split; [reflexivity|lia].
  - intros [-> Hc]. apply get_In. rewrite Hg. destruct (Z.eqb_spec (mentions k l) 0); [lia|reflexivity].
Qed.

Lemma perm_get {A : Type} (l l' : JsObj.t A) (k : string) :
  NoDup (map fst l') -> Permutation l l' -> JsObj.get k l = JsObj.get k l'.
Proof.
  intros Hnd' Hp.
  assert (Hnd : NoDup (map fst l))
    by (apply (Permutation_NoDup (Permutation_map fst (Permutation_sym Hp))); exact Hnd').
  destruct (JsObj.get k l) as [v|] eqn:E.
  - symmetry. apply (In_get _ _ _ Hnd'). apply (Permutation_in _ Hp). apply get_In. exact E.
  - destruct (JsObj.get k l') as [v|] eqn:E'; [|reflexivity].
    apply get_In, (Permutation_in _ (Permutation_sym Hp)), (In_get _ _ _ Hnd) in E'. congruence.
Qed.

Lemma sentiment_counts_fold (grp : list (string * Z)) (a b c : Z) :
  fold_left (fun o r => match JsObj.get (fst r) o with
                        | Some _ => JsObj.set (fst r) (snd r) o
                        | None => o
                        end)
    grp [("positive", a); ("negative", b); ("neutral", c)]
  = [("positive", last_value "positive" grp a); ("negative", last_value "negative" grp b);
     ("neutral", last_value "neutral" grp c)].
Proof.
  unfold last_value. revert a b c. induction grp as [|[k v] r IH]; intros a b c; [reflexivity|].
  cbn [fold_left fst snd JsObj.get JsObj.set].
  destruct (String.eqb_spec k "positive") as [->|H1]; [apply IH|].
  destruct (String.eqb_spec k "negative") as [->|H2]; [apply IH|].
  destruct (String.eqb_spec k "neutral") as [->|H3]; apply IH.
Qed.

Lemma last_value_absent (k : string) (grp : list (string * Z)) (d : Z) :
  ~ In k (map fst grp) -> last_value k grp d = d.
Proof.
  unfold last_value. revert d. induction grp as [|[k' v] r IH]; intros d H; [reflexivity|].
  cbn [fold_left fst snd]. cbn [map fst In] in H.
  destruct (String.eqb_spec k' k) as [->|_]; [exfalso; apply H; left; reflexivity|].
  apply IH. intro H'. apply H. right. exact H'.
Qed.

Lemma last_value_get (k : string) (grp : list (string * Z)) (d : Z) :
  NoDup (map fst grp) ->
  last_value k grp d = match JsObj.get k grp with Some v => v | None => d end.
Proof.
  unfold last_value. revert d. induction grp as [|[k' v] r IH]; intros d Hnd; [reflexivity|].
  inversion Hnd as [|? ? Hnot Hnd']; subst.
  cbn [fold_left fst snd JsObj.get].
  destruct (String.eqb_spec k' k) as [->|Hne].
  - rewrite String.eqb_refl. apply last_value_absent. exact Hnot.
  - destruct (String.eqb_spec k k') as [->|_]; [contradiction|]. apply IH. exact Hnd'.
Qed.

Lemma group_count_value (key : Feedback -> string) (db : list Feedback)
  (grp : list (string * Z)) (k : string) :
  Permutation grp (Overview.group_count key db) ->
  last_value k grp 0 = mentions k (map key db).
Proof.
  intro Hp.
  assert (Hnd' : NoDup (map fst (Overview.group_count key db)))
    by (apply fold_bump_nodup; constructor).
  assert (Hnd : NoDup (map fst grp))
    by (apply (Permutation_NoDup (Permutation_map fst (Permutation_sym Hp))); exact Hnd').
  rewrite (last_value_get _ _ _ Hnd), (perm_get _ _ _ Hnd' Hp).
  unfold Overview.group_count. rewrite fold_bump_get. cbn [JsObj.get].
  destruct (Z.eqb_spec (mentions k (map key db)) 0); [lia|reflexivity].
Qed.

Lemma mentions_three (db : list Feedback) :
  (forall f, In f db -> In (sentiment f) ["positive"; "negative"; "neutral"]) ->
  mentions "positive" (map sentiment db) + mentions "negative" (map sentiment db)
  + mentions "neutral" (map sentiment db) = Z.of_nat (List.length db).
Proof.
  induction db as [|f r IH]; intro H; [reflexivity|].
  cbn [map List.length]. rewrite !mentions_cons.
  pose proof (IH (fun g Hg => H g (or_intror Hg))) as IH'.
  destruct (H f (or_introl eq_refl)) as [E|[E|[E|[]]]]; rewrite <- E;
    cbv [String.eqb Ascii.eqb Bool.eqb]; lia.
Qed.

(** [sentiment] of [/api/insights] holds, for each of the three
    sentiments, the number of rows that have it (0 when none does),
    whatever the order of the [GROUP BY] rows; values outside the three are
    dropped, and when every row has one of the three the counts add up to
    [total]. *)
Theorem insights_sentiment (db : list Feedback) (sgrp cgrp : list (string * Z))
  (Hs : Permutation sgrp (Overview.group_count sentiment db)) :
  let r := Overview.handleGetInsights db sgrp cgrp in
  let n s := mentions s (map sentiment db) in
  Overview.sentiment r = [("positive", n "positive"); ("negative", n "negative"); ("neutral", n "neutral")]
  /\ ((forall f, In f db -> In (sentiment f) ["positive"; "negative"; "neutral"]) ->
      n "positive" + n "negative" + n "neutral" = Overview.total r).
Proof.
  intros r n. split.
  - cbn [r Overview.handleGetInsights Overview.sentiment]. unfold Overview.sentiment_counts.
    rewrite sentiment_counts_fold. unfold n. rewrite !(group_count_value sentiment db sgrp) by exact Hs.
    reflexivity.
  - intro H. unfold n. cbn [r Overview.handleGetInsights Overview.total]. apply mentions_three. exact H.
Qed.

Lemma insights_sentiment_witness :
  Permutation [("negative", 2); ("positive", 1)]
    (Overview.group_count sentiment
       [example_row 1 "positive" 2 []; example_row 2 "negative" 4 []; example_row 3 "negative" 5 []])
  /\ Overview.sentiment (Overview.handleGetInsights
       [example_row 1 "positive" 2 []; example_row 2 "negative" 4 []; example_row 3 "negative" 5 []]
       [("negative", 2); ("positive", 1)] [])
     = [("positive", 1); ("negative", 2); ("neutral", 0)].
Proof.
  assert (Hp : Permutation [("negative", 2); ("positive", 1)]
    (Overview.group_count sentiment
       [example_row 1 "positive" 2 []; example_row 2 "negative" 4 []; example_row 3 "negative" 5 []]))
    by (vm_compute; apply perm_swap).
  split; [exact Hp|].
  exact (proj1 (insights_sentiment _ _ [] Hp)).
Defined.

Lemma set_fresh {A : Type} (k : string) (v : A) (o : JsObj.t A) :
  ~ In k (map fst o) -> JsObj.set k v o = (o ++ [(k, v)])%list.
Proof.
  induction o as [|[k' v'] r IH]; intro H; [reflexivity|].
  cbn [map fst In] in H. cbn [JsObj.set app].
  destruct (String.eqb_spec k k') as [->|_]; [exfalso; apply H; left; reflexivity|].
  rewrite IH; [reflexivity|]. intro H'; apply H; right; exact H'.
Qed.

Lemma fold_set_fresh (l o : list (string * Z)) :
  NoDup (map fst l) -> (forall k, In k (map fst l) -> ~ In k (map fst o)) ->
  fold_left (fun o r => JsObj.set (fst r) (snd r) o) l o = (o ++ l)%list.
Proof.
  revert o. induction l as [|[k v] r IH]; intros o Hnd Hfr; [rewrite app_nil_r; reflexivity|].
  inversion Hnd as [|? ? Hnot Hnd']; subst.
  cbn [fold_left fst snd]. rewrite set_fresh by (apply Hfr; left; reflexivity).
  rewrite IH; [rewrite <- app_assoc; reflexivity|exact Hnd'|].
  intros k' Hk' Hin. rewrite map_app in Hin. apply in_app_or in Hin as [Hin|[E|[]]].
  - exact (Hfr k' (or_intror Hk') Hin).
  - cbn [fst] in E. subst k'. exact (Hnot Hk').
Qed.

(** The top category of the dashboard ([loadInsights]) is a category held
    by the most rows, whatever the order of the [GROUP BY] rows; there is
    none exactly when there is no row. *)
Theorem top_category_max (db : list Feedback) (sgrp cgrp : list (string * Z))
  (Hc : Permutation cgrp (Overview.group_count category db)) :
  let n k := mentions k (map category db) in
  match Overview.top_category (Overview.categories (Overview.handleGetInsights db sgrp cgrp)) with
  | None => db = []
  | Some k => 0 < n k /\ forall k', n k' <= n k
  end.
Proof.
  intro n. cbn [Overview.handleGetInsights Overview.categories].
  assert (Hnd' : NoDup (map fst (Overview.group_count category db)))
    by (apply fold_bump_nodup; constructor).
  assert (Hnd : NoDup (map fst cgrp))
    by (apply (Permutation_NoDup (Permutation_map fst (Permutation_sym Hc))); exact Hnd').
  assert (Hcc : Overview.category_counts cgrp = cgrp)
    by (apply (fold_set_fresh cgrp []); [exact Hnd|intros k _ []]).
  rewrite Hcc. unfold Overview.top_category.
  assert (HS : forall k c, In (k, c) (sort_desc (JsObj.entries cgrp)) <-> c = n k /\ 0 < c).
  { intros k c. unfold n. rewrite <- fold_bump_counts. fold (Overview.group_count category db).
    split; intro H.
    - apply (Permutation_in _ Hc). apply (Permutation_in _ (entries_perm _)).
      apply (Permutation_in _ (sort_desc_perm _)). exact H.
    - apply (Permutation_in _ (Permutation_sym (sort_desc_perm _))).
      apply (Permutation_in _ (Permutation_sym (entries_perm _))).
      apply (Permutation_in _ (Permutation_sym Hc)). exact H. }
  pose proof (sort_desc_sorted (JsObj.entries cgrp)) as Hsort.
  destruct (sort_desc (JsObj.entries cgrp)) as [|[k c] rest] eqn:E.
  - destruct db as [|f r]; [reflexivity|exfalso].
    assert (Hm : 0 < n (category f)).
    { unfold n. cbn [map]. rewrite mentions_cons, String.eqb_refl.
      pose proof (mentions_nonneg (category f) (map category r)). lia. }
    destruct (proj2 (HS (category f) (n (category f))) (conj eq_refl Hm)).
  - destruct (proj1 (HS k c) (or_introl eq_refl)) as [Hck Hpos].
    split; [lia|]. intro k'.
    destruct (Z.eqb_spec (n k') 0) as [Z0|Z0]; [lia|].
    assert (Hin : In (k', n k') ((k, c) :: rest))
      by (apply HS; split; [reflexivity|unfold n in *; pose proof (mentions_nonneg k' (map category db)); lia]).
    inversion Hsort as [|? ? _ Hall]; subst.
    destruct Hin as [Hin|Hin].
    + injection Hin as E1 E2. subst k'. lia.
    + apply (proj1 (Forall_forall _ _) Hall) in Hin. unfold count_ge in Hin. cbn [snd] in Hin. lia.
Qed.

Lemma top_category_max_witness :
  Permutation [("feature", 1); ("bug", 2)] (Overview.group_count category category_rows)
  /\ forall k', mentions k' (map category category_rows) <= mentions "bug" (map category category_rows).
Proof.
  assert (Hp : Permutation [("feature", 1); ("bug", 2)] (Overview.group_count category category_rows))
    by (vm_compute; apply perm_swap).
  split; [exact Hp|].
  pose proof (top_category_max category_rows [] _ Hp) as H. cbv zeta in H.
  assert (E : Overview.top_category (Overview.categories
                (Overview.handleGetInsights category_rows [] [("feature", 1); ("bug", 2)])) = Some "bug")
    by (vm_compute; reflexivity).
  rewrite E in H. exact (proj2 H).
Defined.

(** ** Router and single items *)

Lemma list_ascii_app (s1 s2 : string) :
  list_ascii_of_string (s1 ++ s2) = (list_ascii_of_string s1 ++ list_ascii_of_string s2)%list.
Proof. induction s1 as [|c s IH]; simpl; [reflexivity|]. rewrite IH. reflexivity. Qed.

Lemma strip_prefix_app (p s : list ascii) : Router.strip_prefix p (p ++ s)%list = Some s.
Proof.
  induction p as [|c p IH]; simpl; [reflexivity|].
  unfold ascii_eqb. rewrite Ascii.eqb_refl. exact IH.
Qed.

Lemma strip_prefix_app_l (p1 p2 s t : list ascii) :
  Router.strip_prefix (p1 ++ p2)%list s = Some t -> exists u, Router.strip_prefix p1 s = Some u.
Proof.
  revert s. induction p1 as [|c p IH]; intros s H; simpl; [eauto|].
  destruct s as [|d s]; [discriminate|]. simpl in H.
  destruct (ascii_eqb c d); [exact (IH s H)|discriminate].
Qed.

Lemma id_match_api (p id : string) :
  Router.feedback_id_match p = Some id -> Router.starts_with "/api" p = true.
Proof.
  unfold Router.feedback_id_match, Router.starts_with.
  destruct (Router.strip_prefix _ _) eqn:E; [intros _|discriminate].
  change (list_ascii_of_string "/api/feedback/")
    with (list_ascii_of_string "/api" ++ list_ascii_of_string "/feedback/")%list in E.
  apply strip_prefix_app_l in E as [u ->]. reflexivity.
Qed.

Lemma id_match_neq (p id L : string) :
  Router.feedback_id_match p = Some id -> Router.feedback_id_match L = None ->
  String.eqb p L = false.
Proof. intros H1 H2. destruct (String.eqb_spec p L) as [->|]; congruence. Qed.

Lemma api_neq (p L : string) :
  Router.starts_with "/api" p = false -> Router.starts_with "/api" L = true ->
  String.eqb p L = false.
Proof. intros H1 H2. destruct (String.eqb_spec p L) as [->|]; congruence. Qed.

Lemma digit_not_special (c : ascii) :
  JsObj.is_dec_digit c = true ->
  is_js_ws c = false /\ ascii_eqb c "-"%char = false /\ ascii_eqb c "+"%char = false
  /\ is_char c "xX" = false.
Proof.
  destruct c as [[] [] [] [] [] [] [] []]; intro H; vm_compute in H;
    try discriminate; repeat split.
Qed.

Lemma take_digits_all (cs : list ascii) :
  forallb JsObj.is_dec_digit cs = true -> Query.take_digits 10 cs = cs.
Proof.
  induction cs as [|c r IH]; simpl; [reflexivity|].
  intro H. apply andb_true_iff in H as [Hc Hr]. unfold JsObj.is_dec_digit in Hc.
  destruct (digit_of 10 c); [|discriminate]. rewrite IH by exact Hr. reflexivity.
Qed.

Lemma digits_value_all (cs : list ascii) (acc : Z) :
  forallb JsObj.is_dec_digit cs = true -> exists v, digits_value 10 cs acc = Some v.
Proof.
  revert acc. induction cs as [|c r IH]; intros acc H; simpl; [eauto|].
  apply andb_true_iff in H as [Hc Hr]. unfold JsObj.is_dec_digit in Hc.
  destruct (digit_of 10 c); [|discriminate]. apply IH. exact Hr.
Qed.

Lemma parse_int_digits (cs : list ascii) :
  cs <> [] -> forallb JsObj.is_dec_digit cs = true ->
  exists v, digits_value 10 cs 0 = Some v
            /\ Query.parse_int (string_of_list_ascii cs) = Fin (inject_Z v).
Proof.
  destruct cs as [|c r]; [contradiction|]. intros _ Hd.
  destruct (digits_value_all (c :: r) 0 Hd) as [v Hv].
  exists v. split; [exact Hv|].
  pose proof Hd as Hd'. simpl in Hd'. apply andb_true_iff in Hd' as [Hc Hr].
  destruct (digit_not_special c Hc) as (Hws & Hm & Hp & _).
  unfold Query.parse_int. rewrite list_ascii_of_string_of_list_ascii.
  simpl drop_ws. rewrite Hws, Hm, Hp.
  assert (Hb : match r with
               | c1 :: r2 => if ascii_eqb c "0"%char && is_char c1 "xX" then (16, r2)
                             else (10, c :: r)
               | [] => (10, c :: r)
               end = (10, c :: r)).
  { destruct r as [|c1 r2]; [reflexivity|].
    simpl in Hr. apply andb_true_iff in Hr as [Hc1 _].
    destruct (digit_not_special c1 Hc1) as (_ & _ & _ & Hx).
    rewrite Hx, andb_false_r. reflexivity. }
  simpl. rewrite Hb. rewrite take_digits_all by exact Hd.
  simpl in Hv. rewrite Hv. destruct v; reflexivity.
Qed.

Lemma find_id_matches (v : Z) (db : list Detail.StoredRow) :
  find (Detail.id_matches (Fin (inject_Z v))) db
  = find (fun r => Store.id (Detail.row r) =? v) db.
Proof.
  induction db as [|r db IH]; simpl; [reflexivity|].
  rewrite Qeq_bool_Z, IH. reflexivity.
Qed.

(** The router answers every [OPTIONS] request with the
    CORS preflight and nothing else with it; it serves the dashboard
    exactly for the other methods on paths that do not start with [/api]. *)
Theorem route_preflight_dashboard (m p : string) :
  (Router.route m p = Router.Preflight <-> m = "OPTIONS")
  /\ (Router.route m p = Router.RDashboard
      <-> m <> "OPTIONS" /\ Router.starts_with "/api" p = false).
Proof.
  unfold Router.route. cbv zeta.
  destruct (String.eqb_spec m "OPTIONS") as [->|Hm].
  - split; split; try reflexivity; try discriminate. intros [H _]. contradiction.
  - destruct (Router.starts_with "/api" p) eqn:Hs.
    + assert (Hp : String.eqb p "/" = false).
      { destruct (String.eqb_spec p "/") as [->|]; [discriminate Hs|reflexivity]. }
      rewrite Hp. cbn [orb negb].
      split; split; try (intros [_ H]; discriminate); try (intro; contradiction);
        intro H;
        repeat match type of H with
        | context [if ?b then _ else _] => destruct b
        | context [match ?x with Some _ => _ | None => _ end] => destruct x
        end; discriminate.
    + rewrite (api_neq p "/api/feedback" Hs), (api_neq p "/api/insights" Hs),
        (api_neq p "/api/themes" Hs), (api_neq p "/api/ai-insights" Hs),
        (api_neq p "/api/seed" Hs) by reflexivity.
      destruct (Router.feedback_id_match p) eqn:Hi.
      { apply id_match_api in Hi. congruence. }
      cbn [andb orb negb]. rewrite orb_true_r.
      split; split; try discriminate; try (intro; contradiction); auto.
Qed.

Lemma route_digits (ds : string) (Hne : ds <> "")
  (Hd : forallb JsObj.is_dec_digit (list_ascii_of_string ds) = true) :
  Router.route "GET" ("/api/feedback/" ++ ds) = Router.RGetById ds
  /\ Router.route "PATCH" ("/api/feedback/" ++ ds) = Router.RPatchById ds
  /\ (forall m, m <> "GET" -> m <> "PATCH" -> m <> "OPTIONS" ->
      Router.route m ("/api/feedback/" ++ ds) = Router.RNotFound).
Proof.
  assert (Hl : list_ascii_of_string ds <> []).
  { intro E. apply Hne. rewrite <- (string_of_list_ascii_of_string ds), E. reflexivity. }
  assert (Hm : Router.feedback_id_match ("/api/feedback/" ++ ds) = Some ds).
  { unfold Router.feedback_id_match. rewrite list_ascii_app, strip_prefix_app.
    destruct (list_ascii_of_string ds) as [|c r] eqn:E; [contradiction|].
    rewrite Hd. rewrite <- E, string_of_list_ascii_of_string. reflexivity. }
  pose proof (id_match_api _ _ Hm) as Hapi.
  unfold Router.route. cbv zeta.
  rewrite (id_match_neq _ _ "/api/feedback" Hm), (id_match_neq _ _ "/api/insights" Hm),
    (id_match_neq _ _ "/api/themes" Hm), (id_match_neq _ _ "/api/ai-insights" Hm),
    (id_match_neq _ _ "/api/seed" Hm), (id_match_neq _ _ "/" Hm) by reflexivity.
  rewrite Hm, Hapi. cbn [andb orb negb].
  split; [reflexivity|]. split; [reflexivity|].
  intros m H1 H2 H3.
  rewrite (proj2 (String.eqb_neq _ _) H1), (proj2 (String.eqb_neq _ _) H2),
    (proj2 (String.eqb_neq _ _) H3).
  reflexivity.
Qed.

(** A path [/api/feedback/<digits>] (at most 15 digits,
    where [parseInt] is exact) routes to the single-item handlers for [GET]
    and [PATCH] and to the 404 answer for any other method but [OPTIONS];
    the [GET] answer is built from the first stored row whose id is the
    decimal value of the digits, leading zeros included. *)
Theorem feedback_by_id_route (ds : string) (db : list Detail.StoredRow)
  (Hne : ds <> "") (Hd : forallb JsObj.is_dec_digit (list_ascii_of_string ds) = true)
  (Hlen : (String.length ds <= 15)%nat) :
  exists v, digits_value 10 (list_ascii_of_string ds) 0 = Some v
  /\ Router.route "GET" ("/api/feedback/" ++ ds) = Router.RGetById ds
  /\ Router.route "PATCH" ("/api/feedback/" ++ ds) = Router.RPatchById ds
  /\ (forall m, m <> "GET" -> m <> "PATCH" -> m <> "OPTIONS" ->
      Router.route m ("/api/feedback/" ++ ds) = Router.RNotFound)
  /\ Detail.handleGetFeedbackById ds db
     = Detail.by_id_response (find (fun r => Store.id (Detail.row r) =? v) db).
Proof.
  assert (Hl : list_ascii_of_string ds <> []).
  { intro E. apply Hne. rewrite <- (string_of_list_ascii_of_string ds), E. reflexivity. }
  destruct (parse_int_digits _ Hl Hd) as [v [Hv Hp]].
  rewrite string_of_list_ascii_of_string in Hp.
  exists v. split; [exact Hv|].
  destruct (route_digits ds Hne Hd) as (R1 & R2 & R3).
  split; [exact R1|]. split; [exact R2|]. split; [exact R3|].
  unfold Detail.handleGetFeedbackById. rewrite Hp, find_id_matches. reflexivity.
Qed.

Section Update.

Variables (p : Detail.StoredRow -> bool) (u : Detail.StoredRow -> Detail.StoredRow).
Hypothesis Hrow : forall r, Detail.row (u r) = Detail.row r.
Hypothesis Hfix : forall r, p r = false -> u r = r.
Hypothesis Hp : forall r, p (u r) = p r.

Lemma update_rows (db : list Detail.StoredRow) :
  map Detail.row (map u db) = map Detail.row db.
Proof. rewrite map_map. apply map_ext. exact Hrow. Qed.

Lemma update_others (db : list Detail.StoredRow) (i : nat) (r : Detail.StoredRow) :
  nth_error db i = Some r -> p r = false -> nth_error (map u db) i = Some r.
Proof. intros H1 H2. rewrite nth_error_map, H1. simpl. rewrite Hfix by exact H2. reflexivity. Qed.

Lemma update_find (db : list Detail.StoredRow) :
  find p (map u db) = option_map u (find p db).
Proof.
  induction db as [|r db IH]; simpl; [reflexivity|].
  rewrite Hp. destruct (p r); [reflexivity|exact IH].
Qed.

Lemma update_none (db : list Detail.StoredRow) :
  find p db = None -> map u db = db.
Proof.
  induction db as [|r db IH]; simpl; [reflexivity|].
  destruct (p r) eqn:E; [discriminate|]. intro H. rewrite Hfix by exact E. f_equal. exact (IH H).
Qed.

End Update.

Lemma patch_nonnull (id now : string) (b : json) (db : list Detail.StoredRow) :
  b <> JNull ->
  Detail.handlePatchFeedback id (Some b) now db
  = match get_prop b "addressed" with
    | Some (JBool v) =>
        let n := Query.parse_int id in
        let db' :=
          map (fun r => if Detail.id_matches n r
                        then {| Detail.row := Detail.row r;
                                Detail.addressed := if v then 1 else 0;
                                Detail.addressed_at := if v then Some now else None |}
                        else r) db in
        match find (Detail.id_matches n) db' with
        | Some r =>
            match themes (Detail.row r) with
            | Some _ => (Detail.PatchOk r, db')
            | None => (Detail.PatchFailed, db')
            end
        | None => (Detail.PatchNotFound, db')
        end
    | _ => (Detail.PatchBadRequest, db)
    end.
Proof. destruct b; [contradiction|reflexivity..]. Qed.

(** [PATCH /api/feedback/:id] never changes the feedback
    itself nor any row whose id differs; a body without a boolean
    [addressed] (400) or a missing id (404) leaves the table unchanged; a
    500 answer comes from a body that is not an object or from a stored
    [themes] column that does not parse, in which case the update is made
    and a later [GET] fails as well; on success the answer is the updated
    row, the one a later [GET] returns, with [addressed] 1 and the time for
    [true], 0 and null for [false]. *)
Theorem patch_feedback_outcome (id now : string) (body : option json)
  (db : list Detail.StoredRow) :
  let '(res, db') := Detail.handlePatchFeedback id body now db in
  map Detail.row db' = map Detail.row db
  /\ (forall i r, nth_error db i = Some r ->
      Detail.id_matches (Query.parse_int id) r = false -> nth_error db' i = Some r)
  /\ match res with
     | Detail.PatchFailed =>
         (db' = db /\ (body = None \/ body = Some JNull))
         \/ (exists b v, body = Some b /\ get_prop b "addressed" = Some (JBool v)
             /\ Detail.handleGetFeedbackById id db' = Detail.ByIdFailed)
     | Detail.PatchBadRequest =>
         db' = db /\ exists b, body = Some b /\ b <> JNull
                               /\ forall v, get_prop b "addressed" <> Some (JBool v)
     | Detail.PatchNotFound =>
         db' = db /\ Detail.handleGetFeedbackById id db = Detail.ByIdNotFound
     | Detail.PatchOk r =>
         exists b v r0, body = Some b /\ get_prop b "addressed" = Some (JBool v)
         /\ Detail.handleGetFeedbackById id db = Detail.ByIdOk r0
         /\ Detail.handleGetFeedbackById id db' = Detail.ByIdOk r
         /\ Detail.row r = Detail.row r0
         /\ Detail.addressed r = (if v then 1 else 0)
         /\ Detail.addressed_at r = (if v then Some now else None)
     end.
Proof.
  destruct body as [b|].
  2:{ cbn. split; [reflexivity|split; [intros; assumption|auto]]. }
  destruct (json_null_dec b) as [->|Hb].
  { cbn. split; [reflexivity|split; [intros; assumption|left; auto]]. }
  rewrite (patch_nonnull id now b db Hb).
  destruct (get_prop b "addressed") as [j|] eqn:Eg.
  2:{ cbv beta iota. split; [reflexivity|split; [intros; assumption|]].
      split; [reflexivity|]. exists b. split; [reflexivity|split; [exact Hb|]].
      intros v E. congruence. }
  destruct j as [| v | | | |];
    try (cbv beta iota; split; [reflexivity|split; [intros; assumption|]];
         split; [reflexivity|]; exists b; split; [reflexivity|split; [exact Hb|]];
         intros v' E; congruence).
  cbv beta zeta.
  set (n := Query.parse_int id).
  match goal with |- context [find _ (map ?f db)] => set (upd := f) end.
  assert (Hrow : forall r, Detail.row (upd r) = Detail.row r).
  { intro r. unfold upd. destruct (Detail.id_matches n r); reflexivity. }
  assert (Hfix : forall r, Detail.id_matches n r = false -> upd r = r).
  { intros r E. unfold upd. rewrite E. reflexivity. }
  assert (Hp : forall r, Detail.id_matches n (upd r) = Detail.id_matches n r).
  { intro r. unfold upd. destruct (Detail.id_matches n r) eqn:E; [exact E|exact E]. }
  rewrite (update_find _ _ Hp db).
  destruct (find (Detail.id_matches n) db) as [r0|] eqn:Ef; cbn [option_map].
  - rewrite Hrow.
    pose proof (find_some _ _ Ef) as [_ Hm].
    destruct (themes (Detail.row r0)) as [t|] eqn:Et;
      (split; [exact (update_rows _ Hrow db)|]);
      (split; [intros i r; exact (update_others _ _ Hfix db i r)|]).
    + exists b, v, r0. split; [reflexivity|]. split; [exact Eg|].
      unfold Detail.handleGetFeedbackById, Detail.by_id_response. fold n.
      split; [rewrite Ef, Et; reflexivity|].
      split; [rewrite (update_find _ _ Hp db), Ef; cbn [option_map]; rewrite Hrow, Et;
              reflexivity|].
      unfold upd. rewrite Hm. repeat split; reflexivity.
    + right. exists b, v. split; [reflexivity|]. split; [exact Eg|].
      unfold Detail.handleGetFeedbackById, Detail.by_id_response. fold n.
      rewrite (update_find _ _ Hp db), Ef. cbn [option_map]. rewrite Hrow, Et. reflexivity.
  - rewrite (update_none _ _ Hfix db Ef).
    split; [reflexivity|]. split; [intros; assumption|].
    split; [reflexivity|].
    unfold Detail.handleGetFeedbackById, Detail.by_id_response. fold n. rewrite Ef.
    reflexivity.
Qed.

(** [PATCH] keeps the review columns consistent: if every
    row is addressed exactly when it has an [addressed_at] time, so is every
    row of the table afterwards. *)
Theorem patch_keeps_consistent (id now : string) (body : option json)
  (db : list Detail.StoredRow)
  (Hc : forall r, In r db -> addressed_consistent r) :
  forall r, In r (snd (Detail.handlePatchFeedback id body now db)) -> addressed_consistent r.
Proof.
  destruct body as [b|]; [|exact Hc].
  destruct (json_null_dec b) as [->|Hb]; [exact Hc|].
  rewrite (patch_nonnull id now b db Hb).
  destruct (get_prop b "addressed") as [[| v | | | |]|]; try exact Hc.
  cbv beta zeta.
  intros r Hr.
  assert (Hin : In r (map (fun r => if Detail.id_matches (Query.parse_int id) r
                        then {| Detail.row := Detail.row r;
                                Detail.addressed := if v then 1 else 0;
                                Detail.addressed_at := if v then Some now else None |}
                        else r) db)).
  { destruct (find _ _) as [x|]; [destruct (themes (Detail.row x))|]; exact Hr. }
  apply in_map_iff in Hin as [r0 [<- Hr0]].
  destruct (Detail.id_matches (Query.parse_int id) r0); [|exact (Hc r0 Hr0)].
  unfold addressed_consistent. destruct v; simpl; [left|right]; split; congruence.
Qed.

Lemma feedback_by_id_route_witness :
  exists v, digits_value 10 (list_ascii_of_string "002") 0 = Some v
  /\ Router.route "GET" ("/api/feedback/" ++ "002") = Router.RGetById "002"
  /\ Router.route "PATCH" ("/api/feedback/" ++ "002") = Router.RPatchById "002"
  /\ (forall m, m <> "GET" -> m <> "PATCH" -> m <> "OPTIONS" ->
      Router.route m ("/api/feedback/" ++ "002") = Router.RNotFound)
  /\ Detail.handleGetFeedbackById "002" detail_rows
     = Detail.by_id_response (find (fun r => Store.id (Detail.row r) =? v) detail_rows).
Proof.
  apply (feedback_by_id_route "002" detail_rows).
  - discriminate.
  - vm_compute. reflexivity.
  - simpl. lia.
Defined.

Lemma patch_keeps_consistent_witness :
  (forall r, In r detail_rows -> addressed_consistent r)
  /\ forall r, In r (snd (Detail.handlePatchFeedback "2" (Some (JObj [("addressed", JBool true)]))
                        "2024-02-01T00:00:00.000Z" detail_rows)) ->
     addressed_consistent r.
Proof.
  assert (Hc : forall r, In r detail_rows -> addressed_consistent r).
  { simpl. intros r [<-|[<-|[<-|[]]]]; right; split; reflexivity. }
  split; [exact Hc|exact (patch_keeps_consistent _ _ _ _ Hc)].
Defined.

(** ** Pagination bar *)

Lemma z_range_in (s e x : Z) : In x (Client.z_range s e) <-> s <= x <= e.
Proof.
  unfold Client.z_range. rewrite in_map_iff. split.
  - intros [k [<- Hk]]. apply in_seq in Hk. lia.
  - intro H. exists (Z.to_nat (x - s)). split; [lia|]. apply in_seq. lia.
Qed.

Lemma z_range_nodup (s e : Z) : NoDup (Client.z_range s e).
Proof.
  unfold Client.z_range. apply Finite.Injective_map_NoDup; [|apply seq_NoDup].
  intros a b H. lia.
Qed.

Lemma z_range_empty (s e : Z) : e < s -> Client.z_range s e = [].
Proof. intro H. unfold Client.z_range. replace (Z.to_nat (e - s + 1)) with O by lia. reflexivity. Qed.

Lemma z_range_cons (s e : Z) : s <= e -> Client.z_range s e = s :: Client.z_range (s + 1) e.
Proof.
  intro H. unfold Client.z_range.
  replace (Z.to_nat (e - s + 1)) with (S (Z.to_nat (e - (s + 1) + 1))) by lia.
  simpl. rewrite Z.add_0_r. f_equal.
  rewrite <- seq_shift, map_map. apply map_ext. intro k. lia.
Qed.

Lemma z_range_snoc (s e : Z) : s <= e -> Client.z_range s e = (Client.z_range s (e - 1) ++ [e])%list.
Proof.
  intro H. unfold Client.z_range.
  replace (Z.to_nat (e - s + 1)) with (S (Z.to_nat (e - 1 - s + 1))) by lia.
  rewrite seq_S, map_app. f_equal. simpl. f_equal. lia.
Qed.

Lemma filter_eq_none (x : Z) (l : list Z) :
  ~ In x l -> filter (fun i => i =? x) l = [].
Proof.
  induction l as [|a l IH]; intro Hx; [reflexivity|]. simpl.
  destruct (Z.eqb_spec a x) as [->|]; [exfalso; apply Hx; left; reflexivity|].
  apply IH. intro H. apply Hx. right. exact H.
Qed.

Lemma filter_eq_single (x : Z) (l : list Z) :
  NoDup l -> In x l -> filter (fun i => i =? x) l = [x].
Proof.
  induction l as [|a l IH]; intros Hn Hx; [destruct Hx|].
  inversion Hn as [|? ? Ha Hl]; subst. simpl.
  destruct (Z.eqb_spec a x) as [->|Hax].
  - f_equal. apply filter_eq_none. exact Ha.
  - destruct Hx as [->|Hx]; [contradiction|]. exact (IH Hl Hx).
Qed.

Lemma filter_active_map (page : Z) (l : list Z) :
  filter item_active (map (fun i => Client.PageButton i (i =? page)) l)
  = map (fun i => Client.PageButton i true) (filter (fun i => i =? page) l).
Proof.
  induction l as [|a l IH]; [reflexivity|]. simpl.
  destruct (a =? page) eqn:E; simpl; rewrite IH; [|reflexivity].
  apply Z.eqb_eq in E. subst. reflexivity.
Qed.

Lemma marked_range (page p e : Z) (rest : list Client.PageItem) :
  p <= e ->
  marked_from p (map (fun i => Client.PageButton i (i =? page)) (Client.z_range (p + 1) e) ++ rest)
  = marked_from e rest.
Proof.
  remember (Z.to_nat (e - p)) as n eqn:Hn. revert p Hn.
  induction n as [|n IH]; intros p Hn Hp.
  - replace e with p by lia. rewrite z_range_empty by lia. reflexivity.
  - rewrite z_range_cons by lia. simpl. rewrite Z.eqb_refl. simpl.
    apply IH; lia.
Qed.

Lemma window_bounds (page tp : Z) :
  1 <= tp -> 1 <= page ->
  let '(s, e) := Client.page_window page tp in
  1 <= s <= e /\ e <= tp
  /\ (page <= tp -> s <= page <= e /\ e - s + 1 = Z.min 5 tp).
Proof.
  intros Ht Hp. unfold Client.page_window, Client.maxVisiblePages.
  change (5 / 2) with 2. cbv zeta.
  destruct (Z.ltb_spec (Z.min tp (Z.max 1 (page - 2) + 5 - 1) - Z.max 1 (page - 2)) (5 - 1));
    lia.
Qed.

Lemma page_items_tail (page s e tp : Z) :
  e <= tp ->
  marked_from e (if e <? tp
                 then ((if e <? tp - 1 then [Client.Ellipsis] else [])
                       ++ [Client.PageButton tp false])%list
                 else []) = true.
Proof.
  intro H. destruct (Z.ltb_spec e tp); [|reflexivity].
  destruct (Z.ltb_spec e (tp - 1)); simpl.
  - rewrite andb_true_r. apply Z.ltb_lt. lia.
  - rewrite andb_true_r. apply Z.eqb_eq. lia.
Qed.

Lemma page_items_active_ends (page s e tp : Z) :
  filter item_active
    (if 1 <? s then Client.PageButton 1 false :: (if 2 <? s then [Client.Ellipsis] else []) else [])
  = []
  /\ filter item_active
       (if e <? tp
        then ((if e <? tp - 1 then [Client.Ellipsis] else []) ++ [Client.PageButton tp false])%list
        else []) = [].
Proof. destruct (1 <? s), (2 <? s), (e <? tp), (e <? tp - 1); split; reflexivity. Qed.

(** For a page within [1 .. totalPages] the page bar of
    [renderPagination] starts with page 1 and ends with the last page, shows
    consecutive pages as adjacent buttons and puts a [...] exactly where
    pages are skipped, and gives the active style to exactly one button,
    the current page's: the bar starts with the button of page 1. *)
Theorem page_items_in_range (page tp : Z) (H1 : 1 <= page) (H2 : page <= tp) :
  (exists a rest, Client.page_items page tp = Client.PageButton 1 a :: rest)
  /\ marked_from 0 (Client.page_items page tp) = true
  /\ (exists pre a, Client.page_items page tp = (pre ++ [Client.PageButton tp a])%list)
  /\ filter item_active (Client.page_items page tp) = [Client.PageButton page true].
Proof.
  pose proof (window_bounds page tp ltac:(lia) H1) as W.
  unfold Client.page_items. destruct (Client.page_window page tp) as [s e].
  destruct W as (Hs & Het & Hin). destruct (Hin H2) as [Hspe _].
  pose proof (page_items_tail page s e tp Het) as Ht.
  destruct (page_items_active_ends page s e tp) as [Ea Eb].
  split.
  { destruct (Z.ltb_spec 1 s).
    - eexists. eexists. reflexivity.
    - replace s with 1 by lia. rewrite (z_range_cons 1 e) by lia.
      eexists. eexists. reflexivity. }
  split; [|split].
  - destruct (Z.ltb_spec 1 s); [destruct (Z.ltb_spec 2 s)|].
    + rewrite (z_range_cons s e) by lia. cbn [app map marked_from].
      rewrite (marked_range page s e) by lia. rewrite Ht.
      rewrite andb_true_r. apply andb_true_iff. split; [reflexivity|apply Z.ltb_lt; lia].
    + replace s with (1 + 1) by lia.
      cbn [app marked_from]. rewrite (marked_range page 1 e) by lia. exact Ht.
    + replace s with (0 + 1) by lia.
      cbn [app]. rewrite (marked_range page 0 e) by lia. exact Ht.
  - destruct (Z.ltb_spec e tp).
    + eexists. exists false. rewrite !app_assoc. reflexivity.
    + replace e with tp in * by lia. rewrite app_nil_r.
      rewrite (z_range_snoc s tp) by lia. rewrite map_app, app_assoc.
      eexists. eexists. reflexivity.
  - rewrite !filter_app, Ea, Eb, filter_active_map, filter_eq_single.
    + reflexivity.
    + apply z_range_nodup.
    + apply z_range_in. lia.
Qed.

(** When the current page lies past the last page (a
    [page] parameter above [totalPages]), no button of the page bar has the
    active style. *)
Theorem page_items_past_end (page tp : Z) (H1 : 1 <= tp) (H2 : tp < page) :
  filter item_active (Client.page_items page tp) = [].
Proof.
  pose proof (window_bounds page tp H1 ltac:(lia)) as W.
  unfold Client.page_items. destruct (Client.page_window page tp) as [s e].
  destruct W as (Hs & Het & _).
  destruct (page_items_active_ends page s e tp) as [Ea Eb].
  rewrite !filter_app, Ea, Eb, filter_active_map, filter_eq_none; [reflexivity|].
  rewrite z_range_in. lia.
Qed.

Lemma ceil_div_mul_bounds (n l : Z) :
  0 <= n -> 1 <= l ->
  l * Query.ceil_div n l <= n + l - 1 /\ n <= l * Query.ceil_div n l.
Proof.
  intros Hn Hl. unfold Query.ceil_div.
  pose proof (Z.div_mod (n + l - 1) l ltac:(lia)).
  pose proof (Z.mod_pos_bound (n + l - 1) l ltac:(lia)).
  lia.
Qed.

(** The text [Showing start-end of total results] that
    [renderPagination] writes for a page of the listing: the container is
    hidden exactly when no row matches; [total] is the number of matching
    rows; for a page up to [totalPages], [end - start + 1] is the number of
    rows shown; past the last page no row is shown and [start] exceeds
    [end]. *)
Theorem pagination_info (db : list Feedback) (w : list Query.Cond) (page limit : Z)
  (Hl : 1 <= limit) (Hp : 1 <= page) :
  let '(rows, pg) := Query.list_feedback db w page limit in
  match Client.renderPagination pg with
  | None => rows = [] /\ filter (Query.eval_where w) db = []
  | Some rp =>
      filter (Query.eval_where w) db <> []
      /\ Client.info_total rp = Z.of_nat (List.length (filter (Query.eval_where w) db))
      /\ (page <= Query.totalPages pg ->
          Client.info_end rp - Client.info_start rp + 1 = Z.of_nat (List.length rows))
      /\ (Query.totalPages pg < page ->
          rows = [] /\ Client.info_end rp < Client.info_start rp)
  end.
Proof.
  unfold Query.list_feedback, Client.renderPagination, Query.count_query, Query.data_query.
  cbn [Query.total Query.page Query.limit Query.totalPages].
  set (L := filter (Query.eval_where w) db).
  destruct (Z.eqb_spec (Z.of_nat (List.length L)) 0) as [H0|H0].
  - assert (EL : L = []) by (apply length_zero_iff_nil; lia).
    rewrite EL. simpl. rewrite skipn_nil, firstn_nil. split; reflexivity.
  - cbn [Client.info_total Client.info_start Client.info_end].
    pose proof (ceil_div_mul_bounds (Z.of_nat (List.length L)) limit ltac:(lia) Hl) as [Hc1 Hc2].
    set (tp := Query.ceil_div (Z.of_nat (List.length L)) limit) in *.
    split; [intro E; apply H0; rewrite E; reflexivity|].
    split; [reflexivity|split].
    + intro Hpt. rewrite length_firstn, length_skipn, order_desc_length.
      assert (page * limit <= limit * tp) by (rewrite (Z.mul_comm limit); apply Z.mul_le_mono_nonneg_r; lia).
      assert (0 <= (page - 1) * limit) by (apply Z.mul_nonneg_nonneg; lia). lia.
    + intro Hpt. assert (Hoff : Z.of_nat (List.length L) <= (page - 1) * limit) by nia.
      rewrite skipn_all2 by (rewrite order_desc_length; lia).
      rewrite firstn_nil. split; [reflexivity|lia].
Qed.

(** ** Relative times and the CSV export *)

(** [getRelativeTime] says [Just now] for any date less
    than a minute old, dates in the future included, and says
    [0 months ago] for dates 28 or 29 days old (four weeks are not
    [< 4] weeks, and fewer than 30 days make zero months). *)
Theorem relative_time_edges (locale_date : string) (d : Z) :
  (d < 60000 -> Client.getRelativeTime locale_date d = "Just now")
  /\ (28 * Query.day_ms <= d < 30 * Query.day_ms ->
      Client.getRelativeTime locale_date d = "0 months ago").
Proof.
  unfold Client.getRelativeTime. cbv zeta. split; intro H.
  - replace (d / 1000 <? 60) with true; [reflexivity|].
    symmetry. apply Z.ltb_lt. apply Z.div_lt_upper_bound; lia.
  - unfold Query.day_ms in H.
    pose proof (Z.div_mod d 1000 ltac:(lia)). pose proof (Z.mod_pos_bound d 1000 ltac:(lia)).
    set (s := d / 1000) in *.
    pose proof (Z.div_mod s 60 ltac:(lia)). pose proof (Z.mod_pos_bound s 60 ltac:(lia)).
    set (m := s / 60) in *.
    pose proof (Z.div_mod m 60 ltac:(lia)). pose proof (Z.mod_pos_bound m 60 ltac:(lia)).
    set (h := m / 60) in *.
    pose proof (Z.div_mod h 24 ltac:(lia)). pose proof (Z.mod_pos_bound h 24 ltac:(lia)).
    set (q := h / 24) in *.
    assert (Hq : 28 <= q <= 29) by lia.
    replace (s <? 60) with false by (symmetry; apply Z.ltb_ge; lia).
    replace (m <? 60) with false by (symmetry; apply Z.ltb_ge; lia).
    replace (h <? 24) with false by (symmetry; apply Z.ltb_ge; lia).
    replace (q =? 1) with false by (symmetry; apply Z.eqb_neq; lia).
    replace (q <? 7) with false by (symmetry; apply Z.ltb_ge; lia).
    replace (q / 7) with 4 by (apply Z.div_unique with (q - 28); lia).
    replace (q / 30) with 0 by (symmetry; apply Z.div_small; lia).
    reflexivity.
Qed.

Lemma read_quoted_escape (cs rest : list ascii) :
  (forall c r, rest = c :: r -> ascii_eqb c Client.dq = false) ->
  read_quoted (Client.escape_quotes cs ++ Client.dq :: rest) = Some (cs, rest).
Proof.
  intro Hr. induction cs as [|c cs IH]; simpl.
  - destruct rest as [|c2 r2]; [reflexivity|]. rewrite (Hr c2 r2 eq_refl). reflexivity.
  - destruct (ascii_eqb c Client.dq) eqn:Ec; simpl.
    + rewrite IH. simpl.
      unfold ascii_eqb in Ec. apply Ascii.eqb_eq in Ec. subst c. reflexivity.
    + rewrite Ec, IH. reflexivity.
Qed.

(** The [Content] cell of [exportCSV] reads back, with a
    CSV reader, as exactly the feedback's content, commas, quotes and line
    breaks included, whatever cells follow it on the row. *)
Theorem csv_content_roundtrip (content rest : string)
  (Hrest : rest = "" \/ exists t, rest = "," ++ t) :
  read_field (list_ascii_of_string (Client.csv_content content ++ rest))
  = Some (list_ascii_of_string content, list_ascii_of_string rest).
Proof.
  unfold Client.csv_content. rewrite list_ascii_app, list_ascii_of_string_of_list_ascii.
  simpl.
  rewrite <- app_assoc. simpl. apply read_quoted_escape.
  intros c r E. destruct Hrest as [->|[t ->]]; [discriminate E|].
  simpl in E. injection E as <- _. reflexivity.
Qed.

Lemma page_items_in_range_witness :
  (1 <= 5 <= 10)
  /\ (exists a rest, Client.page_items 5 10 = Client.PageButton 1 a :: rest)
  /\ marked_from 0 (Client.page_items 5 10) = true
  /\ (exists pre a, Client.page_items 5 10 = (pre ++ [Client.PageButton 10 a])%list)
  /\ filter item_active (Client.page_items 5 10) = [Client.PageButton 5 true].
Proof. split; [lia|]. apply (page_items_in_range 5 10); lia. Defined.

Lemma page_items_past_end_witness :
  (1 <= 10 < 12) /\ filter item_active (Client.page_items 12 10) = [].
Proof. split; [lia|]. apply (page_items_past_end 12 10); lia. Defined.

Lemma pagination_info_witness :
  (1 <= 2 /\ 1 <= 2)
  /\ let '(rows, pg) := Query.list_feedback category_rows [] 2 2 in
     match Client.renderPagination pg with
     | None => rows = [] /\ filter (Query.eval_where []) category_rows = []
     | Some rp =>
         filter (Query.eval_where []) category_rows <> []
         /\ Client.info_total rp
            = Z.of_nat (List.length (filter (Query.eval_where []) category_rows))
         /\ (2 <= Query.totalPages pg ->
             Client.info_end rp - Client.info_start rp + 1 = Z.of_nat (List.length rows))
         /\ (Query.totalPages pg < 2 ->
             rows = [] /\ Client.info_end rp < Client.info_start rp)
     end.
Proof. split; [lia|]. apply (pagination_info category_rows [] 2 2); lia. Defined.

Lemma relative_time_edges_witness :
  (28 * Query.day_ms <= 28 * Query.day_ms < 30 * Query.day_ms)
  /\ Client.getRelativeTime "1/1/2024" (28 * Query.day_ms) = "0 months ago".
Proof.
  split; [unfold Query.day_ms; lia|].
  apply (proj2 (relative_time_edges "1/1/2024" (28 * Query.day_ms))).
  unfold Query.day_ms. lia.
Defined.

Lemma csv_content_roundtrip_witness :
  read_field (list_ascii_of_string (Client.csv_content (String Client.dq "a,b") ++ ",neutral"))
  = Some (list_ascii_of_string (String Client.dq "a,b"), list_ascii_of_string ",neutral").
Proof. apply (csv_content_roundtrip (String Client.dq "a,b") ",neutral"). right. exists "neutral". reflexivity. Defined.

(** ** Marking an item addressed from the dashboard *)

Lemma digit_char_ok (k : nat) : (k < 10)%nat -> JsObj.is_dec_digit (ascii_of_nat (48 + k)) = true.
Proof. intro H. do 10 (destruct k as [|k]; [reflexivity|]). lia. Qed.

Lemma dec_digits_digits (f : nat) (n : Z) (acc : string) :
  0 <= n -> forallb JsObj.is_dec_digit (list_ascii_of_string acc) = true ->
  forallb JsObj.is_dec_digit (list_ascii_of_string (dec_digits f n acc)) = true.
Proof.
  revert n acc. induction f as [|f IH]; intros n acc Hn Hacc;
    cbn [dec_digits]; [exact Hacc|].
  assert (Hc : JsObj.is_dec_digit (ascii_of_nat (48 + Z.to_nat (n mod 10))) = true).
  { apply digit_char_ok. pose proof (Z.mod_pos_bound n 10 ltac:(lia)). lia. }
  set (c := ascii_of_nat (48 + Z.to_nat (n mod 10))) in *.
  destruct (n <? 10).
  - cbn [list_ascii_of_string forallb]. rewrite Hc. exact Hacc.
  - apply IH; [apply Z.div_pos; lia|]. cbn [list_ascii_of_string forallb].
    rewrite Hc. exact Hacc.
Qed.

Lemma dec_digits_len (f : nat) (n : Z) (acc : string) :
  (String.length acc <= String.length (dec_digits f n acc))%nat.
Proof.
  revert n acc. induction f as [|f IH]; intros n acc; simpl; [lia|].
  destruct (n <? 10); simpl; [lia|].
  specialize (IH (n / 10) (String (ascii_of_nat (48 + Z.to_nat (n mod 10))) acc)).
  simpl in IH. lia.
Qed.

Lemma dec_digits_nonempty (f : nat) (n : Z) (acc : string) :
  dec_digits (S f) n acc <> "".
Proof.
  cbn [dec_digits].
  set (c := ascii_of_nat (48 + Z.to_nat (n mod 10))).
  destruct (n <? 10); [discriminate|]. intro E.
  pose proof (dec_digits_len f (n / 10) (String c acc)) as L.
  rewrite E in L. cbn [String.length] in L. lia.
Qed.

Lemma z_to_string_digits (n : Z) :
  0 <= n ->
  z_to_string n <> ""
  /\ forallb JsObj.is_dec_digit (list_ascii_of_string (z_to_string n)) = true.
Proof.
  intro Hn. unfold z_to_string. cbv zeta.
  replace (n <? 0) with false by (symmetry; apply Z.ltb_ge; lia).
  split; [apply dec_digits_nonempty|].
  apply dec_digits_digits; [lia|reflexivity].
Qed.

Lemma by_id_ok (id : string) (db : list Detail.StoredRow) (r : Detail.StoredRow) :
  Detail.handleGetFeedbackById id db = Detail.ByIdOk r ->
  find (Detail.id_matches (Query.parse_int id)) db = Some r /\ themes (Detail.row r) <> None.
Proof.
  unfold Detail.handleGetFeedbackById, Detail.by_id_response.
  destruct (find _ db) as [x|]; [|discriminate].
  destruct (themes (Detail.row x)) as [t|] eqn:Et; [|discriminate].
  intro E. injection E as <-. split; [reflexivity|congruence].
Qed.

Lemma patch_found (id now : string) (v : bool) (db : list Detail.StoredRow) (r : Detail.StoredRow) :
  find (Detail.id_matches (Query.parse_int id)) db = Some r ->
  themes (Detail.row r) <> None ->
  exists db',
    Detail.handlePatchFeedback id (Some (JObj [("addressed", JBool v)])) now db
    = (Detail.PatchOk {| Detail.row := Detail.row r;
                         Detail.addressed := if v then 1 else 0;
                         Detail.addressed_at := if v then Some now else None |}, db')
    /\ find (Detail.id_matches (Query.parse_int id)) db'
       = Some {| Detail.row := Detail.row r;
                 Detail.addressed := if v then 1 else 0;
                 Detail.addressed_at := if v then Some now else None |}.
Proof.
  intros Hf Ht. unfold Detail.handlePatchFeedback.
  replace (get_prop (JObj [("addressed", JBool v)]) "addressed") with (Some (JBool v))
    by reflexivity.
  cbv beta iota zeta.
  set (n := Query.parse_int id) in *.
  match goal with |- context [find _ (map ?f db)] => set (upd := f) end.
  assert (Hp : forall x, Detail.id_matches n (upd x) = Detail.id_matches n x).
  { intro x. unfold upd. destruct (Detail.id_matches n x) eqn:E; [exact E|exact E]. }
  pose proof (find_some _ _ Hf) as [_ Hm].
  assert (Hr : upd r = {| Detail.row := Detail.row r;
                           Detail.addressed := if v then 1 else 0;
                           Detail.addressed_at := if v then Some now else None |}).
  { unfold upd. rewrite Hm. reflexivity. }
  rewrite (update_find _ _ Hp db), Hf. cbn [option_map]. rewrite Hr. cbn [Detail.row].
  destruct (themes (Detail.row r)) as [t|]; [|contradiction].
  exists (map upd db). split; [reflexivity|].
  rewrite (update_find _ _ Hp db), Hf. cbn [option_map]. rewrite Hr. reflexivity.
Qed.

(** [toggleAddressed] on an item the modal loaded sends a
    request the router hands to [handlePatchFeedback] for that item's id;
    the item comes back with the same feedback, [addressed] flipped (and the
    time set exactly when it becomes 1), and a second toggle from the
    returned item restores [addressed] when it was 0 or 1. *)
Theorem toggle_addressed_twice (db : list Detail.StoredRow) (r : Detail.StoredRow)
  (now1 now2 : string)
  (Hid : 0 <= Store.id (Detail.row r) < 10 ^ 15)
  (Hget : Detail.handleGetFeedbackById (z_to_string (Store.id (Detail.row r))) db
          = Detail.ByIdOk r) :
  let '(m, path, body) := Client.toggle_request r in
  Router.route m path = Router.RPatchById (z_to_string (Store.id (Detail.row r)))
  /\ exists r1 db1 r2 db2,
       Detail.handlePatchFeedback (z_to_string (Store.id (Detail.row r))) (Some body)
         now1 db = (Detail.PatchOk r1, db1)
       /\ snd (fst (Client.toggle_request r1)) = path
       /\ Detail.handlePatchFeedback (z_to_string (Store.id (Detail.row r)))
            (Some (snd (Client.toggle_request r1))) now2 db1 = (Detail.PatchOk r2, db2)
       /\ Detail.row r1 = Detail.row r /\ Detail.row r2 = Detail.row r
       /\ Detail.addressed r1 = (if Detail.addressed r =? 0 then 1 else 0)
       /\ Detail.addressed_at r1 = (if Detail.addressed r =? 0 then Some now1 else None)
       /\ (Detail.addressed r = 0 \/ Detail.addressed r = 1 ->
           Detail.addressed r2 = Detail.addressed r).
Proof.
  destruct (z_to_string_digits _ (proj1 Hid)) as [Hne Hd].
  destruct (Client.toggle_request r) as [[m path] body] eqn:T.
  unfold Client.toggle_request in T. injection T as <- <- <-.
  set (s := z_to_string (Store.id (Detail.row r))) in *.
  split; [exact (proj1 (proj2 (route_digits s Hne Hd)))|].
  destruct (by_id_ok _ _ _ Hget) as [Hf Ht].
  destruct (patch_found s now1 (Detail.addressed r =? 0) db r Hf Ht) as [db1 [E1 F1]].
  destruct (patch_found s now2
              ((if Detail.addressed r =? 0 then 1 else 0) =? 0) db1 _ F1 Ht) as [db2 [E2 _]].
  do 4 eexists. split; [exact E1|]. split; [reflexivity|]. split; [exact E2|].
  split; [reflexivity|]. split; [reflexivity|]. split; [reflexivity|]. split; [reflexivity|].
  simpl. intros [H|H]; rewrite H; reflexivity.
Qed.

Lemma toggle_addressed_twice_witness :
  (0 <= Store.id (Detail.row row_two) < 10 ^ 15)
  /\ Detail.handleGetFeedbackById (z_to_string (Store.id (Detail.row row_two))) detail_rows
     = Detail.ByIdOk row_two
  /\ let '(m, path, body) := Client.toggle_request row_two in
     Router.route m path = Router.RPatchById (z_to_string (Store.id (Detail.row row_two)))
     /\ exists r1 db1 r2 db2,
          Detail.handlePatchFeedback (z_to_string (Store.id (Detail.row row_two)))
            (Some body) "2024-02-01T00:00:00.000Z" detail_rows = (Detail.PatchOk r1, db1)
          /\ snd (fst (Client.toggle_request r1)) = path
          /\ Detail.handlePatchFeedback (z_to_string (Store.id (Detail.row row_two)))
               (Some (snd (Client.toggle_request r1))) "2024-02-02T00:00:00.000Z" db1
             = (Detail.PatchOk r2, db2)
          /\ Detail.row r1 = Detail.row row_two /\ Detail.row r2 = Detail.row row_two
          /\ Detail.addressed r1 = (if Detail.addressed row_two =? 0 then 1 else 0)
          /\ Detail.addressed_at r1
             = (if Detail.addressed row_two =? 0 then Some "2024-02-01T00:00:00.000Z" else None)
          /\ (Detail.addressed row_two = 0 \/ Detail.addressed row_two = 1 ->
              Detail.addressed r2 = Detail.addressed row_two).
Proof.
  assert (Hid : 0 <= Store.id (Detail.row row_two) < 10 ^ 15) by (simpl; lia).
  assert (Hget : Detail.handleGetFeedbackById (z_to_string (Store.id (Detail.row row_two)))
                   detail_rows = Detail.ByIdOk row_two) by (vm_compute; reflexivity).
  split; [exact Hid|]. split; [exact Hget|].
  exact (toggle_addressed_twice detail_rows row_two _ _ Hid Hget).
Defined.

Lemma trending_topic_spec_witness :
  proto_free (firstn 10 [example_row 1 "negative" 4 ["ui"; "login"; "ui"]]) = true
  /\ match Insights.trendingTopic
             (Insights.handleGetAIInsights [example_row 1 "negative" 4 ["ui"; "login"; "ui"]]) with
     | None => all_mentions (firstn 10 [example_row 1 "negative" 4 ["ui"; "login"; "ui"]]) = []
     | Some x =>
         let recent := all_mentions (firstn 10 [example_row 1 "negative" 4 ["ui"; "login"; "ui"]]) in
         Insights.t_count x = CNum (mentions (Insights.t_theme x) recent)
         /\ 0 < mentions (Insights.t_theme x) recent
         /\ Insights.recentMentions x = Insights.t_count x
         /\ forall t, mentions t recent <= mentions (Insights.t_theme x) recent
     end.
Proof.
  assert (H : proto_free (firstn 10 [example_row 1 "negative" 4 ["ui"; "login"; "ui"]]) = true)
    by (vm_compute; reflexivity).
  split; [exact H|]. exact (trending_topic_spec _ H).
Defined.

Lemma top_themes_spec_witness :
  proto_free [example_row 1 "neutral" 3 ["ui"; "404"; "ui"]] = true
  /\ (List.length (top_themes [example_row 1 "neutral" 3 ["ui"; "404"; "ui"]]) <= 5)%nat.
Proof.
  assert (H : proto_free [example_row 1 "neutral" 3 ["ui"; "404"; "ui"]] = true)
    by (vm_compute; reflexivity).
  split; [exact H|]. exact (proj1 (top_themes_spec _ H)).
Defined.

Lemma themes_match_index_witness :
  proto_free [example_row 1 "neutral" 3 ["ui"; "404"; "ui"]] = true
  /\ map (fun e => (Themes.te_theme e, CNum (Themes.te_count e)))
        (firstn 5 (Themes.handleGetThemes [example_row 1 "neutral" 3 ["ui"; "404"; "ui"]]))
     = top_themes [example_row 1 "neutral" 3 ["ui"; "404"; "ui"]].
Proof.
  assert (H : proto_free [example_row 1 "neutral" 3 ["ui"; "404"; "ui"]] = true)
    by (vm_compute; reflexivity).
  split; [exact H|]. exact (proj1 (proj2 (themes_match_index _ H))).
Defined.

Lemma themes_examples_witness :
  proto_free [example_row 1 "neutral" 3 ["ui"; "ui"]; example_row 2 "neutral" 3 ["ui"]] = true
  /\ forall e, In e (Themes.handleGetThemes
                       [example_row 1 "neutral" 3 ["ui"; "ui"]; example_row 2 "neutral" 3 ["ui"]]) ->
       Themes.te_feedback e
       = firstn 3 (occ_examples (Themes.te_theme e)
                     [example_row 1 "neutral" 3 ["ui"; "ui"]; example_row 2 "neutral" 3 ["ui"]]).
Proof.
  assert (H : proto_free [example_row 1 "neutral" 3 ["ui"; "ui"]; example_row 2 "neutral" 3 ["ui"]]
              = true) by (vm_compute; reflexivity).
  split; [exact H|]. exact (proj1 (themes_examples _ H)).
Defined.

Lemma date_range_same_day_excluded_witness :
  Query.q_dateRange {| Query.q_source := None; Query.q_sentiment := None;
                       Query.q_category := None; Query.q_priority := None;
                       Query.q_dateRange := Some "24h"; Query.q_page := None;
                       Query.q_limit := None |} = Some "24h"
  /\ Query.eval_where
       (Query.build_where (fun _ => "2024-01-01T06:00:00.000Z") (2 * Query.day_ms)
          {| Query.q_source := None; Query.q_sentiment := None;
             Query.q_category := None; Query.q_priority := None;
             Query.q_dateRange := Some "24h"; Query.q_page := None;
             Query.q_limit := None |})
       (example_row 1 "neutral" 3 []) = false.
Proof.
  split; [reflexivity|].
  apply (date_range_same_day_excluded (fun _ => "2024-01-01T06:00:00.000Z") (2 * Query.day_ms)
           _ "24h" "2024-01-01" "06:00:00.000Z" "00:00:00" (example_row 1 "neutral" 3 [])).
  - reflexivity.
  - exists Query.day_ms. split; reflexivity.
  - reflexivity.
Defined.
